(** * timetracker: a curses multi-stopwatch, and the Ruby script kept with it

    Shallow embedding of the timer engine and the config loader of the C
    program (the variant whose [MAX_TIMETRACKERS] is 9, with the one
    assignment in which the variant with capacity 20 differs), and of the
    task file of the Ruby script: how [TaskSet] reads it and how [Saver]
    writes it.

    Layout: machine integers, the C library routines the loader calls
    ([fgets], [sscanf]), the C program, the Ruby script; then the lemmas
    and the theorems about them. *)

From Stdlib Require Import ZArith List Ascii String Bool Lia.
From stdpp Require Import list gmap strings.
Import ListNotations.
Open Scope Z_scope.

(** ** Machine integers

    [int] is 32 bits wide and [time_t] 64 bits wide (LP64), both signed and
    stored in two's complement.  A value is a [Z]; an operation whose exact
    result leaves the range is reduced modulo the width.  (ISO C leaves
    signed overflow undefined; the reduction is what the arithmetic
    instructions of the usual targets do.) *)

Module CInt.

Definition wrap_signed (bits : Z) (z : Z) : Z :=
  (z + 2 ^ (bits - 1)) mod 2 ^ bits - 2 ^ (bits - 1).

Definition INT_MIN : Z := - 2 ^ 31.
Definition INT_MAX : Z := 2 ^ 31 - 1.
Definition LONG_MIN : Z := - 2 ^ 63.
Definition LONG_MAX : Z := 2 ^ 63 - 1.
Definition TIME_MIN : Z := - 2 ^ 63.
Definition TIME_MAX : Z := 2 ^ 63 - 1.

Definition wrap_int (z : Z) : Z := wrap_signed 32 z.
Definition wrap_time (z : Z) : Z := wrap_signed 64 z.

Definition in_int (z : Z) : Prop := INT_MIN <= z <= INT_MAX.
Definition in_time (z : Z) : Prop := TIME_MIN <= z <= TIME_MAX.

End CInt.
Import CInt.

(** ** The C library routines the loader calls

    Characters are [ascii]; a buffer and a file are lists of them. *)

Module Stdio.

Definition NUL : ascii := "000"%char.
Definition newline : ascii := "010"%char.

(** The C string a buffer holds: the characters before the first NUL. *)
Fixpoint c_str (buf : list ascii) : list ascii :=
  match buf with
  | [] => []
  | c :: r => if (c =? NUL)%char then [] else c :: c_str r
  end.

(** [fgets] copies at most [room] characters and stops after a newline;
    the result is what was copied and what is left of the file. *)
Fixpoint fgets_chars (room : nat) (f : list ascii)
  : list ascii * list ascii :=
  match room, f with
  | S room', c :: f' =>
      if (c =? newline)%char then ([c], f')
      else let '(l, r) := fgets_chars room' f' in (c :: l, r)
  | _, _ => ([], f)
  end.

(** [fgets(line, size, f)]: [None] is the NULL of end-of-file with nothing
    read. *)
Definition fgets (size : nat) (f : list ascii)
  : option (list ascii * list ascii) :=
  match f with
  | [] => None
  | _ => Some (fgets_chars (size - 1) f)
  end.

(** [isspace] and [isdigit] in the C locale. *)
Definition isspace (c : ascii) : bool :=
  let n := nat_of_ascii c in
  (n =? 32)%nat || ((9 <=? n)%nat && (n <=? 13)%nat).

Definition isdigit (c : ascii) : bool :=
  let n := nat_of_ascii c in (48 <=? n)%nat && (n <=? 57)%nat.

Definition digit_value (c : ascii) : Z := Z.of_nat (nat_of_ascii c) - 48.

(** The directive [%80[^=]]: the longest run of at most [width]
    characters other than ['='], and the rest of the input.  White space
    is not skipped. *)
Fixpoint scan_not_eq (width : nat) (s : list ascii)
  : list ascii * list ascii :=
  match width, s with
  | S w, c :: r =>
      if (c =? "=")%char then ([], s)
      else let '(m, r') := scan_not_eq w r in (c :: m, r')
  | _, _ => ([], s)
  end.

Fixpoint skip_space (s : list ascii) : list ascii :=
  match s with
  | c :: r => if isspace c then skip_space r else s
  | [] => []
  end.

Fixpoint scan_digits (acc : Z) (s : list ascii) : Z * list ascii :=
  match s with
  | c :: r =>
      if isdigit c then scan_digits (acc * 10 + digit_value c) r
      else (acc, s)
  | [] => (acc, [])
  end.

(** What [%d] stores for a numeral of exact value [v].  In range it is
    [v].  Out of range ISO C leaves the conversion undefined; the GNU
    library converts as [strtol] does (clamping to [long]) and stores the
    result cut down to [int]. *)
Definition store_int (v : Z) : Z :=
  wrap_int (Z.max LONG_MIN (Z.min LONG_MAX v)).

(** The directive [%d]: white space is skipped, then an optional sign and
    at least one digit are read.  [None] when no number is there. *)
Definition scan_d (s : list ascii) : option (Z * list ascii) :=
  let s1 := skip_space s in
  let '(neg, s2) :=
    match s1 with
    | c :: r =>
        if (c =? "-")%char then (true, r)
        else if (c =? "+")%char then (false, r)
        else (false, s1)
    | [] => (false, s1)
    end in
  match s2 with
  | c :: _ =>
      if isdigit c then
        let '(v, rest) := scan_digits 0 s2 in
        Some (store_int (if neg then - v else v), rest)
      else None
  | [] => None
  end.

(** The outcome of [sscanf(line, "%80[^=]=%dM", name, &minutes)]: which
    of the two pointers were stored through, and with what. *)
Inductive scan_result : Type :=
| ScanEOF
| ScanNone
| ScanName (nm : list ascii)
| ScanNameInt (nm : list ascii) (n : Z).

(** The value [sscanf] returns: the number of assignments, or [EOF] when
    the input ends before the first conversion. *)
Definition scan_count (r : scan_result) : Z :=
  match r with
  | ScanEOF => -1
  | ScanNone => 0
  | ScanName _ => 1
  | ScanNameInt _ _ => 2
  end.

(** Once [%d] has stored its number the count is 2 whether or not the
    literal [M] of the format is matched by the input. *)
Definition sscanf_name_eq_int (line : list ascii) : scan_result :=
  match line with
  | [] => ScanEOF
  | _ =>
      let '(nm, r1) := scan_not_eq 80 line in
      match nm with
      | [] => ScanNone
      | _ =>
          match r1 with
          | c :: r2 =>
              if (c =? "=")%char then
                match scan_d r2 with
                | Some (n, _) => ScanNameInt nm n
                | None => ScanName nm
                end
              else ScanName nm
          | [] => ScanName nm
          end
      end
  end.

End Stdio.
Import Stdio.

(** ** The C program: types and timer engine *)

Definition TT_NAME_SZ : nat := 80.

(** [struct timetracker].  [name] holds the characters before the
    terminating NUL; [running] is the C [int] (nonzero when the timer
    runs); the two times are [time_t]. *)
Record timetracker : Type := mk_timetracker {
  name : list ascii;
  running : Z;
  remaining_seconds : Z;
  finish_time : Z
}.

(** An element of the array as [calloc] leaves it. *)
Definition zeroed_timetracker : timetracker :=
  {| name := []; running := 0; remaining_seconds := 0; finish_time := 0 |}.

(** The truth value of [timetracker->running] in a condition. *)
Definition is_running (t : timetracker) : bool := negb (running t =? 0).

(** [timetracker_off]; [cur_time] is what its call of [time(NULL)]
    returns. *)
Definition timetracker_off (cur_time : Z) (t : timetracker) : timetracker :=
  if negb (is_running t) then t
  else if finish_time t <=? cur_time then
    {| name := name t; running := 0; remaining_seconds := 0;
       finish_time := 0 |}
  else
    {| name := name t; running := 0;
       remaining_seconds := wrap_time (finish_time t - cur_time);
       finish_time := 0 |}.

(** [timetracker_on]; [cur_time] is what its call of [time(NULL)]
    returns. *)
Definition timetracker_on (cur_time : Z) (t : timetracker) : timetracker :=
  if is_running t then t
  else
    {| name := name t; running := 1; remaining_seconds := 0;
       finish_time := wrap_time (cur_time + remaining_seconds t) |}.

(** The digit-key branch of the loop of [main], for a timer in range:
    [if (timetrackers[n].running) timetracker_off(...); else
    timetracker_on(...);]. *)
Definition toggle (cur_time : Z) (t : timetracker) : timetracker :=
  if is_running t then timetracker_off cur_time t
  else timetracker_on cur_time t.

(** The body of the loop of [draw_timetrackers] that computes [rem] for
    one timer.  [cur_time] is read once at the top of
    [draw_timetrackers]; [off_time] is the later reading that
    [timetracker_off] takes by itself when the expiry branch calls it.
    The result is [rem] and the timer as the iteration leaves it. *)
Definition observe (cur_time off_time : Z) (t : timetracker)
  : Z * timetracker :=
  if negb (is_running t) then (remaining_seconds t, t)
  else if finish_time t <? cur_time then (0, timetracker_off off_time t)
  else (wrap_time (finish_time t - cur_time), t).

(** The [min] and [sec] that a row shows: [min = rem / 60] and
    [sec = rem - (min * 60)], both [int]; C division truncates, the
    product is formed in [int] and the difference in [time_t]. *)
Definition row_min_sec (rem : Z) : Z * Z :=
  let min := wrap_int (Z.quot rem 60) in
  let sec := wrap_int (wrap_time (rem - wrap_int (min * 60))) in
  (min, sec).

(** Modelled from the spec: the C sources have no zeroing operation (the
    spec's [zero] comes from the Ruby script's [Task#zero_timer], which
    ends the timer and then clears it); on the C record it is
    "[turnOff] then force [remaining_seconds = 0]". *)
Definition zero (cur_time : Z) (t : timetracker) : timetracker :=
  let t' := timetracker_off cur_time t in
  {| name := name t'; running := running t';
     remaining_seconds := 0; finish_time := finish_time t' |}.

(** The time a timer has left at [now], as the spec words it: the banked
    [remaining_seconds] when stopped, [max(0, finish_time - now)] when
    running. *)
Definition effective_remaining (now : Z) (t : timetracker) : Z :=
  if is_running t then Z.max 0 (finish_time t - now)
  else remaining_seconds t.

(** The data-model invariant: a stopped timer has no finish time, a
    running one has nothing banked. *)
Definition tt_inv (t : timetracker) : Prop :=
  (is_running t = false -> finish_time t = 0) /\
  (is_running t = true -> remaining_seconds t = 0).

(** ** The C program: config loader *)

(** The size of the line buffer of [get_timetrackers]. *)
Definition LINE_SZ : nat := 160.

(** The "trim newline if present" step of [parse_timetracker]. *)
Definition trim_newline (line : list ascii) : list ascii :=
  match last line with
  | Some c => if (c =? newline)%char then removelast line else line
  | None => line
  end.

Definition set_name (nm : list ascii) (t : timetracker) : timetracker :=
  {| name := nm; running := running t;
     remaining_seconds := remaining_seconds t;
     finish_time := finish_time t |}.

(** [line[0] == '#'] on the string a buffer holds. *)
Definition starts_with_hash (line : list ascii) : bool :=
  match line with
  | c :: _ => (c =? "#")%char
  | [] => false
  end.

(** [parse_timetracker(line, timetracker)]: [buf] is the line buffer and
    [slot] the element that [timetracker] points to.  The result is the
    return value and the element afterwards.  [sscanf] stores the name as
    soon as it has matched it, so a line that fails later leaves the name
    behind.  (The NUL that ends a name of 80 characters falls on the first
    byte of [running]; [running] is 0 there, or is set to 0 next.)  The
    product [minutes * 60] is computed in [int]. *)
Definition parse_timetracker (buf : list ascii) (slot : timetracker)
  : Z * timetracker :=
  let line := c_str buf in
  if starts_with_hash line then (0, slot)
  else
    let len := Z.of_nat (length line) in
    if len <? 1 then (0, slot)
    else
      match sscanf_name_eq_int (trim_newline line) with
      | ScanNameInt nm minutes =>
          (1, {| name := nm; running := 0;
                 remaining_seconds := wrap_int (minutes * 60);
                 finish_time := 0 |})
      | ScanName nm => (-1000, set_name nm slot)
      | ScanNone | ScanEOF => (-1000, slot)
      end.

(** The ways [get_timetrackers] gives up once the file is open, named by
    what it prints. *)
Inductive load_error : Type :=
| OffByOneError
| FailedToParse (line_no : Z) (line : list ascii)
| NoTimetrackersFound.

(** The lines that successive calls of [fgets(line, sizeof(line), f)]
    deliver until it returns NULL.  Every call takes at least one
    character, so the length of the file is fuel enough. *)
Fixpoint fgets_all (fuel : nat) (f : list ascii) : list (list ascii) :=
  match fuel with
  | O => []
  | S k =>
      match fgets LINE_SZ f with
      | None => []
      | Some (l, r) => l :: fgets_all k r
      end
  end.

Definition file_lines (f : list ascii) : list (list ascii) :=
  fgets_all (length f) f.

(** The [while (1)] loop of [get_timetrackers] and what follows it, over
    the lines still to be read.  [ret] is the array of
    [MAX_TIMETRACKERS + 1] elements; success delivers the array and
    [*num_trackers].  [num_tt] stays below the capacity, [line_no] is an
    [int] that counts every call of [fgets]. *)
Fixpoint read_lines (cap : nat) (lines : list (list ascii))
    (num_tt line_no : Z) (ret : list timetracker)
  : load_error + (list timetracker * Z) :=
  match lines with
  | [] =>
      if num_tt =? 0 then inl NoTimetrackersFound
      else
        let i := Z.to_nat num_tt in
        inr (<[i := set_name [] (nth i ret zeroed_timetracker)]> ret, num_tt)
  | buf :: rest =>
      let line_no := wrap_int (line_no + 1) in
      if Z.of_nat cap <=? num_tt then inl OffByOneError
      else
        let i := Z.to_nat num_tt in
        let '(out, slot) :=
          parse_timetracker buf (nth i ret zeroed_timetracker) in
        let ret := <[i := slot]> ret in
        if out <? 0 then
          inl (FailedToParse line_no (trim_newline (c_str buf)))
        else if 0 <? out then
          read_lines cap rest (num_tt + out) line_no ret
        else read_lines cap rest num_tt line_no ret
  end.

(** [get_timetrackers] for a file that could be opened, with the capacity
    as a parameter. *)
Definition get_timetrackers_cap (cap : nat) (f : list ascii)
  : load_error + (list timetracker * Z) :=
  read_lines cap (file_lines f) 0 0 (replicate (cap + 1) zeroed_timetracker).

Definition MAX_TIMETRACKERS : nat := 9.

Definition get_timetrackers (f : list ascii)
  : load_error + (list timetracker * Z) :=
  get_timetrackers_cap MAX_TIMETRACKERS f.

(** The timer a line creates, if it creates one. *)
Definition created_timer (buf : list ascii) : option timetracker :=
  let '(out, slot) := parse_timetracker buf zeroed_timetracker in
  if 0 <? out then Some slot else None.

(** The shape [<name>=<N>M] of a config line.  A name is not empty, does
    not start with ['#'], holds neither ['='] nor NUL and fits
    [TT_NAME_SZ]; [N] is a decimal numeral. *)
Definition name_ok (nm : list ascii) : bool :=
  match nm with
  | [] => false
  | c :: _ => negb (c =? "#")%char
  end
  && forallb (fun c => negb (c =? "=")%char && negb (c =? NUL)%char) nm
  && (length nm <=? TT_NAME_SZ)%nat.

Definition numeral_ok (ds : list ascii) : bool :=
  match ds with
  | [] => false
  | _ => forallb isdigit ds
  end.

Definition numeral_value (ds : list ascii) : Z :=
  fold_left (fun a c => a * 10 + digit_value c) ds 0.

Definition eol_ok (eol : list ascii) : bool :=
  match eol with
  | [] => true
  | [c] => (c =? newline)%char
  | _ => false
  end.

Definition config_line (nm ds eol : list ascii) : list ascii :=
  nm ++ "="%char :: ds ++ "M"%char :: eol.

(** The older variant of the program (capacity 20) differs in the loader
    in one assignment: it stores the scanned number as it is. *)
Definition MAX_TIMETRACKERS_older : nat := 20.

Definition parse_timetracker_older (buf : list ascii) (slot : timetracker)
  : Z * timetracker :=
  let line := c_str buf in
  if starts_with_hash line then (0, slot)
  else
    let len := Z.of_nat (length line) in
    if len <? 1 then (0, slot)
    else
      match sscanf_name_eq_int (trim_newline line) with
      | ScanNameInt nm seconds =>
          (1, {| name := nm; running := 0;
                 remaining_seconds := seconds;
                 finish_time := 0 |})
      | ScanName nm => (-1000, set_name nm slot)
      | ScanNone | ScanEOF => (-1000, slot)
      end.

(** Text literals. *)
Definition txt (s : string) : list ascii := list_ascii_of_string s.

(** Every field of a timer and the clock reading are values of their C
    types. *)
Definition tt_typed (t : timetracker) : Prop :=
  in_int (running t) /\ in_time (remaining_seconds t) /\
  in_time (finish_time t).

(** ** Sample inputs *)

(** A file with the given lines, each ended by a newline. *)
Definition text_lines (ls : list string) : list ascii :=
  concat (map (fun s => txt s ++ [newline]) ls).

Definition sample_config : list ascii :=
  text_lines ["A=5M"; "#c"; "B=10M"]%string.

Definition blank_line_config : list ascii :=
  text_lines ["A=5M"; ""; "B=10M"]%string.

Definition huge_config : list ascii := text_lines ["A=40000000M"]%string.

Definition negative_config : list ascii := text_lines ["A=-5M"]%string.

Definition full_config_then_comment : list ascii :=
  text_lines ["A=1M"; "B=2M"; "C=3M"; "D=4M"; "E=5M"; "F=6M"; "G=7M";
              "H=8M"; "I=9M"; "# end"]%string.

Definition stopped_300 : timetracker :=
  {| name := txt "A"; running := 0; remaining_seconds := 300;
     finish_time := 0 |}.

Definition stopped_negative : timetracker :=
  {| name := txt "A"; running := 0; remaining_seconds := -300;
     finish_time := 0 |}.

Definition running_until_1000 : timetracker :=
  {| name := txt "A"; running := 1; remaining_seconds := 0;
     finish_time := 1000 |}.

Definition running_until_max : timetracker :=
  {| name := txt "A"; running := 1; remaining_seconds := 0;
     finish_time := TIME_MAX |}.

Definition stopped_one : timetracker :=
  {| name := txt "A"; running := 0; remaining_seconds := 1;
     finish_time := 0 |}.

(** ** The Ruby script: task times, tasks, the task file

    Ruby strings are lists of characters, Ruby integers are [Z] (they do
    not overflow), [nil] is [None].  An exception that nothing rescues
    ends the run; it is the left summand of a result. *)

Module Ruby.

Inductive ruby_error : Type :=
| NoMethodError                               (* a method called on nil *)
| MalformedTimeString (s : list ascii)        (* CreateTaskTime's throw *)
| BoundTwice.                                 (* add_obs's throw *)

Definition CR : ascii := "013"%char.

(** [IO#gets] until it returns nil: every line keeps its newline, the
    last one may lack it. *)
Fixpoint gets_all (f : list ascii) : list (list ascii) :=
  match f with
  | [] => []
  | c :: r =>
      if (c =? newline)%char then [c] :: gets_all r
      else
        match gets_all r with
        | [] => [[c]]
        | l :: ls => (c :: l) :: ls
        end
  end.

(** [String#chomp!] with the default separator: one trailing ["\r\n"],
    ["\n"] or ["\r"] goes. *)
Definition chomp (s : list ascii) : list ascii :=
  match rev s with
  | a :: r =>
      if (a =? newline)%char then
        match r with
        | b :: r' => if (b =? CR)%char then rev r' else rev r
        | [] => []
        end
      else if (a =? CR)%char then rev r
      else s
  | [] => []
  end.

(** [String#split(sep)] for a one-character separator other than a space:
    the fields between the separators, without the empty fields at the
    end. *)
Fixpoint split_fields (sep : ascii) (s : list ascii) : list (list ascii) :=
  match s with
  | [] => [[]]
  | c :: r =>
      if (c =? sep)%char then [] :: split_fields sep r
      else
        match split_fields sep r with
        | fld :: flds => (c :: fld) :: flds
        | [] => [[c]]
        end
  end.

Fixpoint drop_trailing_empty (flds : list (list ascii))
  : list (list ascii) :=
  match flds with
  | [] => []
  | fld :: r =>
      match drop_trailing_empty r, fld with
      | [], [] => []
      | r', _ => fld :: r'
      end
  end.

Definition split (sep : ascii) (s : list ascii) : list (list ascii) :=
  drop_trailing_empty (split_fields sep s).

(** [String#to_i]: leading white space, an optional sign, then digits,
    where single underscores may stand between digits; what follows is
    ignored and no digits at all give 0. *)
Fixpoint to_i_digits (acc : Z) (s : list ascii) : Z :=
  match s with
  | c :: r =>
      if isdigit c then to_i_digits (acc * 10 + digit_value c) r
      else if (c =? "_")%char then
        match r with
        | d :: _ => if isdigit d then to_i_digits acc r else acc
        | [] => acc
        end
      else acc
  | [] => acc
  end.

Definition to_i (s : list ascii) : Z :=
  match skip_space s with
  | c :: r =>
      if (c =? "-")%char then
        match r with
        | d :: _ => if isdigit d then - to_i_digits 0 r else 0
        | [] => 0
        end
      else if (c =? "+")%char then
        match r with
        | d :: _ => if isdigit d then to_i_digits 0 r else 0
        | [] => 0
        end
      else if isdigit c then to_i_digits 0 (c :: r)
      else 0
  | [] => 0
  end.

(** Decimal digits of a natural number, most significant first. *)
Definition digit_char (d : Z) : ascii := ascii_of_nat (48 + Z.to_nat d).

Fixpoint dec_digits (fuel : nat) (n : Z) : list ascii :=
  match fuel with
  | O => []
  | S k =>
      if n <? 10 then [digit_char n]
      else dec_digits k (n / 10) ++ [digit_char (n mod 10)]
  end.

(** A number below [2 ^ k] has at most [k] decimal digits. *)
Definition decimal (n : Z) : list ascii :=
  dec_digits (S (Z.to_nat (Z.log2 n))) n.

(** [sprintf("%02d", n)]: at least two characters, zeros in front, the
    sign counted in. *)
Definition sprintf_02d (n : Z) : list ascii :=
  if n <? 0 then "-"%char :: decimal (- n)
  else if n <? 10 then "0"%char :: decimal n
  else decimal n.

(** [class TaskTime]. *)
Record TaskTime : Type := mk_TaskTime {
  seconds : Z;
  start_time : option Z
}.

(** [TaskTime#initialize]. *)
Definition TaskTime_new (hours minutes secs : Z) : TaskTime :=
  {| seconds := (60 * 60 * hours) + (60 * minutes) + secs;
     start_time := None |}.

(** [TaskTime.CreateTaskTime]; the argument is nil when the line had no
    such field. *)
Definition CreateTaskTime (string : option (list ascii))
  : ruby_error + TaskTime :=
  match string with
  | None => inl NoMethodError
  | Some str =>
      match split ":" str with
      | [t0; t1] => inr (TaskTime_new (to_i t0) (to_i t1) 0)
      | _ => inl (MalformedTimeString str)
      end
  end.

(** [TaskTime#get_seconds(curtime)]. *)
Definition get_seconds (curtime : Z) (tt : TaskTime) : Z :=
  match start_time tt with
  | Some st => (curtime - st) + seconds tt
  | None => seconds tt
  end.

(** [TaskTime#to_s]; [now] is [Time.new.to_i].  Integer division
    floors. *)
Definition TaskTime_to_s (now : Z) (tt : TaskTime) : list ascii :=
  let curseconds := get_seconds now tt in
  let hours := curseconds / 3600 in
  let sec_remainder := curseconds - (hours * 3600) in
  let minutes := sec_remainder / 60 in
  sprintf_02d hours ++ ":"%char :: sprintf_02d minutes.

(** [TaskTime#start_timer], [TaskTime#end_timer] (which reads the clock
    itself and ignores its argument) and [TaskTime#zero]. *)
Definition start_timer (curtime : Z) (tt : TaskTime) : TaskTime :=
  {| seconds := seconds tt; start_time := Some curtime |}.

Definition end_timer (now : Z) (tt : TaskTime) : TaskTime :=
  {| seconds := get_seconds now tt; start_time := None |}.

Definition TaskTime_zero (tt : TaskTime) : TaskTime :=
  {| seconds := 0; start_time := None |}.

(** [class Task], without what only the display needs. *)
Record Task : Type := mk_Task {
  key : list ascii;
  taskname : list ascii;
  goaltime : TaskTime;
  curtime : TaskTime
}.

(** [Task#to_s]. *)
Definition Task_to_s (now : Z) (t : Task) : list ascii :=
  (key t ++ "|"%char :: taskname t ++ "|"%char ::
   TaskTime_to_s now (curtime t) ++ "|"%char ::
   TaskTime_to_s now (goaltime t)) ++ [newline].

(** [Task#zero_timer], which [Zeroer] runs on every task: the timer is
    ended, then cleared. *)
Definition zero_timer (now : Z) (t : Task) : Task :=
  {| key := key t; taskname := taskname t; goaltime := goaltime t;
     curtime := TaskTime_zero (end_timer now (curtime t)) |}.

(** What is bound to a keystroke in [KeystrokeSubject]. *)
Inductive observer : Type :=
| ObsQuitter
| ObsSaver
| ObsZeroer
| ObsTask (t : Task).

(** [@observers]: the key is [?q], or [key[0]] of a task, which is nil
    for an empty key. *)
Abbreviation observers := (gmap (option ascii) observer).

(** [KeystrokeSubject#add_obs]. *)
Definition add_obs (k : option ascii) (obs : observer) (os : observers)
  : ruby_error + observers :=
  match os !! k with
  | Some _ => inl BoundTwice
  | None => inr (<[k := obs]> os)
  end.

(** [class TaskSet]: [@tasks] is a Hash; it is taken to keep the order in
    which its keys were first stored, as a Hash does from Ruby 1.9 on. *)
Record TaskSet : Type := mk_TaskSet {
  description : list ascii;
  tasks : list (list ascii * Task)
}.

(** [hash[k] = v]. *)
Fixpoint hash_store (k : list ascii) (v : Task)
    (h : list (list ascii * Task)) : list (list ascii * Task) :=
  match h with
  | [] => [(k, v)]
  | (k', v') :: r =>
      if decide (k = k') then (k, v) :: r
      else (k', v') :: hash_store k v r
  end.

(** [TaskSet#add_task]. *)
Definition add_task (k tname : list ascii) (goal cur : TaskTime)
    (st : list (list ascii * Task) * observers)
  : ruby_error + (list (list ascii * Task) * observers) :=
  let task := {| key := k; taskname := tname; goaltime := goal;
                 curtime := cur |} in
  let tasks' := hash_store k task (fst st) in
  match add_obs (hd_error k) (ObsTask task) (snd st) with
  | inl e => inl e
  | inr os' => inr (tasks', os')
  end.

(** The body of the [while (line = file.gets)] loop of
    [TaskSet#initialize]. *)
Definition load_line (line : list ascii)
    (st : list (list ascii * Task) * observers)
  : ruby_error + (list (list ascii * Task) * observers) :=
  let tokens := split "|" (chomp line) in
  match CreateTaskTime (tokens !! 2%nat) with
  | inl e => inl e
  | inr cur =>
      match CreateTaskTime (tokens !! 3%nat) with
      | inl e => inl e
      | inr goal =>
          match tokens !! 0%nat, tokens !! 1%nat with
          | Some k, Some tname => add_task k tname goal cur st
          | _, _ => inl NoMethodError
          end
      end
  end.

Fixpoint load_lines (lines : list (list ascii))
    (st : list (list ascii * Task) * observers)
  : ruby_error + (list (list ascii * Task) * observers) :=
  match lines with
  | [] => inr st
  | line :: rest =>
      match load_line line st with
      | inl e => inl e
      | inr st' => load_lines rest st'
      end
  end.

(** [TaskSet#initialize(keystroke_subject, filename, box)] on the
    contents of the file. *)
Definition TaskSet_new (os : observers) (file : list ascii)
  : ruby_error + (TaskSet * observers) :=
  match gets_all file with
  | [] => inl NoMethodError
  | first :: rest =>
      match load_lines rest ([], os) with
      | inl e => inl e
      | inr (ts, os') =>
          inr ({| description := chomp first; tasks := ts |}, os')
      end
  end.

(** [TaskSet#to_s]. *)
Definition TaskSet_to_s (now : Z) (s : TaskSet) : list ascii :=
  description s ++ newline ::
  concat (map (fun kt => Task_to_s now (snd kt)) (tasks s)).

(** [IO#puts]: a newline is added unless the text ends with one. *)
Definition puts (s : list ascii) : list ascii :=
  match last s with
  | Some c => if (c =? newline)%char then s else s ++ [newline]
  | None => [newline]
  end.

(** [Saver#handle_keystroke]: what the task file holds afterwards. *)
Definition save (now : Z) (s : TaskSet) : list ascii :=
  puts (TaskSet_to_s now s).

(** The keystroke subject when [main] builds the task set: [Quitter.new]
    has bound [?q]. *)
Definition observers_at_load : observers := {[ Some "q"%char := ObsQuitter ]}.

(** [load (save s)]: the file a save leaves, read by a later run. *)
Definition load (file : list ascii) : ruby_error + (TaskSet * observers) :=
  TaskSet_new observers_at_load file.

(** Rounding a task time down to whole minutes, stopped. *)
Definition whole_minutes (tt : TaskTime) : TaskTime :=
  {| seconds := 60 * (seconds tt / 60); start_time := None |}.

Definition task_whole_minutes (t : Task) : Task :=
  {| key := key t; taskname := taskname t;
     goaltime := whole_minutes (goaltime t);
     curtime := whole_minutes (curtime t) |}.

(** A string that can stand in a field of a task line. *)
Definition field_ok (s : list ascii) : bool :=
  forallb (fun c => negb (c =? "|")%char && negb (c =? newline)%char) s.

(** The first characters of the Hash keys: the keystrokes of the
    tasks. *)
Definition heads (ts : list (list ascii * Task)) : list (option ascii) :=
  map (fun kt => hd_error (fst kt)) ts.

(** An entry of [@tasks] as [add_task] stores it: the Hash key is the
    [key] of the task, and key and name are fields of a task line. *)
Definition entry_ok (kt : list ascii * Task) : Prop :=
  fst kt = key (snd kt) /\
  field_ok (key (snd kt)) = true /\ field_ok (taskname (snd kt)) = true.

Definition entry_stopped (kt : list ascii * Task) : Prop :=
  start_time (curtime (snd kt)) = None /\
  start_time (goaltime (snd kt)) = None.

Definition entry_whole_minutes (kt : list ascii * Task)
  : list ascii * Task :=
  (fst kt, task_whole_minutes (snd kt)).

(** What every task set that was loaded satisfies, whatever its timers
    did since: the description is one line, the entries are as [add_task]
    stores them, and the keystrokes of the tasks differ from each other
    and from [q]. *)
Definition task_set_ok (s : TaskSet) : Prop :=
  forallb (fun c => negb (c =? newline)%char) (description s) = true /\
  Forall entry_ok (tasks s) /\
  NoDup (heads (tasks s)) /\
  ~ In (Some "q"%char) (heads (tasks s)).

(** No timer of the set is running. *)
Definition all_stopped (s : TaskSet) : Prop :=
  Forall entry_stopped (tasks s).

(** A string without a newline. *)
Definition no_newline (s : list ascii) : Prop :=
  forall x, In x s -> x <> newline.

(** What holds, while a file is loaded, of the tasks read so far and of
    the bound keys. *)
Definition loading_inv (st : list (list ascii * Task) * observers) : Prop :=
  Forall entry_ok (fst st) /\ Forall entry_stopped (fst st) /\
  NoDup (heads (fst st)) /\
  (forall h, In h (heads (fst st)) -> is_Some (snd st !! h)) /\
  is_Some (snd st !! Some "q"%char) /\
  ~ In (Some "q"%char) (heads (fst st)).

(** The line of a task without its newline. *)
Definition task_body (now : Z) (t : Task) : list ascii :=
  key t ++ "|"%char :: taskname t ++ "|"%char ::
  TaskTime_to_s now (curtime t) ++ "|"%char ::
  TaskTime_to_s now (goaltime t).

(** Reading one more digit, and the characters of a printed number. *)
Definition step (a : Z) (c : ascii) : Z := a * 10 + digit_value c.

Definition sign_or_digit (c : ascii) : bool := isdigit c || (c =? "-")%char.

(** A task file and the set it holds. *)
Definition sample_task_file : list ascii :=
  text_lines ["My tasks"; "a|write|00:05|01:00"; "b|read|01:30|02:00"]%string.

Definition sample_task_set : TaskSet :=
  {| description := txt "My tasks";
     tasks :=
       [ (txt "a", {| key := txt "a"; taskname := txt "write";
                      goaltime := {| seconds := 3600; start_time := None |};
                      curtime := {| seconds := 330; start_time := None |} |});
         (txt "b", {| key := txt "b"; taskname := txt "read";
                      goaltime := {| seconds := 7200; start_time := None |};
                      curtime := {| seconds := 5400; start_time := None |} |})
       ] |}.

Definition sample_task_set_reloaded : TaskSet :=
  {| description := txt "My tasks";
     tasks :=
       [ (txt "a", {| key := txt "a"; taskname := txt "write";
                      goaltime := {| seconds := 3600; start_time := None |};
                      curtime := {| seconds := 300; start_time := None |} |});
         (txt "b", {| key := txt "b"; taskname := txt "read";
                      goaltime := {| seconds := 7200; start_time := None |};
                      curtime := {| seconds := 5400; start_time := None |} |})
       ] |}.

End Ruby.

(** ** The C program: more of the loader's input language *)

(** In a line, a newline can only be the last character. *)
Definition newline_only_last (l : list ascii) : Prop :=
  forall l1 l2, l = l1 ++ newline :: l2 -> l2 = [].





(** A line that neither fails nor is refused: [parse_timetracker] returns
    0 or 1 for it. *)
Definition line_passes (buf : list ascii) : bool :=
  0 <=? fst (parse_timetracker buf zeroed_timetracker).

(** ** The C program: drawing and keys *)

(** [enum tt_color_name]. *)
Inductive tt_color_name : Type :=
| TT_COLOR_NORMAL
| TT_COLOR_RUNNING
| TT_COLOR_DONE.

(** What one call of [mvaddstr_printf] in [draw_timetrackers] is given:
    the screen line, the arguments of the format, and the colour pair
    that is switched on around it when colours are in use. *)
Record row : Type := mk_row {
  row_line_no : Z;
  row_item_no : Z;
  row_min : Z;
  row_sec : Z;
  row_name : list ascii;
  row_color : tt_color_name
}.

(** One pass of the loop of [draw_timetrackers] over the element at
    position [idx]: the row it draws and the element as it leaves it.
    The colour is chosen after the expiry branch has run. *)
Definition drawn_timer (cur_time : Z) (off_time : nat -> Z) (idx : nat)
    (t : timetracker) : timetracker :=
  snd (observe cur_time (off_time idx) t).

Definition drawn_row (cur_time : Z) (off_time : nat -> Z)
    (item_no line_no : Z) (idx : nat) (t : timetracker) : row :=
  let rem := fst (observe cur_time (off_time idx) t) in
  let t' := drawn_timer cur_time off_time idx t in
  {| row_line_no := line_no; row_item_no := item_no;
     row_min := fst (row_min_sec rem); row_sec := snd (row_min_sec rem);
     row_name := name t';
     row_color := if is_running t' then TT_COLOR_RUNNING
                  else TT_COLOR_NORMAL |}.

(** The loop [for (; timetracker->name[0]; timetracker++)] of
    [draw_timetrackers], from the element at position [idx] on.
    [cur_time] is the clock as read at the top of the function;
    [off_time idx] is what [timetracker_off] reads when the expiry branch
    calls it for the element at [idx].  [item_no] and [line_no] are
    [int]s.  The C loop relies on the element with the empty name to
    stop; on an array without one it would run past the end, where the
    list here just ends. *)
Fixpoint draw_loop (cur_time : Z) (off_time : nat -> Z) (idx : nat)
    (item_no line_no : Z) (arr : list timetracker)
  : list row * list timetracker :=
  match arr with
  | [] => ([], [])
  | t :: rest =>
      match name t with
      | [] => ([], arr)
      | _ :: _ =>
          let '(rows, rest') :=
            draw_loop cur_time off_time (S idx) (wrap_int (item_no + 1))
              (wrap_int (line_no + 2)) rest in
          (drawn_row cur_time off_time item_no line_no idx t :: rows,
           drawn_timer cur_time off_time idx t :: rest')
      end
  end.

(** [draw_timetrackers]: [item_no = 1], [line_no = 2] at the start. *)
Definition draw_timetrackers (cur_time : Z) (off_time : nat -> Z)
    (arr : list timetracker) : list row * list timetracker :=
  draw_loop cur_time off_time 0 1 2 arr.

(** What the loop of [main] does with the key [k] that [getch] returned:
    [exit(0)] for [q], a toggle for a digit that names a loaded timer,
    nothing otherwise.  The codes are those of ['q'], ['1'] and ['9']. *)
Inductive key_outcome : Type :=
| KeyExit
| KeyContinue (timetrackers : list timetracker).

Definition handle_key (k cur_time : Z) (timetrackers : list timetracker)
    (num_timetrackers : Z) : key_outcome :=
  if k =? 113 then KeyExit
  else if (49 <=? k) && (k <=? 57) then
    let n := k - 49 in
    if n <? num_timetrackers then
      let i := Z.to_nat n in
      KeyContinue
        (<[i := toggle cur_time (nth i timetrackers zeroed_timetracker)]>
           timetrackers)
    else KeyContinue timetrackers
  else KeyContinue timetrackers.

(** An array as the loader leaves it and the program keeps it: [n] named
    timers and the element with the empty name behind them. *)
Definition shows (n : nat) (arr : list timetracker) : Prop :=
  Forall (fun t => name t <> []) (take n arr) /\
  exists t, arr !! n = Some t /\ name t = [].

(** The rows and the elements that the passes over a run of named timers
    give, the first of them at position [idx]: rows are numbered from 1
    and drawn on every second screen line from line 2. *)
Fixpoint drawn_rows (cur_time : Z) (off_time : nat -> Z) (idx : nat)
    (ts : list timetracker) : list row :=
  match ts with
  | [] => []
  | t :: ts' =>
      drawn_row cur_time off_time (1 + Z.of_nat idx) (2 + 2 * Z.of_nat idx)
        idx t
      :: drawn_rows cur_time off_time (S idx) ts'
  end.

Fixpoint drawn_timers (cur_time : Z) (off_time : nat -> Z) (idx : nat)
    (ts : list timetracker) : list timetracker :=
  match ts with
  | [] => []
  | t :: ts' =>
      drawn_timer cur_time off_time idx t
      :: drawn_timers cur_time off_time (S idx) ts'
  end.

(** ** The Ruby script while it runs *)

Module RubyRun.
Import Ruby.

(** A task time as a save at [now] writes it and a load reads it back:
    what is on its clock at [now], cut to whole minutes, stopped. *)
Definition minutes_at (now : Z) (tt : TaskTime) : TaskTime :=
  {| seconds := 60 * (get_seconds now tt / 60); start_time := None |}.

Definition entry_minutes_at (now : Z) (kt : list ascii * Task)
  : list ascii * Task :=
  (fst kt, {| key := key (snd kt); taskname := taskname (snd kt);
              goaltime := minutes_at now (goaltime (snd kt));
              curtime := minutes_at now (curtime (snd kt)) |}).

(** The state of a run: the task set, the keys bound in the
    [KeystrokeSubject], and the keys of [@@running_tasks] of the
    [TaskUpdater].  The values of [@@running_tasks] are the task objects
    themselves, which are the objects in [@tasks] under the same keys. *)
Record session : Type := mk_session {
  task_set : TaskSet;
  bound : observers;
  running_tasks : gset (list ascii)
}.

(** The start of the main program: [Quitter.new], [TaskSet.new],
    [Saver.new], [Zeroer.new], each binding its key. *)
Definition start (file : list ascii) : ruby_error + session :=
  match load file with
  | inl e => inl e
  | inr (ts, os) =>
      match add_obs (Some "s"%char) ObsSaver os with
      | inl e => inl e
      | inr os1 =>
          match add_obs (Some "z"%char) ObsZeroer os1 with
          | inl e => inl e
          | inr os2 =>
              inr {| task_set := ts; bound := os2; running_tasks := ∅ |}
          end
      end
  end.

(** A method run on the task object stored under the key [k]. *)
Definition on_task (k : list ascii) (f : Task -> Task)
    (ts : list (list ascii * Task)) : list (list ascii * Task) :=
  map (fun kt => if decide (fst kt = k) then (fst kt, f (snd kt)) else kt) ts.

(** [Task#start_timer] and [Task#end_timer]. *)
Definition task_start_timer (now : Z) (t : Task) : Task :=
  {| key := key t; taskname := taskname t; goaltime := goaltime t;
     curtime := start_timer now (curtime t) |}.

Definition task_end_timer (now : Z) (t : Task) : Task :=
  {| key := key t; taskname := taskname t; goaltime := goaltime t;
     curtime := end_timer now (curtime t) |}.

(** [Task#handle_keystroke] with [TaskUpdater#has_task], [#stop_task] and
    [#add_task]: a task that is registered as running is ended and taken
    out of the registry, any other is registered and started. *)
Definition handle_keystroke (now : Z) (k : list ascii) (s : session)
  : session :=
  if decide (k ∈ running_tasks s) then
    {| task_set :=
         {| description := description (task_set s);
            tasks := on_task k (task_end_timer now) (tasks (task_set s)) |};
       bound := bound s;
       running_tasks := running_tasks s ∖ {[ k ]} |}
  else
    {| task_set :=
         {| description := description (task_set s);
            tasks := on_task k (task_start_timer now) (tasks (task_set s)) |};
       bound := bound s;
       running_tasks := {[ k ]} ∪ running_tasks s |}.

(** [Zeroer#handle_keystroke]: [zero_timer] on every task.  The registry
    of running tasks is not touched. *)
Definition zero_all (now : Z) (s : session) : session :=
  {| task_set :=
       {| description := description (task_set s);
          tasks := map (fun kt => (fst kt, zero_timer now (snd kt)))
                       (tasks (task_set s)) |};
     bound := bound s;
     running_tasks := running_tasks s |}.

(** What a keystroke leads to: the end of the run, or the next state
    and, after [s], the new contents of the task file. *)
Inductive key_result : Type :=
| RunEnds
| GoesOn (s : session) (written : option (list ascii)).

(** [KeystrokeSubject#send_key]; [ch] is what [getch] returned and [now]
    the clock during the handler. *)
Definition send_key (now : Z) (ch : option ascii) (s : session)
  : key_result :=
  match bound s !! ch with
  | None => GoesOn s None
  | Some ObsQuitter => RunEnds
  | Some ObsSaver => GoesOn s (Some (save now (task_set s)))
  | Some ObsZeroer => GoesOn (zero_all now s) None
  | Some (ObsTask t) => GoesOn (handle_keystroke now (key t) s) None
  end.

(** The session after a keystroke that does not end the run. *)
Definition after_key (r : key_result) (s0 : session) : session :=
  match r with
  | RunEnds => s0
  | GoesOn s _ => s
  end.

(** Adding [d] seconds to the clock of a stopped task. *)
Definition add_seconds (d : Z) (t : Task) : Task :=
  {| key := key t; taskname := taskname t; goaltime := goaltime t;
     curtime := {| seconds := seconds (curtime t) + d;
                   start_time := None |} |}.

(** The main loop: each turn reads a key and sends it, with the clock at
    [now] while it is handled; the run ends when [Quitter] throws. *)
Fixpoint run (keys : list (Z * option ascii)) (s : session) : session :=
  match keys with
  | [] => s
  | (now, ch) :: rest =>
      match send_key now ch s with
      | RunEnds => s
      | GoesOn s' _ => run rest s'
      end
  end.

(** What a task is to its user apart from its clock. *)
Definition identity (kt : list ascii * Task)
  : list ascii * list ascii * list ascii * TaskTime :=
  (fst kt, key (snd kt), taskname (snd kt), goaltime (snd kt)).

(** The keys bound while a file is loaded: [q] to the quitter, the first
    character of each key read so far to its task, and nothing else. *)
Definition binding_inv (st : list (list ascii * Task) * observers) : Prop :=
  snd st !! Some "q"%char = Some ObsQuitter /\
  (forall kt, In kt (fst st) ->
     exists u, snd st !! hd_error (fst kt) = Some (ObsTask u) /\
               key u = fst kt) /\
  (forall h, is_Some (snd st !! h) ->
     h = Some "q"%char \/ In h (heads (fst st))).

(** What holds of a session from its start on. *)
Definition session_ok (s : session) : Prop :=
  task_set_ok (task_set s) /\
  ~ In (Some "s"%char) (heads (tasks (task_set s))) /\
  ~ In (Some "z"%char) (heads (tasks (task_set s))) /\
  bound s !! Some "q"%char = Some ObsQuitter /\
  bound s !! Some "s"%char = Some ObsSaver /\
  bound s !! Some "z"%char = Some ObsZeroer /\
  (forall kt, In kt (tasks (task_set s)) ->
     exists u, bound s !! hd_error (fst kt) = Some (ObsTask u) /\
               key u = fst kt) /\
  (forall h, is_Some (bound s !! h) ->
     h = Some "q"%char \/ h = Some "s"%char \/ h = Some "z"%char \/
     In h (heads (tasks (task_set s)))) /\
  Forall (fun kt => start_time (goaltime (snd kt)) = None)
         (tasks (task_set s)) /\
  Forall (fun kt => start_time (curtime (snd kt)) <> None ->
                    fst kt ∈ running_tasks s)
         (tasks (task_set s)).


(** A task set with a running timer, and task files. *)
Definition sample_running_set : TaskSet :=
  {| description := txt "My tasks";
     tasks :=
       [ (txt "a", {| key := txt "a"; taskname := txt "write";
                      goaltime := {| seconds := 3600; start_time := None |};
                      curtime := {| seconds := 330;
                                    start_time := Some 100 |} |});
         (txt "b", {| key := txt "b"; taskname := txt "read";
                      goaltime := {| seconds := 7200; start_time := None |};
                      curtime := {| seconds := 5400; start_time := None |} |})
       ] |}.


Definition sleep_task_file : list ascii :=
  text_lines ["My tasks"; "a|write|00:05|01:00"; "s|sleep|00:00|08:00"]%string.

Definition gap_task_file : list ascii :=
  text_lines ["My tasks"; "a|write|00:05|01:00"; ""; "b|read|01:30|02:00"]%string.

End RubyRun.
(** ** Lemmas: the C program *)

(** *** Machine integers and the invariant *)

Lemma wrap_signed_id bits z :
  0 < bits -> - 2 ^ (bits - 1) <= z <= 2 ^ (bits - 1) - 1 ->
  wrap_signed bits z = z.
Proof.
  intros Hb Hz. unfold wrap_signed.
  assert (H2 : 2 ^ bits = 2 * 2 ^ (bits - 1)).
  { replace bits with (Z.succ (bits - 1)) at 1 by lia.
    rewrite Z.pow_succ_r by lia. reflexivity. }
  rewrite Z.mod_small by lia. lia.
Qed.

Lemma wrap_time_id z : in_time z -> wrap_time z = z.
Proof.
  intros H. apply wrap_signed_id; [lia|].
  unfold in_time, TIME_MIN, TIME_MAX in H. simpl Z.sub. lia.
Qed.

Lemma wrap_int_id z : in_int z -> wrap_int z = z.
Proof.
  intros H. apply wrap_signed_id; [lia|].
  unfold in_int, INT_MIN, INT_MAX in H. simpl Z.sub. lia.
Qed.

(** Adding back what was subtracted: the reduction is modular. *)
Lemma wrap_time_add_sub a b :
  in_time a -> wrap_time (b + wrap_time (a - b)) = a.
Proof.
  intros Ha. unfold wrap_time, wrap_signed.
  change (2 ^ (64 - 1)) with (2 ^ 63).
  replace (b + ((a - b + 2 ^ 63) mod 2 ^ 64 - 2 ^ 63) + 2 ^ 63)
    with (b + (a - b + 2 ^ 63) mod 2 ^ 64) by lia.
  rewrite Zplus_mod_idemp_r.
  replace (b + (a - b + 2 ^ 63)) with (a + 2 ^ 63) by lia.
  unfold in_time, TIME_MIN, TIME_MAX in Ha.
  rewrite Z.mod_small; lia.
Qed.

Lemma is_running_false t : is_running t = false <-> running t = 0.
Proof.
  unfold is_running. destruct (Z.eqb_spec (running t) 0); simpl; split;
    congruence.
Qed.

Lemma is_running_true t : is_running t = true <-> running t <> 0.
Proof.
  unfold is_running. destruct (Z.eqb_spec (running t) 0); simpl; split;
    congruence.
Qed.

Lemma timetracker_off_stopped now t :
  is_running (timetracker_off now t) = false.
Proof.
  unfold timetracker_off.
  destruct (is_running t) eqn:E; simpl; [|exact E].
  destruct (finish_time t <=? now); reflexivity.
Qed.

Lemma tt_inv_zeroed : tt_inv zeroed_timetracker.
Proof. split; intros; reflexivity || discriminate. Qed.

Lemma tt_inv_off now t : tt_inv t -> tt_inv (timetracker_off now t).
Proof.
  intros Hinv. unfold timetracker_off.
  destruct (is_running t) eqn:E; simpl; [|exact Hinv].
  destruct (finish_time t <=? now); split; simpl; intros;
    reflexivity || discriminate.
Qed.

Lemma tt_inv_on now t : tt_inv t -> tt_inv (timetracker_on now t).
Proof.
  intros Hinv. unfold timetracker_on.
  destruct (is_running t) eqn:E; simpl; [exact Hinv|].
  split; simpl; intros; reflexivity || discriminate.
Qed.

(** *** Starting, stopping, toggling *)

Lemma toggle_running now t :
  is_running t = true -> toggle now t = timetracker_off now t.
Proof. intros H. unfold toggle. rewrite H. reflexivity. Qed.

Lemma toggle_stopped now t :
  is_running t = false -> toggle now t = timetracker_on now t.
Proof. intros H. unfold toggle. rewrite H. reflexivity. Qed.

Lemma timetracker_on_running now t : is_running (timetracker_on now t) = true.
Proof.
  unfold timetracker_on. destruct (is_running t) eqn:E; [exact E|reflexivity].
Qed.

(** Starting and stopping within one second. *)
Lemma on_then_off_same_second (now : Z) (t : timetracker) :
  tt_typed t -> in_time now ->
  is_running t = false ->
  0 <= remaining_seconds t ->
  now + remaining_seconds t <= TIME_MAX ->
  is_running (timetracker_off now (timetracker_on now t)) = false /\
  remaining_seconds (timetracker_off now (timetracker_on now t)) =
    remaining_seconds t /\
  finish_time (timetracker_off now (timetracker_on now t)) = 0.
Proof.
  intros (_ & Hrem & _) Hnow Hstop Hpos Hfit.
  split; [apply timetracker_off_stopped|].
  unfold timetracker_on. rewrite Hstop.
  unfold timetracker_off. cbn [is_running running negb Z.eqb finish_time].
  assert (Hsum : in_time (now + remaining_seconds t)).
  { unfold in_time in *. lia. }
  rewrite (wrap_time_id _ Hsum).
  destruct (Z.leb_spec (now + remaining_seconds t) now) as [Hle|Hgt];
    cbn [remaining_seconds finish_time].
  - split; [lia | reflexivity].
  - replace (now + remaining_seconds t - now) with (remaining_seconds t)
      by lia.
    split; [apply wrap_time_id; exact Hrem | reflexivity].
Qed.

(** *** Lines of a file *)

Lemma fgets_chars_app room f l r :
  fgets_chars room f = (l, r) -> f = l ++ r.
Proof.
  revert f l r. induction room as [|room IH]; intros f l r H.
  - destruct f; inversion H; reflexivity.
  - destruct f as [|c f']; simpl in H; [inversion H; reflexivity|].
    destruct (c =? newline)%char.
    + inversion H; reflexivity.
    + destruct (fgets_chars room f') as [l' r'] eqn:E.
      inversion H; subst. simpl. f_equal. apply IH; assumption.
Qed.

Lemma fgets_chars_nonempty room c f l r :
  fgets_chars (S room) (c :: f) = (l, r) -> l <> [].
Proof.
  simpl. destruct (c =? newline)%char.
  - intros H; inversion H; discriminate.
  - destruct (fgets_chars room f); intros H; inversion H; discriminate.
Qed.

Lemma fgets_some_gen size f l r :
  fgets (S (S size)) f = Some (l, r) ->
  f = l ++ r /\ l <> [] /\ (length r < length f)%nat.
Proof.
  unfold fgets. destruct f as [|c f']; [discriminate|].
  replace (S (S size) - 1)%nat with (S size) by lia.
  intros H.
  assert (H' : fgets_chars (S size) (c :: f') = (l, r)) by congruence.
  pose proof (fgets_chars_app _ _ _ _ H') as Happ.
  pose proof (fgets_chars_nonempty _ _ _ _ _ H') as Hne.
  split; [exact Happ|]. split; [exact Hne|].
  rewrite Happ, length_app. destruct l; [congruence|]. simpl. lia.
Qed.

Lemma fgets_some f l r :
  fgets LINE_SZ f = Some (l, r) ->
  f = l ++ r /\ l <> [] /\ (length r < length f)%nat.
Proof. apply (fgets_some_gen 158). Qed.

Lemma fgets_all_fuel fuel1 fuel2 f :
  (length f <= fuel1)%nat -> (length f <= fuel2)%nat ->
  fgets_all fuel1 f = fgets_all fuel2 f.
Proof.
  revert fuel2 f. induction fuel1 as [|k IH]; intros fuel2 f H1 H2.
  - destruct f; [|simpl in H1; lia]. destruct fuel2; reflexivity.
  - destruct fuel2 as [|k2].
    + destruct f; [reflexivity | simpl in H2; lia].
    + simpl. destruct (fgets LINE_SZ f) as [[l r]|] eqn:E; [|reflexivity].
      apply fgets_some in E as (_ & _ & Hlt).
      f_equal. apply IH; lia.
Qed.

(** [file_lines] is the sequence of the successive [fgets] results. *)
Lemma file_lines_step f :
  file_lines f =
  match fgets LINE_SZ f with
  | None => []
  | Some (l, r) => l :: file_lines r
  end.
Proof.
  unfold file_lines. destruct f as [|c f']; [reflexivity|].
  change (fgets_all (length (c :: f')) (c :: f'))
    with (match fgets LINE_SZ (c :: f') with
          | None => []
          | Some (l, r) => l :: fgets_all (length f') r
          end).
  destruct (fgets LINE_SZ (c :: f')) as [[l r]|] eqn:E; [|reflexivity].
  apply fgets_some in E as (_ & _ & Hlt). simpl in Hlt.
  f_equal. apply fgets_all_fuel; lia.
Qed.

(** Nothing of the file is lost or invented by the line reader. *)
Lemma file_lines_concat f : concat (file_lines f) = f.
Proof.
  remember (length f) as n eqn:Hn.
  revert f Hn. induction n as [n IH] using lt_wf_ind. intros f Hn.
  rewrite file_lines_step.
  destruct (fgets LINE_SZ f) as [[l r]|] eqn:E.
  - apply fgets_some in E as (Happ & _ & Hlt).
    simpl. rewrite (IH (length r)); [symmetry; exact Happ | lia | reflexivity].
  - unfold fgets in E. destruct f; [reflexivity | discriminate].
Qed.

(** *** [parse_timetracker] *)

Lemma parse_timetracker_out buf slot :
  fst (parse_timetracker buf slot) = 0 \/
  fst (parse_timetracker buf slot) = 1 \/
  fst (parse_timetracker buf slot) = -1000.
Proof.
  unfold parse_timetracker.
  destruct (starts_with_hash (c_str buf)); [left; reflexivity|].
  destruct (Z.of_nat (length (c_str buf)) <? 1); [left; reflexivity|].
  destruct (sscanf_name_eq_int _); simpl; auto.
Qed.

(** A line that creates a timer writes every field of the element, so
    what was there before does not matter. *)
Lemma parse_timetracker_created buf slot out t :
  parse_timetracker buf slot = (out, t) -> 0 < out ->
  out = 1 /\ created_timer buf = Some t /\
  running t = 0 /\ finish_time t = 0 /\ name t <> [].
Proof.
  unfold created_timer, parse_timetracker.
  destruct (starts_with_hash (c_str buf)); [intros H; inversion H; lia|].
  destruct (Z.of_nat (length (c_str buf)) <? 1); [intros H; inversion H; lia|].
  destruct (sscanf_name_eq_int _) as [| |nm|nm n] eqn:E;
    intros H Hpos; inversion H; subst; try lia.
  simpl. repeat split; try reflexivity.
  unfold sscanf_name_eq_int in E.
  destruct (trim_newline (c_str buf)) as [|c l]; [discriminate|].
  destruct (scan_not_eq 80 (c :: l)) as [m r1].
  destruct m; [discriminate|].
  destruct r1 as [|c1 r2]; [discriminate|].
  destruct (c1 =? "=")%char; [|discriminate].
  destruct (scan_d r2) as [[n' r3]|]; inversion E. discriminate.
Qed.

Lemma parse_timetracker_not_created buf slot out t :
  parse_timetracker buf slot = (out, t) -> out <= 0 ->
  created_timer buf = None.
Proof.
  unfold created_timer, parse_timetracker.
  destruct (starts_with_hash (c_str buf)); [reflexivity|].
  destruct (Z.of_nat (length (c_str buf)) <? 1); [reflexivity|].
  destruct (sscanf_name_eq_int _) as [| |nm|nm n] eqn:E;
    intros H Hpos; inversion H; subst; try reflexivity.
  lia.
Qed.

Lemma parse_timetracker_skip buf slot out t :
  parse_timetracker buf slot = (out, t) -> out = 0 -> t = slot.
Proof.
  unfold parse_timetracker.
  destruct (starts_with_hash (c_str buf)); [intros H; inversion H; auto|].
  destruct (Z.of_nat (length (c_str buf)) <? 1); [intros H; inversion H; auto|].
  destruct (sscanf_name_eq_int _); intros H H0; inversion H; subst; lia.
Qed.

(** *** The reading loop *)

Lemma created_cons buf rest :
  omap created_timer (buf :: rest) =
  match created_timer buf with
  | Some t => t :: omap created_timer rest
  | None => omap created_timer rest
  end.
Proof. reflexivity. Qed.

Lemma read_lines_ok cap lines : forall k line_no ret ret' n,
  length ret = (cap + 1)%nat ->
  (k <= cap)%nat ->
  read_lines cap lines (Z.of_nat k) line_no ret = inr (ret', n) ->
  n = Z.of_nat (k + length (omap created_timer lines)) /\
  (0 < Z.to_nat n <= cap)%nat /\
  length ret' = (cap + 1)%nat /\
  take (Z.to_nat n) ret' = take k ret ++ omap created_timer lines.
Proof.
  induction lines as [|buf rest IH]; intros k line_no ret ret' n Hlen Hk H.
  - simpl in H. destruct (Z.eqb_spec (Z.of_nat k) 0) as [E|E]; [discriminate|].
    inversion H; subst ret' n. clear H. simpl.
    rewrite Nat.add_0_r, Nat2Z.id, app_nil_r.
    split; [reflexivity|]. split; [lia|].
    split; [rewrite length_insert; exact Hlen|].
    apply take_insert_ge. lia.
  - simpl in H.
    destruct (Z.leb_spec (Z.of_nat cap) (Z.of_nat k)) as [E|E]; [discriminate|].
    rewrite Nat2Z.id in H.
    destruct (parse_timetracker buf (nth k ret zeroed_timetracker))
      as [out slot] eqn:P.
    destruct (Z.ltb_spec out 0) as [Hneg|Hneg]; [discriminate|].
    destruct (Z.ltb_spec 0 out) as [Hpos|Hpos].
    + destruct (parse_timetracker_created _ _ _ _ P Hpos) as (-> & Hc & _).
      replace (Z.of_nat k + 1) with (Z.of_nat (S k)) in H by lia.
      apply IH in H; [|rewrite length_insert; exact Hlen | lia].
      destruct H as (Hn & Hr & Hl & Ht).
      rewrite created_cons, Hc. simpl length.
      split; [lia|].
      split; [exact Hr|]. split; [exact Hl|].
      rewrite Ht. rewrite (take_S_r _ _ slot).
      * rewrite take_insert_ge by lia. rewrite <- app_assoc. reflexivity.
      * apply list_lookup_insert_eq. lia.
    + assert (out = 0) as -> by lia.
      pose proof (parse_timetracker_skip _ _ _ _ P eq_refl) as ->.
      pose proof (parse_timetracker_not_created _ _ _ _ P Hpos) as Hc.
      apply IH in H; [|rewrite length_insert; exact Hlen | lia].
      destruct H as (Hn & Hr & Hl & Ht).
      rewrite created_cons, Hc.
      split; [exact Hn|]. split; [exact Hr|]. split; [exact Hl|].
      rewrite Ht. f_equal. apply take_insert_ge. lia.
Qed.

(** Once the capacity is reached every further line ends the load. *)
Lemma read_lines_full cap buf rest num_tt line_no ret :
  Z.of_nat cap <= num_tt ->
  read_lines cap (buf :: rest) num_tt line_no ret = inl OffByOneError.
Proof.
  intros H. simpl. destruct (Z.leb_spec (Z.of_nat cap) num_tt); [reflexivity|lia].
Qed.

Lemma read_lines_app_full cap pre : forall post k line_no ret,
  (k <= cap)%nat ->
  (k + length (omap created_timer pre))%nat = cap ->
  post <> [] ->
  exists e, read_lines cap (pre ++ post) (Z.of_nat k) line_no ret = inl e.
Proof.
  induction pre as [|buf rest IH]; intros post k line_no ret Hk Hc Hpost.
  - simpl in Hc. rewrite Nat.add_0_r in Hc. subst k.
    destruct post as [|b p]; [congruence|].
    exists OffByOneError. apply read_lines_full. lia.
  - simpl app. simpl read_lines.
    destruct (Z.leb_spec (Z.of_nat cap) (Z.of_nat k)) as [E|E]; [eauto|].
    rewrite Nat2Z.id.
    destruct (parse_timetracker buf (nth k ret zeroed_timetracker))
      as [out slot] eqn:P.
    destruct (Z.ltb_spec out 0) as [Hneg|Hneg]; [eauto|].
    destruct (Z.ltb_spec 0 out) as [Hpos|Hpos].
    + destruct (parse_timetracker_created _ _ _ _ P Hpos) as (-> & Hcr & _).
      rewrite created_cons, Hcr in Hc. simpl length in Hc.
      replace (Z.of_nat k + 1) with (Z.of_nat (S k)) by lia.
      apply IH; [lia | lia | exact Hpost].
    + pose proof (parse_timetracker_not_created _ _ _ _ P Hpos) as Hcr.
      rewrite created_cons, Hcr in Hc.
      apply IH; [lia | lia | exact Hpost].
Qed.

(** *** Lines of the shape [<name>=<N>M] *)

Lemma c_str_id l :
  forallb (fun c => negb (c =? NUL)%char) l = true -> c_str l = l.
Proof.
  induction l as [|c l IH]; simpl; [reflexivity|].
  intros H. apply andb_prop in H as [Hc Hl].
  destruct (c =? NUL)%char; [discriminate|]. f_equal. auto.
Qed.

Lemma isdigit_not c d : isdigit c = true -> isdigit d = false ->
  (c =? d)%char = false.
Proof.
  intros Hc Hd. destruct (Ascii.eqb_spec c d); [congruence|reflexivity].
Qed.

Lemma isdigit_not_space c : isdigit c = true -> isspace c = false.
Proof.
  unfold isdigit, isspace. intros H.
  apply andb_prop in H as [H1 H2].
  apply Nat.leb_le in H1. apply Nat.leb_le in H2.
  destruct (Nat.eqb_spec (nat_of_ascii c) 32); [lia|]. simpl.
  destruct (Nat.leb_spec (nat_of_ascii c) 13); [lia|].
  apply andb_false_r.
Qed.

Lemma digit_value_range c : isdigit c = true -> 0 <= digit_value c <= 9.
Proof.
  unfold isdigit, digit_value. intros H.
  apply andb_prop in H as [H1 H2].
  apply Nat.leb_le in H1. apply Nat.leb_le in H2. lia.
Qed.

Lemma scan_digits_app ds : forall acc c rest,
  forallb isdigit ds = true -> isdigit c = false ->
  scan_digits acc (ds ++ c :: rest) =
  (fold_left (fun a c => a * 10 + digit_value c) ds acc, c :: rest).
Proof.
  induction ds as [|d ds IH]; intros acc c rest Hds Hc; simpl.
  - rewrite Hc. reflexivity.
  - simpl in Hds. apply andb_prop in Hds as [Hd Hds].
    rewrite Hd. apply IH; assumption.
Qed.

Lemma fold_digits_nonneg ds : forall acc,
  forallb isdigit ds = true -> 0 <= acc ->
  0 <= fold_left (fun a c => a * 10 + digit_value c) ds acc.
Proof.
  induction ds as [|d ds IH]; intros acc Hds Hacc; simpl; [exact Hacc|].
  simpl in Hds. apply andb_prop in Hds as [Hd Hds].
  apply IH; [exact Hds|]. pose proof (digit_value_range d Hd). lia.
Qed.

Lemma numeral_value_nonneg ds : numeral_ok ds = true -> 0 <= numeral_value ds.
Proof.
  intros H. apply fold_digits_nonneg; [|lia].
  destruct ds; [discriminate | exact H].
Qed.

Lemma store_int_id v : in_int v -> store_int v = v.
Proof.
  intros H. unfold store_int.
  assert (HL : LONG_MIN <= v <= LONG_MAX).
  { unfold in_int, INT_MIN, INT_MAX in H. unfold LONG_MIN, LONG_MAX. lia. }
  rewrite Z.min_r, Z.max_r by lia. apply wrap_int_id. exact H.
Qed.

Lemma scan_d_numeral ds c rest :
  numeral_ok ds = true -> isdigit c = false ->
  scan_d (ds ++ c :: rest) = Some (store_int (numeral_value ds), c :: rest).
Proof.
  intros Hds Hc. destruct ds as [|d ds]; [discriminate|].
  simpl in Hds. pose proof Hds as Hall.
  apply andb_prop in Hds as [Hd Hds].
  unfold scan_d. simpl app. simpl skip_space.
  rewrite (isdigit_not_space d Hd).
  rewrite (isdigit_not d "-" Hd eq_refl), (isdigit_not d "+" Hd eq_refl).
  rewrite Hd.
  change (d :: ds ++ c :: rest) with ((d :: ds) ++ c :: rest).
  rewrite scan_digits_app by assumption. reflexivity.
Qed.

Lemma scan_not_eq_app nm : forall width rest,
  forallb (fun c => negb (c =? "=")%char) nm = true ->
  (length nm <= width)%nat ->
  scan_not_eq width (nm ++ "="%char :: rest) = (nm, "="%char :: rest).
Proof.
  induction nm as [|c nm IH]; intros width rest Hnm Hlen.
  - destruct width; reflexivity.
  - destruct width as [|w]; [simpl in Hlen; lia|].
    simpl in Hnm. apply andb_prop in Hnm as [Hc Hnm].
    simpl. destruct (c =? "=")%char; [discriminate|].
    rewrite IH; [reflexivity | exact Hnm | simpl in Hlen; lia].
Qed.

Lemma sscanf_config_line nm ds :
  name_ok nm = true -> numeral_ok ds = true ->
  sscanf_name_eq_int (config_line nm ds []) =
  ScanNameInt nm (store_int (numeral_value ds)).
Proof.
  intros Hnm Hds. unfold name_ok in Hnm.
  apply andb_prop in Hnm as [Hnm Hlen]. apply andb_prop in Hnm as [Hhd Hall].
  apply Nat.leb_le in Hlen.
  assert (Hne : forallb (fun c => negb (c =? "=")%char) nm = true).
  { clear -Hall. induction nm as [|c nm IH]; [reflexivity|].
    simpl in *. apply andb_prop in Hall as [Hc Hall].
    apply andb_prop in Hc as [Hc _]. rewrite Hc. auto. }
  pose proof (scan_not_eq_app nm 80 (ds ++ ["M"%char]) Hne Hlen) as Hs.
  unfold sscanf_name_eq_int, config_line.
  destruct nm as [|c nm]; [discriminate|].
  cbn [app] in Hs |- *. rewrite Hs.
  rewrite Ascii.eqb_refl.
  rewrite scan_d_numeral by (assumption || reflexivity). reflexivity.
Qed.

Lemma trim_newline_snoc l c :
  trim_newline (l ++ [c]) = if (c =? newline)%char then l else l ++ [c].
Proof.
  unfold trim_newline. rewrite last_snoc.
  destruct (c =? newline)%char; [|reflexivity].
  apply removelast_last.
Qed.

Lemma trim_config_line nm ds eol :
  eol_ok eol = true ->
  trim_newline (config_line nm ds eol) = config_line nm ds [].
Proof.
  intros Heol. unfold config_line.
  destruct eol as [|c [|c' eol]]; [| |discriminate].
  - replace (nm ++ "="%char :: ds ++ ["M"%char])
      with ((nm ++ "="%char :: ds) ++ ["M"%char])
      by (rewrite <- app_assoc; reflexivity).
    rewrite trim_newline_snoc. reflexivity.
  - simpl in Heol.
    replace (nm ++ "="%char :: ds ++ ["M"%char; c])
      with ((nm ++ "="%char :: ds ++ ["M"%char]) ++ [c])
      by (rewrite <- app_assoc; simpl; rewrite <- app_assoc; reflexivity).
    rewrite trim_newline_snoc, Heol. reflexivity.
Qed.

Lemma config_line_no_nul nm ds eol :
  name_ok nm = true -> numeral_ok ds = true -> eol_ok eol = true ->
  forallb (fun c => negb (c =? NUL)%char) (config_line nm ds eol) = true.
Proof.
  intros Hnm Hds Heol. unfold config_line.
  rewrite forallb_app. simpl. rewrite forallb_app. simpl.
  unfold name_ok in Hnm.
  apply andb_prop in Hnm as [Hnm _]. apply andb_prop in Hnm as [_ Hall].
  assert (H1 : forallb (fun c => negb (c =? NUL)%char) nm = true).
  { clear -Hall. induction nm as [|c nm IH]; [reflexivity|].
    simpl in *. apply andb_prop in Hall as [Hc Hall].
    apply andb_prop in Hc as [_ Hc]. rewrite Hc. auto. }
  assert (H2 : forallb (fun c => negb (c =? NUL)%char) ds = true).
  { assert (Hall' : forallb isdigit ds = true)
      by (destruct ds; [discriminate | exact Hds]).
    clear -Hall'. induction ds as [|c ds IH]; [reflexivity|].
    simpl in *. apply andb_prop in Hall' as [Hc Hall'].
    rewrite (isdigit_not c NUL Hc eq_refl). auto. }
  assert (H3 : forallb (fun c => negb (c =? NUL)%char) eol = true).
  { destruct eol as [|c [|c' eol]]; [reflexivity| |discriminate].
    simpl in *. destruct (Ascii.eqb_spec c newline); [subst|discriminate].
    reflexivity. }
  rewrite H1, H2, H3. reflexivity.
Qed.

(** What [parse_timetracker] makes of a line of the valid shape. *)
Lemma parse_config_line nm ds eol slot :
  name_ok nm = true -> numeral_ok ds = true -> eol_ok eol = true ->
  parse_timetracker (config_line nm ds eol) slot =
  (1, {| name := nm; running := 0;
         remaining_seconds := wrap_int (store_int (numeral_value ds) * 60);
         finish_time := 0 |}).
Proof.
  intros Hnm Hds Heol. unfold parse_timetracker.
  rewrite (c_str_id _ (config_line_no_nul nm ds eol Hnm Hds Heol)).
  rewrite trim_config_line by exact Heol.
  rewrite sscanf_config_line by assumption.
  assert (Hhash : starts_with_hash (config_line nm ds eol) = false).
  { unfold name_ok in Hnm. destruct nm as [|c nm]; [discriminate|].
    simpl in *. destruct (c =? "#")%char; [discriminate | reflexivity]. }
  rewrite Hhash.
  assert (Hlen : (Z.of_nat (length (config_line nm ds eol)) <? 1) = false).
  { apply Z.ltb_ge. unfold config_line. destruct nm; [discriminate|].
    simpl. lia. }
  rewrite Hlen. reflexivity.
Qed.

(** *** The loader keeps the invariant *)

Lemma tt_inv_set_name nm t : tt_inv t -> tt_inv (set_name nm t).
Proof. intros H. exact H. Qed.

Lemma tt_inv_nth (ret : list timetracker) i :
  Forall tt_inv ret -> tt_inv (nth i ret zeroed_timetracker).
Proof.
  intros H. destruct (Nat.lt_ge_cases i (length ret)) as [Hi|Hi].
  - apply Forall_nth; assumption.
  - rewrite nth_overflow by exact Hi. apply tt_inv_zeroed.
Qed.

Lemma tt_inv_parse buf slot :
  tt_inv slot -> tt_inv (snd (parse_timetracker buf slot)).
Proof.
  intros H. unfold parse_timetracker.
  destruct (starts_with_hash (c_str buf)); [exact H|].
  destruct (Z.of_nat (length (c_str buf)) <? 1); [exact H|].
  destruct (sscanf_name_eq_int _); simpl; try exact H.
  split; simpl; intros; reflexivity || discriminate.
Qed.

Lemma read_lines_inv cap lines : forall num_tt line_no ret ret' n,
  Forall tt_inv ret ->
  read_lines cap lines num_tt line_no ret = inr (ret', n) ->
  Forall tt_inv ret'.
Proof.
  induction lines as [|buf rest IH]; intros num_tt line_no ret ret' n Hinv H.
  - simpl in H. destruct (num_tt =? 0); [discriminate|].
    inversion H; subst. apply Forall_insert; [exact Hinv|].
    apply tt_inv_set_name, tt_inv_nth, Hinv.
  - simpl in H. destruct (Z.of_nat cap <=? num_tt); [discriminate|].
    pose proof (tt_inv_parse buf (nth (Z.to_nat num_tt) ret zeroed_timetracker)
                  (tt_inv_nth ret _ Hinv)) as Hslot.
    destruct (parse_timetracker buf _) as [out slot]. simpl in Hslot.
    destruct (out <? 0); [discriminate|].
    assert (Hret : Forall tt_inv (<[Z.to_nat num_tt := slot]> ret))
      by (apply Forall_insert; assumption).
    destruct (0 <? out); eapply IH; eassumption.
Qed.

(** *** Comment lines, and the older variant *)

(** The older variant does not scale the number at all. *)
Lemma older_variant_stores_unscaled :
  parse_timetracker_older (txt "A=5M") zeroed_timetracker =
  (1, {| name := txt "A"; running := 0; remaining_seconds := 5;
         finish_time := 0 |}).
Proof. reflexivity. Qed.



(** *** The program at work *)

(** A timer of 300 seconds started at second 1000 and looked at 75
    seconds later shows 3:45 and keeps running. *)
Example start_then_look :
  observe 1075 1075 (timetracker_on 1000 stopped_300) =
    (225, timetracker_on 1000 stopped_300) /\
  row_min_sec 225 = (3, 45).
Proof. split; reflexivity. Qed.

Example load_garbage :
  get_timetrackers (text_lines ["garbage"]%string) =
  inl (FailedToParse 1 (txt "garbage")).
Proof. reflexivity. Qed.

Example load_only_comments :
  get_timetrackers (text_lines ["# only comments"]%string) =
  inl NoTimetrackersFound.
Proof. reflexivity. Qed.

(** The literal [M] does not decide whether a line is accepted, and a
    name may be anything without ['=']. *)
Example load_without_unit :
  created_timer (txt "two words=7") =
  Some {| name := txt "two words"; running := 0; remaining_seconds := 420;
          finish_time := 0 |}.
Proof. reflexivity. Qed.

(** ** Theorems: the config loader *)

(** C1 (as amended).  In a file that loads, a line [<name>=<N>M] whose
    [N * 60] fits an [int] yields a stopped timer with
    [remaining_seconds = N * 60] and [finish_time = 0]; it sits in the
    array at the position counted by the timer lines before it, and the
    loaded set as a whole is the sequence of the timers of the lines, in
    file order. *)
Theorem C1_loaded_timer (cap : nat) (f : list ascii)
    (ret : list timetracker) (n : Z)
    (pre post : list (list ascii)) (nm ds eol : list ascii) :
  get_timetrackers_cap cap f = inr (ret, n) ->
  file_lines f = pre ++ config_line nm ds eol :: post ->
  name_ok nm = true -> numeral_ok ds = true -> eol_ok eol = true ->
  in_int (numeral_value ds * 60) ->
  Z.of_nat (length (omap created_timer pre)) < n /\
  ret !! length (omap created_timer pre) =
    Some {| name := nm; running := 0;
            remaining_seconds := numeral_value ds * 60;
            finish_time := 0 |} /\
  take (Z.to_nat n) ret = omap created_timer (file_lines f).
Proof.
  intros Hload Hlines Hnm Hds Heol Hint.
  unfold get_timetrackers_cap in Hload.
  apply (read_lines_ok cap (file_lines f) 0%nat) in Hload;
    [|rewrite length_replicate; reflexivity | lia].
  destruct Hload as (Hn & Hr & _ & Ht). simpl in Ht, Hn.
  set (t := {| name := nm; running := 0;
               remaining_seconds := numeral_value ds * 60;
               finish_time := 0 |}).
  assert (Hc : created_timer (config_line nm ds eol) = Some t).
  { unfold created_timer. rewrite parse_config_line by assumption.
    simpl. unfold t. do 2 f_equal.
    pose proof (numeral_value_nonneg ds Hds) as H0.
    rewrite store_int_id; [apply wrap_int_id; exact Hint|].
    unfold in_int, INT_MIN, INT_MAX in *. lia. }
  assert (Hom : omap created_timer (file_lines f) =
                omap created_timer pre ++ t :: omap created_timer post).
  { rewrite Hlines, omap_app, created_cons, Hc. reflexivity. }
  assert (Hi : Z.of_nat (length (omap created_timer pre)) < n).
  { rewrite Hn, Hom, length_app. simpl. lia. }
  split; [exact Hi|]. split; [|exact Ht].
  rewrite <- (lookup_take_lt _ (Z.to_nat n)) by lia.
  rewrite Ht, Hom. apply list_lookup_middle. reflexivity.
Qed.

Lemma C1_loaded_timer_witness :
  exists ret,
    get_timetrackers sample_config = inr (ret, 2) /\
    ret !! 1%nat =
      Some {| name := txt "B"; running := 0; remaining_seconds := 600;
              finish_time := 0 |} /\
    take 2 ret =
      [ {| name := txt "A"; running := 0; remaining_seconds := 300;
           finish_time := 0 |};
        {| name := txt "B"; running := 0; remaining_seconds := 600;
           finish_time := 0 |} ].
Proof.
  destruct (get_timetrackers sample_config) as [e|[ret n]] eqn:E;
    [vm_compute in E; discriminate|].
  assert (n = 2) as -> by (vm_compute in E; congruence).
  exists ret. split; [reflexivity|].
  destruct (C1_loaded_timer MAX_TIMETRACKERS sample_config ret 2
              [txt "A=5M" ++ [newline]; txt "#c" ++ [newline]] []
              (txt "B") (txt "10") [newline] E)
    as (_ & Hget & Htake);
    [reflexivity | reflexivity | reflexivity | reflexivity
    | vm_compute; split; discriminate |].
  split; [exact Hget|].
  change (take 2 ret) with (take (Z.to_nat 2) ret).
  rewrite Htake. reflexivity.
Defined.

(** C1, the claim as stated fails: [N = 40000000] is a valid numeral, the
    line is accepted, and the timer does not hold [N * 60] seconds; the
    product is formed in [int]. *)
Lemma C1_counterexample :
  name_ok (txt "A") = true /\ numeral_ok (txt "40000000") = true /\
  numeral_value (txt "40000000") = 40000000 /\
  exists ret,
    get_timetrackers huge_config = inr (ret, 1) /\
    ret !! 0%nat =
      Some {| name := txt "A"; running := 0;
              remaining_seconds := -1894967296; finish_time := 0 |} /\
    -1894967296 <> 40000000 * 60.
Proof.
  split; [reflexivity|]. split; [reflexivity|]. split; [reflexivity|].
  eexists. split; [vm_compute; reflexivity|].
  split; [reflexivity | discriminate].
Qed.

(** C2, at the failing input.  A line that holds only a newline is not
    skipped: the emptiness test runs before the newline is trimmed, the
    trimmed line is empty, [sscanf] returns [EOF], the line is reported as
    malformed and the load of a file with such a line fails. *)
Theorem C2_blank_line_fails :
  parse_timetracker [newline] zeroed_timetracker =
    (-1000, zeroed_timetracker) /\
  parse_timetracker_older [newline] zeroed_timetracker =
    (-1000, zeroed_timetracker) /\
  get_timetrackers blank_line_config = inl (FailedToParse 2 []).
Proof. repeat split; reflexivity. Qed.

(** C9.  When the lines read so far have produced capacity-many timers,
    any further line at all fails the load: it is refused before it is
    looked at. *)
Theorem C9_line_after_full_set (cap : nat) (f : list ascii)
    (pre post : list (list ascii)) :
  file_lines f = pre ++ post ->
  length (omap created_timer pre) = cap ->
  post <> [] ->
  exists e, get_timetrackers_cap cap f = inl e.
Proof.
  intros Hlines Hcap Hpost. unfold get_timetrackers_cap. rewrite Hlines.
  apply (read_lines_app_full cap pre post 0%nat); [lia | exact Hcap | exact Hpost].
Qed.

Lemma C9_line_after_full_set_witness :
  get_timetrackers full_config_then_comment = inl OffByOneError /\
  exists e, get_timetrackers_cap 9 full_config_then_comment = inl e.
Proof.
  split; [reflexivity|].
  apply (C9_line_after_full_set 9 full_config_then_comment
           (take 9 (file_lines full_config_then_comment))
           (drop 9 (file_lines full_config_then_comment)));
    [symmetry; apply take_drop | reflexivity | discriminate].
Defined.

(** ** Theorems: the timer engine *)

(** C3 (as amended).  A stopped timer with a non-negative amount banked,
    started and stopped again within the same second, is stopped and has
    the amount it had, provided the finish time [now + remaining_seconds]
    is a [time_t]. *)
Theorem C3_on_then_off (now : Z) (t : timetracker) :
  tt_typed t -> in_time now ->
  is_running t = false ->
  0 <= remaining_seconds t ->
  now + remaining_seconds t <= TIME_MAX ->
  is_running (timetracker_off now (timetracker_on now t)) = false /\
  remaining_seconds (timetracker_off now (timetracker_on now t)) =
    remaining_seconds t /\
  finish_time (timetracker_off now (timetracker_on now t)) = 0.
Proof. exact (on_then_off_same_second now t). Qed.

Lemma C3_on_then_off_witness :
  timetracker_off 1000 (timetracker_on 1000 stopped_300) = stopped_300 /\
  remaining_seconds (timetracker_off 1000 (timetracker_on 1000 stopped_300))
    = remaining_seconds stopped_300.
Proof.
  split; [reflexivity|].
  apply (C3_on_then_off 1000 stopped_300);
    [vm_compute; intuition discriminate | vm_compute; intuition discriminate
    | reflexivity | simpl; lia | vm_compute; discriminate].
Defined.

(** C3, the claim as stated fails.  The loader accepts [A=-5M] ([%d] reads
    a sign) and banks -300 seconds; started and stopped at once the timer
    holds 0, not -300.  And where [now + remaining_seconds] is no
    [time_t], the finish time wraps into the past. *)
Lemma C3_counterexample :
  (exists ret,
     get_timetrackers negative_config = inr (ret, 1) /\
     ret !! 0%nat = Some stopped_negative) /\
  is_running stopped_negative = false /\
  remaining_seconds
    (timetracker_off 1000 (timetracker_on 1000 stopped_negative)) = 0 /\
  remaining_seconds stopped_negative = -300 /\
  is_running stopped_one = false /\
  remaining_seconds
    (timetracker_off TIME_MAX (timetracker_on TIME_MAX stopped_one)) = 0 /\
  remaining_seconds stopped_one = 1.
Proof.
  split; [eexists; split; vm_compute; reflexivity|].
  repeat split; reflexivity.
Qed.

(** C4 (as amended).  Two toggles within the same second give back the
    running flag and the time left, for a running timer always and for a
    stopped one when it has a non-negative amount banked and
    [now + remaining_seconds] is a [time_t]. *)
Theorem C4_toggle_twice (now : Z) (t : timetracker) :
  tt_typed t -> in_time now ->
  (is_running t = false ->
   0 <= remaining_seconds t /\ now + remaining_seconds t <= TIME_MAX) ->
  is_running (toggle now (toggle now t)) = is_running t /\
  effective_remaining now (toggle now (toggle now t)) =
    effective_remaining now t.
Proof.
  intros Htyped Hnow Hstopped.
  destruct (is_running t) eqn:Hrun.
  - (* running: off, then on *)
    destruct Htyped as (_ & _ & Hfin).
    rewrite (toggle_running now t Hrun).
    rewrite (toggle_stopped now _ (timetracker_off_stopped now t)).
    split; [apply timetracker_on_running|].
    unfold effective_remaining.
    rewrite timetracker_on_running, Hrun.
    unfold timetracker_on. rewrite timetracker_off_stopped.
    cbn [finish_time].
    unfold timetracker_off. rewrite Hrun. cbn [negb].
    destruct (Z.leb_spec (finish_time t) now) as [Hle|Hgt];
      cbn [remaining_seconds].
    + rewrite Z.add_0_r, (wrap_time_id _ Hnow). lia.
    + rewrite (wrap_time_add_sub _ _ Hfin). reflexivity.
  - (* stopped: on, then off *)
    destruct (Hstopped eq_refl) as [Hpos Hfit].
    destruct (on_then_off_same_second now t Htyped Hnow Hrun Hpos Hfit)
      as (Hr & Hrem & _).
    rewrite (toggle_stopped now t Hrun).
    rewrite (toggle_running now _ (timetracker_on_running now t)).
    unfold effective_remaining. rewrite Hr, Hrun.
    split; [reflexivity | exact Hrem].
Qed.

Lemma C4_toggle_twice_witness :
  toggle 1000 (toggle 1000 stopped_300) = stopped_300 /\
  effective_remaining 1000 (toggle 1000 (toggle 1000 stopped_300)) =
    effective_remaining 1000 stopped_300.
Proof.
  split; [reflexivity|].
  apply (C4_toggle_twice 1000 stopped_300);
    [vm_compute; intuition discriminate | vm_compute; intuition discriminate
    | intros _; vm_compute; intuition discriminate].
Defined.

(** C4, the claim as stated fails: the timer that [A=-5M] loads has -300
    seconds left before two toggles within one second and 0 after; and a
    stopped timer whose finish time would pass the end of [time_t] loses
    what it had. *)
Lemma C4_counterexample :
  (exists ret,
     get_timetrackers negative_config = inr (ret, 1) /\
     ret !! 0%nat = Some stopped_negative) /\
  effective_remaining 1000 stopped_negative = -300 /\
  effective_remaining 1000 (toggle 1000 (toggle 1000 stopped_negative)) = 0 /\
  effective_remaining TIME_MAX stopped_one = 1 /\
  effective_remaining TIME_MAX
    (toggle TIME_MAX (toggle TIME_MAX stopped_one)) = 0.
Proof.
  split; [eexists; split; vm_compute; reflexivity|].
  repeat split; reflexivity.
Qed.

(** C5 (as amended).  The seconds shown for a timer are never negative
    when the timer is running and [finish_time - cur_time] is a [time_t],
    or is stopped with a non-negative amount banked. *)
Theorem C5_observe_nonneg (cur_time off_time : Z) (t : timetracker) :
  (is_running t = false -> 0 <= remaining_seconds t) ->
  (is_running t = true -> finish_time t - cur_time <= TIME_MAX) ->
  0 <= fst (observe cur_time off_time t).
Proof.
  intros Hstopped Hrunning. unfold observe.
  destruct (is_running t) eqn:Hrun; cbn [negb].
  - destruct (Z.ltb_spec (finish_time t) cur_time) as [Hlt|Hge];
      cbn [fst]; [lia|].
    specialize (Hrunning eq_refl).
    rewrite wrap_time_id; [lia|].
    unfold in_time, TIME_MIN. lia.
  - cbn [fst]. apply Hstopped. reflexivity.
Qed.

Lemma C5_observe_nonneg_witness :
  observe 925 925 running_until_1000 = (75, running_until_1000) /\
  0 <= fst (observe 925 925 running_until_1000).
Proof.
  split; [reflexivity|].
  apply (C5_observe_nonneg 925 925 running_until_1000);
    [discriminate | intros _; vm_compute; discriminate].
Defined.

(** C5, the claim as stated fails: the timer that [A=-5M] loads is shown
    with -300 seconds; and a running timer is shown with a negative
    amount when [finish_time - cur_time] passes the end of [time_t] (-1 is
    what [time] returns when it fails). *)
Lemma C5_counterexample :
  (exists ret,
     get_timetrackers negative_config = inr (ret, 1) /\
     ret !! 0%nat = Some stopped_negative) /\
  fst (observe 1000 1000 stopped_negative) = -300 /\
  row_min_sec (-300) = (-5, 0) /\
  fst (observe (-1) (-1) running_until_max) = TIME_MIN /\
  TIME_MIN < 0.
Proof.
  split; [eexists; split; vm_compute; reflexivity|].
  repeat split; reflexivity.
Qed.

(** C6.  A running timer whose [finish_time] lies strictly before the
    instant of the redraw is shown with 0 seconds and is left stopped with
    nothing banked and no finish time.  [draw_timetrackers] reads the
    clock once and [timetracker_off] reads it again; the claim's single
    instant is the case [off_time = cur_time], and the statement covers
    every later second reading as well. *)
Theorem C6_observe_expired (cur_time off_time : Z) (t : timetracker) :
  is_running t = true ->
  finish_time t < cur_time ->
  cur_time <= off_time ->
  fst (observe cur_time off_time t) = 0 /\
  is_running (snd (observe cur_time off_time t)) = false /\
  running (snd (observe cur_time off_time t)) = 0 /\
  remaining_seconds (snd (observe cur_time off_time t)) = 0 /\
  finish_time (snd (observe cur_time off_time t)) = 0 /\
  name (snd (observe cur_time off_time t)) = name t.
Proof.
  intros Hrun Hlt Hle. unfold observe, timetracker_off. rewrite Hrun. simpl.
  destruct (Z.ltb_spec (finish_time t) cur_time); [|lia]. simpl.
  destruct (Z.leb_spec (finish_time t) off_time); [|lia]. simpl.
  repeat split; reflexivity.
Qed.

Lemma C6_observe_expired_witness :
  observe 1075 1075 running_until_1000 =
    (0, {| name := txt "A"; running := 0; remaining_seconds := 0;
           finish_time := 0 |}) /\
  fst (observe 1075 1076 running_until_1000) = 0.
Proof.
  split; [reflexivity|].
  apply (C6_observe_expired 1075 1076 running_until_1000);
    [reflexivity | simpl; lia | lia].
Defined.

(** C8.  The invariant "stopped implies [finish_time = 0], running
    implies [remaining_seconds = 0]" holds of every element of the array
    the loader delivers, and each operation of the engine takes a timer
    that has it to a timer that has it, whatever the clock reads. *)
Theorem C8_invariant :
  (forall (cap : nat) (f : list ascii) (ret : list timetracker) (n : Z),
     get_timetrackers_cap cap f = inr (ret, n) -> Forall tt_inv ret) /\
  (forall (cur_time off_time : Z) (t : timetracker),
     tt_inv t ->
     tt_inv (timetracker_on cur_time t) /\
     tt_inv (timetracker_off cur_time t) /\
     tt_inv (toggle cur_time t) /\
     tt_inv (snd (observe cur_time off_time t)) /\
     tt_inv (zero cur_time t)).
Proof.
  split.
  - intros cap f ret n H. unfold get_timetrackers_cap in H.
    eapply read_lines_inv; [|exact H].
    apply Forall_replicate, tt_inv_zeroed.
  - intros cur_time off_time t Hinv.
    split; [apply tt_inv_on; exact Hinv|].
    split; [apply tt_inv_off; exact Hinv|].
    split.
    { unfold toggle. destruct (is_running t);
        [apply tt_inv_off | apply tt_inv_on]; exact Hinv. }
    split.
    { unfold observe. destruct (is_running t); cbn [negb]; [|exact Hinv].
      destruct (finish_time t <? cur_time); cbn [snd];
        [apply tt_inv_off|]; exact Hinv. }
    pose proof (tt_inv_off cur_time t Hinv) as [Hoff _].
    pose proof (timetracker_off_stopped cur_time t) as Hs.
    unfold zero. split; cbn [finish_time remaining_seconds]; intros Hr.
    + apply Hoff. exact Hs.
    + reflexivity.
Qed.

Lemma C8_invariant_witness :
  (exists ret, get_timetrackers sample_config = inr (ret, 2) /\
               Forall tt_inv ret) /\
  tt_inv (toggle 1000 stopped_300) /\
  tt_inv (zero 1000 running_until_1000).
Proof.
  split.
  - destruct (get_timetrackers sample_config) as [e|[ret n]] eqn:E;
      [vm_compute in E; discriminate|].
    assert (n = 2) as -> by (vm_compute in E; congruence).
    exists ret. split; [reflexivity|].
    exact (proj1 C8_invariant MAX_TIMETRACKERS sample_config ret 2 E).
  - assert (H300 : tt_inv stopped_300)
      by (split; intros; reflexivity || discriminate).
    assert (H1000 : tt_inv running_until_1000)
      by (split; intros; reflexivity || discriminate).
    split.
    + exact (proj1 (proj2 (proj2 (proj2 C8_invariant 1000 1000 stopped_300
                                    H300)))).
    + exact (proj2 (proj2 (proj2 (proj2 (proj2 C8_invariant 1000 1000
                                           running_until_1000 H1000))))).
Defined.

(** C10.  A running timer observed at the very instant of its
    [finish_time] is shown with 0 seconds and is not touched: the expiry
    branch is guarded by the strict [finish_time < cur_time]. *)
Theorem C10_observe_at_finish (off_time : Z) (t : timetracker) :
  is_running t = true ->
  observe (finish_time t) off_time t = (0, t).
Proof.
  intros Hrun. unfold observe. rewrite Hrun. simpl.
  rewrite Z.ltb_irrefl, Z.sub_diag. reflexivity.
Qed.

Lemma C10_observe_at_finish_witness :
  observe 1000 1000 running_until_1000 = (0, running_until_1000) /\
  is_running running_until_1000 = true /\
  finish_time running_until_1000 = 1000.
Proof.
  split; [|split; reflexivity].
  apply (C10_observe_at_finish 1000 running_until_1000). reflexivity.
Defined.

(** ** Lemmas: the Ruby script *)

Module RubyFacts.
Import Ruby.

(** *** Numbers and their digits *)

Lemma digit_char_spec d :
  0 <= d <= 9 -> isdigit (digit_char d) = true /\ digit_value (digit_char d) = d.
Proof.
  intros H.
  assert (Hd : d = 0 \/ d = 1 \/ d = 2 \/ d = 3 \/ d = 4 \/ d = 5 \/ d = 6 \/
               d = 7 \/ d = 8 \/ d = 9) by lia.
  repeat (destruct Hd as [-> | Hd]; [split; reflexivity|]).
  subst d. split; reflexivity.
Qed.

Lemma pow2_S k : 2 ^ Z.of_nat (S k) = 2 * 2 ^ Z.of_nat k.
Proof. rewrite Nat2Z.inj_succ, Z.pow_succ_r by lia. reflexivity. Qed.

Lemma dec_digits_spec k : forall n,
  0 <= n < 2 ^ Z.of_nat (S k) ->
  forallb isdigit (dec_digits (S k) n) = true /\
  dec_digits (S k) n <> [] /\
  fold_left step (dec_digits (S k) n) 0 = n.
Proof.
  induction k as [|k IH]; intros n Hn.
  - change (2 ^ Z.of_nat 1) with 2 in Hn.
    assert (Hlt : (n <? 10) = true) by (apply Z.ltb_lt; lia).
    cbn [dec_digits]. rewrite Hlt.
    destruct (digit_char_spec n ltac:(lia)) as [H1 H2].
    cbn [forallb fold_left]. rewrite H1. unfold step. rewrite H2.
    split; [reflexivity|]. split; [discriminate|]. lia.
  - change (dec_digits (S (S k)) n)
      with (if n <? 10 then [digit_char n]
            else dec_digits (S k) (n / 10) ++ [digit_char (n mod 10)]).
    destruct (Z.ltb_spec n 10) as [Hlt|Hge].
    + destruct (digit_char_spec n ltac:(lia)) as [H1 H2].
      cbn [forallb fold_left]. rewrite H1. unfold step. rewrite H2.
      split; [reflexivity|]. split; [discriminate|]. lia.
    + rewrite pow2_S in Hn.
      assert (Hq : 0 <= n / 10 < 2 ^ Z.of_nat (S k)).
      { split; [apply Z.div_pos; lia|].
        apply Z.div_lt_upper_bound; lia. }
      destruct (IH (n / 10) Hq) as (Hd & Hne & Hv).
      pose proof (Z.mod_pos_bound n 10 ltac:(lia)) as Hm.
      destruct (digit_char_spec (n mod 10) ltac:(lia)) as [H1 H2].
      split; [|split].
      * rewrite forallb_app, Hd. cbn [forallb]. rewrite H1. reflexivity.
      * intros E. apply app_eq_nil in E as [_ E]. discriminate.
      * rewrite fold_left_app, Hv. cbn [fold_left]. unfold step.
        rewrite H2. pose proof (Z.div_mod n 10 ltac:(lia)). lia.
Qed.

Lemma decimal_spec n :
  0 <= n ->
  forallb isdigit (decimal n) = true /\
  decimal n <> [] /\
  fold_left step (decimal n) 0 = n.
Proof.
  intros Hn. unfold decimal. apply dec_digits_spec.
  split; [exact Hn|].
  destruct (Z.eq_dec n 0) as [->|Hne]; [reflexivity|].
  rewrite Nat2Z.inj_succ, Z2Nat.id by apply Z.log2_nonneg.
  apply Z.log2_spec. lia.
Qed.

Lemma to_i_digits_digits ds : forall acc,
  forallb isdigit ds = true -> to_i_digits acc ds = fold_left step ds acc.
Proof.
  induction ds as [|d ds IH]; intros acc H; [reflexivity|].
  cbn [forallb] in H. apply andb_prop in H as [Hd Hds].
  cbn [to_i_digits fold_left]. rewrite Hd. apply IH. exact Hds.
Qed.

(** What [sprintf("%02d", n)] writes is made of digits and perhaps a
    sign in front, and [to_i] reads [n] back from it. *)
Lemma isdigit_sign_or_digit ds :
  forallb isdigit ds = true -> forallb sign_or_digit ds = true.
Proof.
  induction ds as [|d ds IH]; [reflexivity|]. cbn [forallb].
  intros H. apply andb_prop in H as [Hd Hds].
  unfold sign_or_digit at 1. rewrite Hd, (IH Hds). reflexivity.
Qed.

Lemma sprintf_02d_chars n :
  forallb sign_or_digit (sprintf_02d n) = true /\
  exists body d, sprintf_02d n = body ++ [d] /\ isdigit d = true.
Proof.
  assert (Hlast : forall ds, forallb isdigit ds = true -> ds <> [] ->
                  forall pre, exists body d,
                    pre ++ ds = body ++ [d] /\ isdigit d = true).
  { intros ds Hds Hne pre.
    destruct (exists_last Hne) as (body & d & ->).
    rewrite forallb_app in Hds. apply andb_prop in Hds as [_ Hd].
    cbn [forallb] in Hd. rewrite andb_true_r in Hd.
    exists (pre ++ body), d. rewrite <- app_assoc. split; [reflexivity|exact Hd]. }
  unfold sprintf_02d.
  destruct (Z.ltb_spec n 0) as [Hneg|Hnn].
  - destruct (decimal_spec (- n) ltac:(lia)) as (Hd & Hne & _).
    split; [cbn [forallb]; rewrite (isdigit_sign_or_digit _ Hd); reflexivity|].
    apply (Hlast _ Hd Hne ["-"%char]).
  - destruct (decimal_spec n Hnn) as (Hd & Hne & _).
    destruct (n <? 10).
    + split; [cbn [forallb]; rewrite (isdigit_sign_or_digit _ Hd); reflexivity|].
      apply (Hlast _ Hd Hne ["0"%char]).
    + split; [apply isdigit_sign_or_digit; exact Hd|].
      apply (Hlast _ Hd Hne []).
Qed.

Lemma to_i_sprintf_02d n : to_i (sprintf_02d n) = n.
Proof.
  unfold sprintf_02d.
  destruct (Z.ltb_spec n 0) as [Hneg|Hnn].
  - destruct (decimal_spec (- n) ltac:(lia)) as (Hd & Hne & Hv).
    unfold to_i. cbn [skip_space]. change (isspace "-") with false.
    cbn iota. rewrite Ascii.eqb_refl.
    destruct (decimal (- n)) as [|d ds] eqn:E; [congruence|].
    pose proof Hd as Hd'. cbn [forallb] in Hd'.
    apply andb_prop in Hd' as [Hd0 _]. rewrite Hd0.
    rewrite to_i_digits_digits by exact Hd. rewrite Hv. lia.
  - destruct (decimal_spec n Hnn) as (Hd & Hne & Hv).
    assert (Hdig : forall ds, forallb isdigit ds = true -> ds <> [] ->
                   to_i ds = fold_left step ds 0).
    { intros ds Hds Hds0. destruct ds as [|d ds]; [congruence|].
      pose proof Hds as Hds'. cbn [forallb] in Hds'.
      apply andb_prop in Hds' as [Hd0 _].
      unfold to_i. cbn [skip_space].
      rewrite (isdigit_not_space d Hd0).
      rewrite (isdigit_not d "-" Hd0 eq_refl), (isdigit_not d "+" Hd0 eq_refl).
      rewrite Hd0. apply to_i_digits_digits. exact Hds. }
    destruct (n <? 10).
    + rewrite Hdig; [|cbn [forallb]; rewrite Hd; reflexivity | discriminate].
      cbn [fold_left]. change (step 0 "0") with 0. exact Hv.
    + rewrite Hdig by assumption. exact Hv.
Qed.


(** *** Fields, lines and files *)

Lemma sign_or_digit_not c x :
  sign_or_digit c = true -> sign_or_digit x = false -> (c =? x)%char = false.
Proof.
  intros Hc Hx. destruct (Ascii.eqb_spec c x); [congruence|reflexivity].
Qed.

Lemma forallb_sign_or_digit_not s x :
  forallb sign_or_digit s = true -> sign_or_digit x = false ->
  forallb (fun c => negb (c =? x)%char) s = true.
Proof.
  intros Hs Hx. induction s as [|c s IH]; [reflexivity|].
  cbn [forallb] in *. apply andb_prop in Hs as [Hc Hs].
  rewrite (sign_or_digit_not c x Hc Hx), (IH Hs). reflexivity.
Qed.

Lemma split_fields_one sep a :
  forallb (fun c => negb (c =? sep)%char) a = true ->
  split_fields sep a = [a].
Proof.
  induction a as [|c a IH]; [reflexivity|].
  cbn [forallb split_fields]. intros H. apply andb_prop in H as [Hc Ha].
  destruct (c =? sep)%char; [discriminate|]. rewrite (IH Ha). reflexivity.
Qed.

Lemma split_fields_app sep a r :
  forallb (fun c => negb (c =? sep)%char) a = true ->
  split_fields sep (a ++ sep :: r) = a :: split_fields sep r.
Proof.
  induction a as [|c a IH].
  - intros _. cbn [app split_fields]. rewrite Ascii.eqb_refl. reflexivity.
  - cbn [forallb app split_fields]. intros H.
    apply andb_prop in H as [Hc Ha].
    destruct (c =? sep)%char; [discriminate|]. rewrite (IH Ha). reflexivity.
Qed.

Lemma drop_trailing_empty_last flds fld :
  fld <> [] -> drop_trailing_empty (flds ++ [fld]) = flds ++ [fld].
Proof.
  intros Hne. induction flds as [|f flds IH].
  - destruct fld; [congruence | reflexivity].
  - cbn [app drop_trailing_empty]. rewrite IH.
    destruct (flds ++ [fld]) eqn:E; [|reflexivity].
    apply app_eq_nil in E as [_ E]. discriminate.
Qed.

Lemma chomp_line body d :
  (d =? CR)%char = false -> (d =? newline)%char = false ->
  chomp ((body ++ [d]) ++ [newline]) = body ++ [d].
Proof.
  intros Hcr Hnl. unfold chomp.
  rewrite rev_app_distr. cbn [rev app].
  rewrite Ascii.eqb_refl, rev_app_distr. cbn [rev app].
  rewrite Hcr. cbn [rev]. rewrite rev_involutive. reflexivity.
Qed.

Lemma gets_all_line l rest :
  forallb (fun c => negb (c =? newline)%char) l = true ->
  gets_all (l ++ newline :: rest) = (l ++ [newline]) :: gets_all rest.
Proof.
  induction l as [|c l IH].
  - intros _. cbn [app gets_all]. rewrite Ascii.eqb_refl. reflexivity.
  - cbn [forallb app gets_all]. intros H.
    apply andb_prop in H as [Hc Hl].
    destruct (c =? newline)%char; [discriminate|]. rewrite (IH Hl).
    reflexivity.
Qed.

(** *** Task times *)

Lemma time_text_chars now tt x :
  sign_or_digit x = false -> (x =? ":")%char = false ->
  forallb (fun c => negb (c =? x)%char) (TaskTime_to_s now tt) = true.
Proof.
  intros Hx Hcolon. unfold TaskTime_to_s.
  rewrite forallb_app. cbn [forallb].
  destruct (sprintf_02d_chars (get_seconds now tt / 3600)) as [H1 _].
  destruct (sprintf_02d_chars
              ((get_seconds now tt - get_seconds now tt / 3600 * 3600) / 60))
    as [H2 _].
  rewrite (forallb_sign_or_digit_not _ x H1 Hx).
  rewrite (forallb_sign_or_digit_not _ x H2 Hx).
  rewrite Ascii.eqb_sym, Hcolon. reflexivity.
Qed.

Lemma time_text_last now tt :
  exists body d, TaskTime_to_s now tt = body ++ [d] /\ isdigit d = true.
Proof.
  unfold TaskTime_to_s.
  destruct (sprintf_02d_chars
              ((get_seconds now tt - get_seconds now tt / 3600 * 3600) / 60))
    as (_ & body & d & -> & Hd).
  exists (sprintf_02d (get_seconds now tt / 3600) ++ ":"%char :: body), d.
  split; [|exact Hd]. rewrite <- app_assoc. reflexivity.
Qed.

Lemma whole_minutes_seconds s :
  60 * 60 * (s / 3600) + 60 * ((s - s / 3600 * 3600) / 60) + 0 = 60 * (s / 60).
Proof.
  pose proof (Z.div_mod s 3600 ltac:(lia)) as H.
  pose proof (Z.mod_pos_bound s 3600 ltac:(lia)) as Hb.
  replace (s - s / 3600 * 3600) with (s mod 3600) by lia.
  assert (Hs : s / 60 = 60 * (s / 3600) + (s mod 3600) / 60).
  { rewrite H at 1.
    replace (3600 * (s / 3600) + s mod 3600)
      with (60 * (s / 3600) * 60 + s mod 3600) by lia.
    apply Z.div_add_l. lia. }
  lia.
Qed.

(** A stopped task time is read back from its text rounded down to
    whole minutes. *)
Lemma CreateTaskTime_to_s now tt :
  start_time tt = None ->
  CreateTaskTime (Some (TaskTime_to_s now tt)) = inr (whole_minutes tt).
Proof.
  intros Hstop. unfold CreateTaskTime, TaskTime_to_s, get_seconds.
  rewrite Hstop. set (s := seconds tt).
  set (h := s / 3600). set (m := (s - h * 3600) / 60).
  destruct (sprintf_02d_chars h) as [Hh _].
  destruct (sprintf_02d_chars m) as (Hm & body & d & Em & _).
  unfold split. rewrite split_fields_app
    by (apply forallb_sign_or_digit_not; [exact Hh | reflexivity]).
  rewrite split_fields_one
    by (apply forallb_sign_or_digit_not; [exact Hm | reflexivity]).
  change [sprintf_02d h; sprintf_02d m]
    with ([sprintf_02d h] ++ [sprintf_02d m]).
  rewrite (drop_trailing_empty_last [sprintf_02d h] (sprintf_02d m)).
  - cbn [app]. rewrite !to_i_sprintf_02d.
    unfold TaskTime_new, whole_minutes. do 2 f_equal.
    apply whole_minutes_seconds.
  - rewrite Em. intros E. apply app_eq_nil in E as [_ E]. discriminate.
Qed.



(** *** Task lines *)

Lemma field_ok_no_bar s :
  field_ok s = true -> forallb (fun c => negb (c =? "|")%char) s = true.
Proof.
  unfold field_ok. induction s as [|c s IH]; [reflexivity|].
  cbn [forallb]. intros H. apply andb_prop in H as [Hc Hs].
  apply andb_prop in Hc as [Hc _]. rewrite Hc, (IH Hs). reflexivity.
Qed.

Lemma field_ok_no_newline s :
  field_ok s = true -> forallb (fun c => negb (c =? newline)%char) s = true.
Proof.
  unfold field_ok. induction s as [|c s IH]; [reflexivity|].
  cbn [forallb]. intros H. apply andb_prop in H as [Hc Hs].
  apply andb_prop in Hc as [_ Hc]. rewrite Hc, (IH Hs). reflexivity.
Qed.

Lemma task_body_no_newline now t :
  field_ok (key t) = true -> field_ok (taskname t) = true ->
  forallb (fun c => negb (c =? newline)%char) (task_body now t) = true.
Proof.
  intros Hk Hn. unfold task_body.
  rewrite forallb_app. cbn [forallb].
  rewrite forallb_app. cbn [forallb].
  rewrite forallb_app. cbn [forallb].
  rewrite (field_ok_no_newline _ Hk), (field_ok_no_newline _ Hn).
  rewrite !(time_text_chars now _ newline) by reflexivity.
  reflexivity.
Qed.

Lemma split_task_body now t :
  field_ok (key t) = true -> field_ok (taskname t) = true ->
  split "|" (task_body now t) =
  [key t; taskname t; TaskTime_to_s now (curtime t);
   TaskTime_to_s now (goaltime t)].
Proof.
  intros Hk Hn. unfold split, task_body.
  rewrite split_fields_app by (apply field_ok_no_bar; exact Hk).
  rewrite split_fields_app by (apply field_ok_no_bar; exact Hn).
  rewrite split_fields_app by (apply time_text_chars; reflexivity).
  rewrite split_fields_one by (apply time_text_chars; reflexivity).
  change [key t; taskname t; TaskTime_to_s now (curtime t);
          TaskTime_to_s now (goaltime t)]
    with ([key t; taskname t; TaskTime_to_s now (curtime t)] ++
          [TaskTime_to_s now (goaltime t)]).
  apply drop_trailing_empty_last.
  destruct (time_text_last now (goaltime t)) as (body & d & -> & _).
  intros E. apply app_eq_nil in E as [_ E]. discriminate.
Qed.

Lemma chomp_task_line now t :
  chomp (Task_to_s now t) = task_body now t.
Proof.
  unfold Task_to_s. fold (task_body now t).
  destruct (time_text_last now (goaltime t)) as (body & d & E & Hd).
  assert (Hb : task_body now t =
               (key t ++ "|"%char :: taskname t ++ "|"%char ::
                TaskTime_to_s now (curtime t) ++ "|"%char :: body) ++ [d]).
  { unfold task_body. rewrite E.
    repeat (rewrite <- app_assoc; cbn [app]). reflexivity. }
  rewrite Hb. apply chomp_line; apply isdigit_not; (exact Hd || reflexivity).
Qed.

(** Reading back the line that [Task#to_s] writes for a stopped task. *)
Lemma load_line_task now t st :
  field_ok (key t) = true -> field_ok (taskname t) = true ->
  start_time (curtime t) = None -> start_time (goaltime t) = None ->
  load_line (Task_to_s now t) st =
  add_task (key t) (taskname t) (whole_minutes (goaltime t))
    (whole_minutes (curtime t)) st.
Proof.
  intros Hk Hn Hc Hg. unfold load_line.
  rewrite chomp_task_line, split_task_body by assumption.
  cbn [lookup list_lookup].
  rewrite (CreateTaskTime_to_s now _ Hc), (CreateTaskTime_to_s now _ Hg).
  reflexivity.
Qed.

(** *** The Hash of tasks and the bound keys *)

Lemma hash_store_fresh k v h :
  ~ In k (map fst h) -> hash_store k v h = h ++ [(k, v)].
Proof.
  induction h as [|[k' v'] h IH]; [reflexivity|].
  cbn [map fst In hash_store app]. intros Hnot.
  destruct (decide (k = k')) as [->|Hne]; [tauto|].
  rewrite IH by tauto. reflexivity.
Qed.

Lemma load_lines_tasks now rest : forall acc (os : observers),
  Forall entry_ok rest -> Forall entry_stopped rest ->
  NoDup (heads rest) ->
  (forall h, In h (heads rest) -> os !! h = None) ->
  (forall h, In h (heads acc) -> is_Some (os !! h)) ->
  exists os',
    load_lines (map (fun kt => Task_to_s now (snd kt)) rest) (acc, os) =
    inr (acc ++ map entry_whole_minutes rest, os').
Proof.
  induction rest as [|[k t] rest IH]; intros acc os Hok Hst Hnd Hfree Hacc.
  - exists os. cbn [map load_lines]. rewrite app_nil_r. reflexivity.
  - apply Forall_cons_1 in Hok as [(Hkey & Hk & Hn) Hok].
    apply Forall_cons_1 in Hst as [(Hc & Hg) Hst].
    cbn [fst snd] in Hkey, Hk, Hn, Hc, Hg. subst k.
    cbn [heads map fst] in Hnd. apply NoDup_cons in Hnd as [Hnotin Hnd].
    cbn [map load_lines snd].
    rewrite (load_line_task now t (acc, os) Hk Hn Hc Hg).
    unfold add_task, add_obs. cbn [fst snd].
    assert (Hnone : os !! hd_error (key t) = None).
    { apply Hfree. left. reflexivity. }
    rewrite Hnone.
    assert (Hfresh : ~ In (key t) (map fst acc)).
    { intros Hin. apply in_map_iff in Hin as ([k' t'] & Hk' & Hin).
      cbn [fst] in Hk'. subst k'.
      destruct (Hacc (hd_error (key t))) as [o Ho]; [|congruence].
      unfold heads. apply in_map_iff. exists (key t, t'). split; [reflexivity|exact Hin]. }
    rewrite (hash_store_fresh _ _ _ Hfresh).
    set (t' := {| key := key t; taskname := taskname t;
                  goaltime := whole_minutes (goaltime t);
                  curtime := whole_minutes (curtime t) |}).
    destruct (IH (acc ++ [(key t, t')])
                 (<[hd_error (key t) := ObsTask t']> os) Hok Hst Hnd)
      as [os' Hos'].
    + intros h Hin. rewrite lookup_insert_ne.
      * apply Hfree. right. exact Hin.
      * intros E. subst h. apply Hnotin. apply list_elem_of_In. exact Hin.
    + intros h Hin. unfold heads in Hin. rewrite map_app in Hin.
      apply in_app_or in Hin as [Hin|Hin].
      * destruct (decide (hd_error (key t) = h)) as [->|Hne].
        -- rewrite lookup_insert_eq. eauto.
        -- rewrite lookup_insert_ne by exact Hne. apply Hacc. exact Hin.
      * cbn [map In fst] in Hin. destruct Hin as [<-|[]].
        rewrite lookup_insert_eq. eauto.
    + exists os'. rewrite Hos'. rewrite <- app_assoc. reflexivity.
Qed.

(** *** The file a save leaves *)

Lemma gets_all_task_lines now ts :
  Forall entry_ok ts ->
  gets_all (concat (map (fun kt => Task_to_s now (snd kt)) ts)) =
  map (fun kt => Task_to_s now (snd kt)) ts.
Proof.
  induction ts as [|[k t] ts IH]; [reflexivity|].
  intros Hok. apply Forall_cons_1 in Hok as [(_ & Hk & Hn) Hok].
  cbn [fst snd] in Hk, Hn. cbn [map concat snd].
  unfold Task_to_s at 1. fold (task_body now t).
  rewrite <- app_assoc. cbn [app].
  rewrite gets_all_line by (apply task_body_no_newline; assumption).
  rewrite (IH Hok). reflexivity.
Qed.

Lemma TaskSet_to_s_ends now s :
  exists pre, TaskSet_to_s now s = pre ++ [newline].
Proof.
  unfold TaskSet_to_s.
  destruct (tasks s) as [|kt ts] using rev_ind.
  - exists (description s). reflexivity.
  - rewrite map_app, concat_app. cbn [map concat].
    rewrite app_nil_r. unfold Task_to_s at 2.
    eexists. rewrite app_comm_cons, !app_assoc. reflexivity.
Qed.

Lemma puts_to_s now s : puts (TaskSet_to_s now s) = TaskSet_to_s now s.
Proof.
  destruct (TaskSet_to_s_ends now s) as [pre ->].
  unfold puts. rewrite last_snoc, Ascii.eqb_refl. reflexivity.
Qed.


(** *** Every loaded task set is [task_set_ok] and stopped *)

Lemma no_newline_forallb s :
  no_newline s -> forallb (fun c => negb (c =? newline)%char) s = true.
Proof.
  intros H. apply forallb_forall. intros x Hx.
  destruct (Ascii.eqb_spec x newline) as [E|_]; [|reflexivity].
  exfalso. exact (H x Hx E).
Qed.

Lemma gets_all_shape f :
  Forall (fun l => exists body,
            no_newline body /\ (l = body \/ l = body ++ [newline]))
         (gets_all f).
Proof.
  induction f as [|c f IH]; [constructor|].
  cbn [gets_all]. destruct (Ascii.eqb_spec c newline) as [->|Hc].
  - constructor; [|exact IH]. exists []. split; [intros x []|].
    right. reflexivity.
  - destruct (gets_all f) as [|l ls].
    + constructor; [|constructor]. exists [c].
      split; [|left; reflexivity]. intros x [<-|[]]. exact Hc.
    + apply Forall_cons_1 in IH as [(body & Hb & Hl) Hls].
      constructor; [|exact Hls]. exists (c :: body). split.
      * intros x [<-|Hx]; [exact Hc | exact (Hb x Hx)].
      * destruct Hl as [->| ->]; [left|right]; reflexivity.
Qed.

Lemma In_rev_tail (x a : ascii) (s r : list ascii) :
  rev s = a :: r -> In x (rev r) -> In x s.
Proof.
  intros E Hx. apply in_rev. rewrite E. right. apply in_rev. exact Hx.
Qed.

Lemma chomp_incl s x : In x (chomp s) -> In x s.
Proof.
  unfold chomp. destruct (rev s) as [|a r] eqn:E; [intros []|].
  destruct (a =? newline)%char.
  - destruct r as [|b r']; [intros []|].
    destruct (b =? CR)%char; intros Hx.
    + apply (In_rev_tail x a s (b :: r') E). cbn [rev].
      apply in_or_app. left. exact Hx.
    + apply (In_rev_tail x a s (b :: r') E). exact Hx.
  - destruct (a =? CR)%char; intros Hx; [|exact Hx].
    apply (In_rev_tail x a s r E). exact Hx.
Qed.

Lemma chomp_snoc_incl body x :
  In x (chomp (body ++ [newline])) -> In x body.
Proof.
  unfold chomp. rewrite rev_app_distr. cbn [rev app].
  rewrite Ascii.eqb_refl.
  destruct (rev body) as [|b r'] eqn:E; [intros []|].
  destruct (b =? CR)%char; intros Hx.
  - apply (In_rev_tail x b body r' E). exact Hx.
  - apply in_rev. rewrite E. apply in_rev. exact Hx.
Qed.

Lemma chomp_line_no_newline l :
  (exists body, no_newline body /\ (l = body \/ l = body ++ [newline])) ->
  no_newline (chomp l).
Proof.
  intros (body & Hb & [->| ->]) x Hx; apply Hb.
  - apply chomp_incl. exact Hx.
  - apply chomp_snoc_incl. exact Hx.
Qed.

Lemma split_fields_chars sep s :
  Forall (fun fld => forall x, In x fld -> In x s /\ x <> sep)
         (split_fields sep s).
Proof.
  induction s as [|c s IH].
  - constructor; [intros x []|constructor].
  - cbn [split_fields]. destruct (Ascii.eqb_spec c sep) as [->|Hc].
    + constructor; [intros x []|].
      eapply Forall_impl; [exact IH|]. cbn beta. intros fld H x Hx.
      destruct (H x Hx). split; [right|]; assumption.
    + destruct (split_fields sep s) as [|fld flds].
      * constructor; [|constructor]. intros x [<-|[]].
        split; [left; reflexivity | exact Hc].
      * apply Forall_cons_1 in IH as [Hfld Hflds].
        constructor.
        -- intros x [<-|Hx]; [split; [left; reflexivity|exact Hc]|].
           destruct (Hfld x Hx). split; [right|]; assumption.
        -- eapply Forall_impl; [exact Hflds|]. cbn beta. intros f H x Hx.
           destruct (H x Hx). split; [right|]; assumption.
Qed.

Lemma drop_trailing_empty_incl flds fld :
  In fld (drop_trailing_empty flds) -> In fld flds.
Proof.
  induction flds as [|f flds IH]; [intros []|].
  cbn [drop_trailing_empty].
  destruct (drop_trailing_empty flds) as [|g gs].
  - destruct f; [intros []|]. intros [<-|[]]. left. reflexivity.
  - intros [<-|Hin]; [left; reflexivity|]. right. apply IH. exact Hin.
Qed.

(** A token of a chomped line is a field. *)
Lemma token_field_ok line tokens i fld :
  no_newline (chomp line) ->
  tokens = split "|" (chomp line) ->
  tokens !! i = Some fld -> field_ok fld = true.
Proof.
  intros Hnl -> Hi.
  apply list_elem_of_lookup_2, list_elem_of_In in Hi.
  apply drop_trailing_empty_incl in Hi.
  pose proof (split_fields_chars "|" (chomp line)) as Hall.
  rewrite Forall_forall in Hall.
  specialize (Hall fld (proj2 (list_elem_of_In _ _) Hi)).
  unfold field_ok. apply forallb_forall. intros x Hx.
  destruct (Hall x Hx) as [Hin Hbar].
  destruct (Ascii.eqb_spec x "|"); [contradiction|].
  destruct (Ascii.eqb_spec x newline) as [E|_]; [|reflexivity].
  exfalso. exact (Hnl x Hin E).
Qed.

Lemma CreateTaskTime_stopped str tt :
  CreateTaskTime str = inr tt -> start_time tt = None.
Proof.
  unfold CreateTaskTime. destruct str as [s|]; [|discriminate].
  destruct (split ":" s) as [|t0 [|t1 [|t2 r]]]; try discriminate.
  intros H. inversion H. reflexivity.
Qed.

Lemma heads_app ts kt : heads (ts ++ [kt]) = heads ts ++ [hd_error (fst kt)].
Proof. unfold heads. rewrite map_app. reflexivity. Qed.

Lemma add_task_inv k tname goal cur st st' :
  field_ok k = true -> field_ok tname = true ->
  start_time goal = None -> start_time cur = None ->
  loading_inv st ->
  add_task k tname goal cur st = inr st' ->
  loading_inv st'.
Proof.
  intros Hk Hn Hg Hc (Hok & Hst & Hnd & Hbound & Hq & Hnq).
  destruct st as [ts os]. cbn [fst snd] in *.
  unfold add_task, add_obs. cbn [fst snd].
  destruct (os !! hd_error k) as [o|] eqn:Hfree; [discriminate|].
  intros H. inversion H; subst st'. clear H.
  set (t := {| key := k; taskname := tname; goaltime := goal;
               curtime := cur |}).
  assert (Hhead : ~ In (hd_error k) (heads ts)).
  { intros Hin. destruct (Hbound _ Hin) as [o Ho]. congruence. }
  assert (Hfresh : ~ In k (map fst ts)).
  { intros Hin. apply Hhead. apply in_map_iff in Hin as ([k' t'] & E & Hin).
    cbn [fst] in E. subst k'. unfold heads. apply in_map_iff.
    exists (k, t'). split; [reflexivity | exact Hin]. }
  rewrite (hash_store_fresh _ _ _ Hfresh).
  unfold loading_inv. cbn [fst snd].
  split; [apply Forall_app; split; [exact Hok|]; repeat constructor; assumption|].
  split; [apply Forall_app; split; [exact Hst|]; repeat constructor; assumption|].
  rewrite heads_app. cbn [fst].
  split.
  { apply NoDup_app. split; [exact Hnd|]. split.
    - intros h Hh Hin. apply list_elem_of_In in Hh.
      apply list_elem_of_In in Hin. destruct Hin as [<-|[]]. exact (Hhead Hh).
    - apply NoDup_singleton. }
  split.
  { intros h Hin. apply in_app_or in Hin as [Hin|[<-|[]]].
    - destruct (decide (hd_error k = h)) as [->|Hne].
      + rewrite lookup_insert_eq. eauto.
      + rewrite lookup_insert_ne by exact Hne. apply Hbound. exact Hin.
    - rewrite lookup_insert_eq. eauto. }
  split.
  { destruct (decide (hd_error k = Some "q"%char)) as [E|Hne].
    - rewrite E. rewrite lookup_insert_eq. eauto.
    - rewrite lookup_insert_ne by exact Hne. exact Hq. }
  intros Hin. apply in_app_or in Hin as [Hin|[E|[]]]; [exact (Hnq Hin)|].
  destruct Hq as [o Ho]. rewrite E in Hfree. congruence.
Qed.

Lemma load_line_inv line st st' :
  no_newline (chomp line) ->
  loading_inv st -> load_line line st = inr st' -> loading_inv st'.
Proof.
  intros Hnl Hinv. unfold load_line.
  destruct (CreateTaskTime (split "|" (chomp line) !! 2%nat))
    as [e|cur] eqn:Ecur; [discriminate|].
  destruct (CreateTaskTime (split "|" (chomp line) !! 3%nat))
    as [e|goal] eqn:Egoal; [discriminate|].
  destruct (split "|" (chomp line) !! 0%nat) as [k|] eqn:Ek; [|discriminate].
  destruct (split "|" (chomp line) !! 1%nat) as [tn|] eqn:En; [|discriminate].
  apply add_task_inv; try assumption.
  - exact (token_field_ok line _ 0%nat k Hnl eq_refl Ek).
  - exact (token_field_ok line _ 1%nat tn Hnl eq_refl En).
  - exact (CreateTaskTime_stopped _ _ Egoal).
  - exact (CreateTaskTime_stopped _ _ Ecur).
Qed.

Lemma load_lines_inv lines : forall st st',
  Forall (fun l => no_newline (chomp l)) lines ->
  loading_inv st -> load_lines lines st = inr st' -> loading_inv st'.
Proof.
  induction lines as [|line rest IH]; intros st st' Hnl Hinv H.
  - inversion H. subst. exact Hinv.
  - apply Forall_cons_1 in Hnl as [Hline Hrest]. cbn [load_lines] in H.
    destruct (load_line line st) as [e|st1] eqn:E; [discriminate|].
    apply (IH st1 st' Hrest); [|exact H].
    exact (load_line_inv line st st1 Hline Hinv E).
Qed.

Lemma loading_inv_start : loading_inv ([], observers_at_load).
Proof.
  unfold loading_inv. cbn [fst snd heads map].
  split; [constructor|]. split; [constructor|]. split; [constructor|].
  split; [intros h []|]. split; [|intros []].
  unfold observers_at_load. rewrite lookup_singleton_eq. eauto.
Qed.

(** Whatever [load] delivers is a task set as the round trip wants it. *)
Lemma loaded_task_set_ok file s os :
  load file = inr (s, os) -> task_set_ok s /\ all_stopped s.
Proof.
  unfold load, TaskSet_new. pose proof (gets_all_shape file) as Hshape.
  destruct (gets_all file) as [|first rest]; [discriminate|].
  apply Forall_cons_1 in Hshape as [Hfirst Hrest].
  destruct (load_lines rest ([], observers_at_load)) as [e|[ts os']] eqn:E;
    [discriminate|].
  intros H. inversion H; subst s os'. clear H.
  assert (Hlines : Forall (fun l => no_newline (chomp l)) rest).
  { eapply Forall_impl; [exact Hrest|]. intros l Hl.
    apply chomp_line_no_newline. exact Hl. }
  destruct (load_lines_inv rest _ _ Hlines loading_inv_start E)
    as (Hok & Hst & Hnd & _ & _ & Hnq).
  cbn [fst snd] in *. split; [|exact Hst].
  unfold task_set_ok. cbn [description tasks].
  split; [|auto].
  apply no_newline_forallb, chomp_line_no_newline. exact Hfirst.
Qed.

(** Saving and loading again. *)
Lemma save_then_load (now : Z) (s : TaskSet) :
  task_set_ok s -> all_stopped s ->
  exists os,
    load (save now s) =
    inr ({| description := chomp (description s ++ [newline]);
            tasks := map entry_whole_minutes (tasks s) |}, os).
Proof.
  intros (Hd & Hok & Hnd & Hq) Hst.
  unfold load, save, TaskSet_new.
  rewrite puts_to_s. unfold TaskSet_to_s.
  rewrite gets_all_line by exact Hd.
  rewrite gets_all_task_lines by exact Hok.
  destruct (load_lines_tasks now (tasks s) [] observers_at_load Hok Hst Hnd)
    as [os Hos].
  - intros h Hin. unfold observers_at_load.
    apply lookup_singleton_ne. intros E. subst h. exact (Hq Hin).
  - intros h [].
  - exists os. rewrite Hos. reflexivity.
Qed.

(** A set that was loaded, saved at once and loaded again. *)
Lemma load_save_load (now : Z) (file : list ascii) (s : TaskSet)
    (os : observers) :
  load file = inr (s, os) ->
  exists os',
    load (save now s) =
    inr ({| description := chomp (description s ++ [newline]);
            tasks := map entry_whole_minutes (tasks s) |}, os').
Proof.
  intros H. destruct (loaded_task_set_ok file s os H) as [Hok Hst].
  exact (save_then_load now s Hok Hst).
Qed.

End RubyFacts.

(** Zeroing in the script leaves a task stopped with nothing on its
    clock, whether it was running or not. *)
Lemma zero_timer_stopped (now : Z) (t : Ruby.Task) :
  Ruby.start_time (Ruby.curtime (Ruby.zero_timer now t)) = None /\
  Ruby.seconds (Ruby.curtime (Ruby.zero_timer now t)) = 0 /\
  Ruby.get_seconds now (Ruby.curtime (Ruby.zero_timer now t)) = 0.
Proof. repeat split; reflexivity. Qed.

(** ** Theorems: the Ruby task file *)

(** C7.  Saving a task set whose timers are all stopped and loading the
    file again succeeds, and gives the same keys and names in the same
    order, every timer stopped, every time rounded down to whole
    minutes.  [task_set_ok] holds of every task set that was loaded
    ([loaded_task_set_ok]), and nothing the script does afterwards
    changes a key or a name. *)
Theorem C7_round_trip (now : Z) (s : Ruby.TaskSet) :
  Ruby.task_set_ok s -> Ruby.all_stopped s ->
  exists os,
    Ruby.load (Ruby.save now s) =
    inr ({| Ruby.description :=
              Ruby.chomp (Ruby.description s ++ [newline]);
            Ruby.tasks := map Ruby.entry_whole_minutes (Ruby.tasks s) |},
         os) /\
    map (fun kt => Ruby.taskname (snd kt))
        (map Ruby.entry_whole_minutes (Ruby.tasks s)) =
      map (fun kt => Ruby.taskname (snd kt)) (Ruby.tasks s) /\
    Forall (fun kt =>
              Ruby.start_time (Ruby.curtime (snd kt)) = None /\
              Ruby.start_time (Ruby.goaltime (snd kt)) = None)
           (map Ruby.entry_whole_minutes (Ruby.tasks s)) /\
    map (fun kt => Ruby.seconds (Ruby.curtime (snd kt)))
        (map Ruby.entry_whole_minutes (Ruby.tasks s)) =
      map (fun kt => 60 * (Ruby.seconds (Ruby.curtime (snd kt)) / 60))
          (Ruby.tasks s).
Proof.
  intros Hok Hst.
  destruct (RubyFacts.save_then_load now s Hok Hst) as [os Hos].
  exists os. split; [exact Hos|].
  rewrite !map_map. split; [reflexivity|]. split; [|reflexivity].
  apply Forall_map. apply Forall_forall. intros kt _. split; reflexivity.
Qed.

Lemma C7_round_trip_witness :
  exists os,
    Ruby.load (Ruby.save 0 Ruby.sample_task_set) =
    inr (Ruby.sample_task_set_reloaded, os).
Proof.
  assert (Hok : Ruby.task_set_ok Ruby.sample_task_set).
  { split; [reflexivity|]. split.
    - repeat constructor.
    - split; [apply (bool_decide_unpack _); vm_compute; exact I|].
      cbn. intros [H|[H|[]]]; discriminate. }
  assert (Hst : Ruby.all_stopped Ruby.sample_task_set)
    by (repeat constructor).
  destruct (C7_round_trip 0 Ruby.sample_task_set Hok Hst) as (os & H & _).
  exists os. rewrite H. reflexivity.
Defined.

(** * Further properties of the code *)

(** ** The line reader *)

Lemma fgets_chars_length room : forall f l r,
  fgets_chars room f = (l, r) -> (length l <= room)%nat.
Proof.
  induction room as [|room IH]; intros f l r H.
  - destruct f; inversion H; simpl; lia.
  - destruct f as [|c f']; simpl in H; [inversion H; simpl; lia|].
    destruct (c =? newline)%char; [inversion H; simpl; lia|].
    destruct (fgets_chars room f') as [l' r'] eqn:E.
    inversion H; subst. simpl. specialize (IH _ _ _ E). lia.
Qed.

Lemma fgets_chars_newline room : forall f l r,
  fgets_chars room f = (l, r) -> newline_only_last l.
Proof.
  induction room as [|room IH]; intros f l r H.
  - assert (l = []) as -> by (destruct f; inversion H; reflexivity).
    intros l1 l2 Hl. destruct l1; discriminate.
  - destruct f as [|c f']; simpl in H.
    { inversion H. intros l1 l2 Hl. destruct l1; discriminate. }
    destruct (Ascii.eqb_spec c newline) as [->|Hc].
    + inversion H. intros l1 l2 Hl.
      destruct l1 as [|a l1]; [inversion Hl; reflexivity|].
      inversion Hl. destruct l1; discriminate.
    + destruct (fgets_chars room f') as [l' r'] eqn:E.
      inversion H. intros l1 l2 Hl. destruct l1 as [|a l1].
      * inversion Hl. congruence.
      * inversion Hl. eapply (IH _ _ _ E). eassumption.
Qed.

(** A line stops short of the buffer only at a newline or at the end of
    the file. *)
Lemma fgets_chars_full room : forall f l r,
  fgets_chars room f = (l, r) ->
  last l = Some newline \/ length l = room \/ r = [].
Proof.
  induction room as [|room IH]; intros f l r H.
  - destruct f; inversion H; auto.
  - destruct f as [|c f']; simpl in H; [inversion H; auto|].
    destruct (Ascii.eqb_spec c newline) as [->|Hc].
    + inversion H; subst. left. reflexivity.
    + destruct (fgets_chars room f') as [l' r'] eqn:E.
      inversion H; subst. destruct (IH _ _ _ E) as [Hl|[Hl|Hl]].
      * left. destruct l' as [|a l'']; [discriminate|]. exact Hl.
      * right. left. simpl. lia.
      * right. right. exact Hl.
Qed.

Lemma file_lines_Forall (P : list ascii -> Prop) :
  (forall f l r, fgets LINE_SZ f = Some (l, r) -> P l) ->
  forall f, Forall P (file_lines f).
Proof.
  intros HP f. remember (length f) as n eqn:Hn.
  revert f Hn. induction n as [n IH] using lt_wf_ind. intros f Hn.
  rewrite file_lines_step.
  destruct (fgets LINE_SZ f) as [[l r]|] eqn:E; [|constructor].
  constructor; [exact (HP f l r E)|].
  apply fgets_some in E as (_ & _ & Hlt).
  apply (IH (length r)); [lia | reflexivity].
Qed.

Lemma fgets_line_shape f l r :
  fgets LINE_SZ f = Some (l, r) ->
  l <> [] /\ (length l <= 159)%nat /\ newline_only_last l /\
  (last l = Some newline \/ length l = 159%nat \/ r = []).
Proof.
  intros H. pose proof (fgets_some f l r H) as (_ & Hne & _).
  unfold fgets in H. destruct f as [|c f']; [discriminate|].
  change (LINE_SZ - 1)%nat with 159%nat in H.
  assert (H' : fgets_chars 159 (c :: f') = (l, r)) by congruence.
  split; [exact Hne|].
  split; [exact (fgets_chars_length _ _ _ _ H')|].
  split; [exact (fgets_chars_newline _ _ _ _ H')|].
  exact (fgets_chars_full _ _ _ _ H').
Qed.

(** X1.  The lines [get_timetrackers] reads are the file cut into
    pieces: put together they give the file back, no piece is empty, a
    piece has at most 159 characters, and a newline can only be the last
    character of a piece.  So a text line of more than 159 characters
    reaches [parse_timetracker] as several lines. *)
Theorem X1_file_lines (f : list ascii) :
  concat (file_lines f) = f /\
  Forall (fun l => l <> [] /\ (length l <= 159)%nat /\ newline_only_last l)
         (file_lines f).
Proof.
  split; [apply file_lines_concat|].
  apply file_lines_Forall. intros f0 l r H.
  destruct (fgets_line_shape f0 l r H) as (H1 & H2 & H3 & _). auto.
Qed.

(** ** What a successful load delivers *)

Lemma read_lines_sentinel cap lines : forall num_tt line_no ret ret' n,
  read_lines cap lines num_tt line_no ret = inr (ret', n) ->
  (Z.to_nat n < length ret')%nat ->
  exists t, ret' !! Z.to_nat n = Some t /\ name t = [].
Proof.
  induction lines as [|buf rest IH]; intros num_tt line_no ret ret' n H Hlen.
  - simpl in H. destruct (num_tt =? 0); [discriminate|].
    inversion H; subst. rewrite length_insert in Hlen.
    eexists. split; [apply list_lookup_insert_eq; exact Hlen | reflexivity].
  - simpl in H. destruct (Z.of_nat cap <=? num_tt); [discriminate|].
    destruct (parse_timetracker buf _) as [out slot].
    destruct (out <? 0); [discriminate|].
    destruct (0 <? out); eapply IH; eassumption.
Qed.

Lemma created_timer_shape buf t :
  created_timer buf = Some t ->
  name t <> [] /\ running t = 0 /\ finish_time t = 0 /\
  in_int (remaining_seconds t).
Proof.
  unfold created_timer.
  destruct (parse_timetracker buf zeroed_timetracker) as [out slot] eqn:P.
  destruct (Z.ltb_spec 0 out) as [Hpos|]; [|discriminate].
  intros H. inversion H; subst slot. clear H.
  destruct (parse_timetracker_created _ _ _ _ P Hpos) as (_ & _ & Hr & Hf & Hn).
  split; [exact Hn|]. split; [exact Hr|]. split; [exact Hf|].
  unfold parse_timetracker in P.
  destruct (starts_with_hash (c_str buf)); [inversion P; lia|].
  destruct (Z.of_nat (length (c_str buf)) <? 1); [inversion P; lia|].
  destruct (sscanf_name_eq_int _); inversion P; try lia.
  cbn [remaining_seconds].
  unfold in_int, wrap_int, wrap_signed, INT_MIN, INT_MAX.
  match goal with |- context [?a mod 2 ^ 32] =>
    pose proof (Z.mod_pos_bound a (2 ^ 32) ltac:(lia)) end.
  change (2 ^ (32 - 1)) with (2 ^ 31) in *.
  change (2 ^ 32) with (2 * 2 ^ 31) in *. lia.
Qed.

(** The shape of the array a successful load delivers. *)
Lemma loaded_array_shape (cap : nat) (f : list ascii)
    (ret : list timetracker) (n : Z) :
  get_timetrackers_cap cap f = inr (ret, n) ->
  1 <= n <= Z.of_nat cap /\
  length ret = (cap + 1)%nat /\
  Forall (fun t => name t <> [] /\ running t = 0 /\ finish_time t = 0 /\
                   in_int (remaining_seconds t))
         (take (Z.to_nat n) ret) /\
  exists t, ret !! Z.to_nat n = Some t /\ name t = [].
Proof.
  intros H. unfold get_timetrackers_cap in H.
  pose proof H as H'.
  apply (read_lines_ok cap (file_lines f) 0%nat) in H;
    [|rewrite length_replicate; reflexivity | lia].
  destruct H as (Hn & Hr & Hl & Ht).
  split; [lia|]. split; [exact Hl|]. split.
  - rewrite Ht. cbn [take app]. apply Forall_forall. intros t Hin.
    apply list_elem_of_omap in Hin. destruct Hin as (buf & _ & Hc).
    exact (created_timer_shape buf t Hc).
  - apply (read_lines_sentinel _ _ _ _ _ _ _ H'). lia.
Qed.


(** X2.  What a successful load hands to the rest of the program: between
    1 and capacity-many timers at the front of an array of capacity + 1
    elements, each with a name that is not empty, stopped, with no finish
    time and an amount that is an [int]; and right behind them the element
    with the empty name at which [draw_timetrackers] stops. *)
Theorem X2_loaded_array (cap : nat) (f : list ascii)
    (ret : list timetracker) (n : Z) :
  get_timetrackers_cap cap f = inr (ret, n) ->
  1 <= n <= Z.of_nat cap /\
  length ret = (cap + 1)%nat /\
  Forall (fun t => name t <> [] /\ running t = 0 /\ finish_time t = 0 /\
                   in_int (remaining_seconds t))
         (take (Z.to_nat n) ret) /\
  exists t, ret !! Z.to_nat n = Some t /\ name t = [].
Proof. exact (loaded_array_shape cap f ret n). Qed.

Lemma X2_loaded_array_witness :
  exists ret,
    get_timetrackers sample_config = inr (ret, 2) /\
    length ret = 10%nat /\
    exists t, ret !! 2%nat = Some t /\ name t = [].
Proof.
  destruct (get_timetrackers sample_config) as [e|[ret n]] eqn:E;
    [vm_compute in E; discriminate|].
  assert (n = 2) as -> by (vm_compute in E; congruence).
  exists ret. split; [reflexivity|].
  destruct (X2_loaded_array MAX_TIMETRACKERS sample_config ret 2 E)
    as (_ & Hl & _ & Hs).
  split; [exact Hl | exact Hs].
Defined.

(** ** How a load fails *)

Lemma parse_timetracker_fst buf slot slot' :
  fst (parse_timetracker buf slot) = fst (parse_timetracker buf slot').
Proof.
  unfold parse_timetracker.
  destruct (starts_with_hash (c_str buf)); [reflexivity|].
  destruct (Z.of_nat (length (c_str buf)) <? 1); [reflexivity|].
  destruct (sscanf_name_eq_int _); reflexivity.
Qed.

Lemma read_lines_first_failure cap pre : forall bad post k line_no ret,
  Forall (fun b => line_passes b = true) pre ->
  line_passes bad = false ->
  (k + length (omap created_timer pre) < cap)%nat ->
  0 <= line_no -> line_no + Z.of_nat (length pre) + 1 <= INT_MAX ->
  read_lines cap (pre ++ bad :: post) (Z.of_nat k) line_no ret =
  inl (FailedToParse (line_no + Z.of_nat (length pre) + 1)
         (trim_newline (c_str bad))).
Proof.
  induction pre as [|buf pre IH];
    intros bad post k line_no ret Hpre Hbad Hcap H0 Hmax.
  - cbn [app read_lines length].
    destruct (Z.leb_spec (Z.of_nat cap) (Z.of_nat k)) as [Hle|_];
      [simpl in Hcap; lia|].
    unfold line_passes in Hbad. apply Z.leb_gt in Hbad.
    rewrite (parse_timetracker_fst bad _
               (nth (Z.to_nat (Z.of_nat k)) ret zeroed_timetracker)) in Hbad.
    destruct (parse_timetracker bad _) as [out slot] eqn:P.
    cbn [fst] in Hbad.
    destruct (Z.ltb_spec out 0) as [_|Hge]; [|lia].
    rewrite wrap_int_id by (unfold in_int, INT_MIN, INT_MAX in *; simpl in Hmax; lia).
    simpl length. do 2 f_equal. lia.
  - apply Forall_cons_1 in Hpre as [Hbuf Hpre].
    rewrite created_cons in Hcap.
    cbn [app read_lines].
    destruct (Z.leb_spec (Z.of_nat cap) (Z.of_nat k)) as [Hle|_].
    { destruct (created_timer buf); simpl in Hcap; lia. }
    rewrite Nat2Z.id.
    destruct (parse_timetracker buf (nth k ret zeroed_timetracker))
      as [out slot] eqn:P.
    assert (Hout : 0 <= out).
    { unfold line_passes in Hbuf. apply Z.leb_le in Hbuf.
      rewrite (parse_timetracker_fst buf _ (nth k ret zeroed_timetracker)), P
        in Hbuf. exact Hbuf. }
    destruct (Z.ltb_spec out 0) as [Hneg|_]; [lia|].
    assert (Hw : wrap_int (line_no + 1) = line_no + 1).
    { apply wrap_int_id. unfold in_int, INT_MIN, INT_MAX in *.
      simpl length in Hmax. lia. }
    rewrite Hw.
    destruct (Z.ltb_spec 0 out) as [Hpos|Hzero].
    + destruct (parse_timetracker_created _ _ _ _ P Hpos) as (-> & Hc & _).
      rewrite Hc in Hcap. simpl length in Hcap, Hmax.
      replace (Z.of_nat k + 1) with (Z.of_nat (S k)) by lia.
      rewrite IH; [do 2 f_equal; simpl length; lia | assumption | assumption
                  | lia | lia | lia].
    + pose proof (parse_timetracker_not_created _ _ _ _ P Hzero) as Hc.
      rewrite Hc in Hcap. simpl length in Hmax.
      rewrite IH; [do 2 f_equal; simpl length; lia | assumption | assumption
                  | lia | lia | lia].
Qed.

(** X3.  A load that meets a malformed line before the capacity is
    reached gives up at the first such line and reports its number,
    counted from 1 over every line read (comments too), together with
    the line as trimmed. *)
Theorem X3_first_malformed_line (cap : nat) (f : list ascii)
    (pre post : list (list ascii)) (bad : list ascii) :
  file_lines f = pre ++ bad :: post ->
  Forall (fun b => line_passes b = true) pre ->
  line_passes bad = false ->
  (length (omap created_timer pre) < cap)%nat ->
  Z.of_nat (length pre) + 1 <= INT_MAX ->
  get_timetrackers_cap cap f =
  inl (FailedToParse (Z.of_nat (length pre) + 1) (trim_newline (c_str bad))).
Proof.
  intros Hlines Hpre Hbad Hcap Hmax. unfold get_timetrackers_cap.
  rewrite Hlines.
  rewrite (read_lines_first_failure cap pre bad post 0%nat 0);
    [reflexivity | assumption | assumption | simpl; lia | lia | lia].
Qed.

Lemma X3_first_malformed_line_witness :
  get_timetrackers (text_lines ["# head"; "A=5M"; "oops"; "B=1M"]%string) =
  inl (FailedToParse 3 (txt "oops")).
Proof.
  apply (X3_first_malformed_line MAX_TIMETRACKERS
           (text_lines ["# head"; "A=5M"; "oops"; "B=1M"]%string)
           [txt "# head" ++ [newline]; txt "A=5M" ++ [newline]]
           [txt "B=1M" ++ [newline]] (txt "oops" ++ [newline]));
    [reflexivity | repeat constructor | reflexivity
    | vm_compute; lia | vm_compute; discriminate].
Defined.




(** ** What the scan of a line accepts *)















(** ** The timer engine over time *)

(** X7.  A stopped timer with [r >= 0] seconds banked, started at [t0]
    and looked at [d] seconds later: while [d <= r] it shows [r - d] and
    stays as it is; once [d > r] it shows 0 and is left stopped with
    nothing banked. *)
Theorem X7_countdown (t0 d off_time : Z) (t : timetracker) :
  tt_typed t ->
  is_running t = false ->
  0 <= remaining_seconds t -> in_time t0 ->
  t0 + remaining_seconds t <= TIME_MAX ->
  0 <= d -> t0 + d <= off_time ->
  observe (t0 + d) off_time (timetracker_on t0 t) =
  if d <=? remaining_seconds t then
    (remaining_seconds t - d, timetracker_on t0 t)
  else
    (0, {| name := name t; running := 0; remaining_seconds := 0;
           finish_time := 0 |}).
Proof.
  intros (_ & Hrem & _) Hstop Hr Ht0 Hfit Hd Hoff.
  unfold timetracker_on. rewrite Hstop.
  assert (Hsum : wrap_time (t0 + remaining_seconds t) =
                 t0 + remaining_seconds t).
  { apply wrap_time_id. unfold in_time in *. lia. }
  rewrite Hsum. unfold observe.
  cbn [is_running running Z.eqb negb finish_time].
  destruct (Z.leb_spec d (remaining_seconds t)) as [Hle|Hgt].
  - destruct (Z.ltb_spec (t0 + remaining_seconds t) (t0 + d)) as [|_]; [lia|].
    rewrite wrap_time_id
      by (unfold in_time, TIME_MIN, TIME_MAX in *; lia).
    f_equal. lia.
  - destruct (Z.ltb_spec (t0 + remaining_seconds t) (t0 + d)) as [_|]; [|lia].
    unfold timetracker_off.
    cbn [is_running running Z.eqb negb finish_time name].
    destruct (Z.leb_spec (t0 + remaining_seconds t) off_time) as [_|]; [|lia].
    reflexivity.
Qed.

Lemma X7_countdown_witness :
  observe 1075 1075 (timetracker_on 1000 stopped_300) =
    (225, timetracker_on 1000 stopped_300) /\
  fst (observe 1301 1301 (timetracker_on 1000 stopped_300)) = 0.
Proof.
  split.
  - apply (X7_countdown 1000 75 1075 stopped_300);
      [vm_compute; intuition discriminate
      | reflexivity | simpl; lia | vm_compute; intuition discriminate
      | vm_compute; discriminate | lia | lia].
  - change 1301 with (1000 + 301).
    rewrite (X7_countdown 1000 301 (1000 + 301) stopped_300);
      [reflexivity | vm_compute; intuition discriminate
      | reflexivity | simpl; lia
      | vm_compute; intuition discriminate
      | vm_compute; discriminate | lia | lia].
Defined.

(** X8.  Pausing keeps what is left: a stopped timer with [r >= 0]
    seconds, started at [t0] and stopped at [t1 >= t0], is stopped with
    [max 0 (r - (t1 - t0))] seconds banked and no finish time. *)
Theorem X8_pause (t0 t1 : Z) (t : timetracker) :
  tt_typed t ->
  is_running t = false ->
  0 <= remaining_seconds t -> in_time t0 ->
  t0 + remaining_seconds t <= TIME_MAX ->
  t0 <= t1 ->
  timetracker_off t1 (timetracker_on t0 t) =
  {| name := name t; running := 0;
     remaining_seconds := Z.max 0 (remaining_seconds t - (t1 - t0));
     finish_time := 0 |}.
Proof.
  intros (_ & Hrem & _) Hstop Hr Ht0 Hfit Hle.
  unfold timetracker_on. rewrite Hstop.
  rewrite (wrap_time_id (t0 + remaining_seconds t))
    by (unfold in_time in *; lia).
  unfold timetracker_off.
  cbn [is_running running Z.eqb negb finish_time name].
  destruct (Z.leb_spec (t0 + remaining_seconds t) t1) as [H|H].
  - f_equal. lia.
  - rewrite wrap_time_id
      by (unfold in_time, TIME_MIN, TIME_MAX in *; lia).
    f_equal. lia.
Qed.

Lemma X8_pause_witness :
  timetracker_off 1100 (timetracker_on 1000 stopped_300) =
  {| name := txt "A"; running := 0; remaining_seconds := 200;
     finish_time := 0 |}.
Proof.
  rewrite (X8_pause 1000 1100 stopped_300);
    [reflexivity | vm_compute; intuition discriminate
    | reflexivity | simpl; lia
    | vm_compute; intuition discriminate | vm_compute; discriminate | lia].
Defined.

Lemma wrap_time_le z : 0 <= z -> wrap_time z <= z.
Proof.
  intros Hz. unfold wrap_time, wrap_signed.
  change (2 ^ (64 - 1)) with (2 ^ 63).
  pose proof (Z.div_mod (z + 2 ^ 63) (2 ^ 64) ltac:(lia)) as Hdm.
  pose proof (Z.mod_pos_bound (z + 2 ^ 63) (2 ^ 64) ltac:(lia)) as Hm.
  assert (0 <= (z + 2 ^ 63) / 2 ^ 64) by (apply Z.div_pos; lia).
  lia.
Qed.

(** X9.  No key press adds time: for a timer whose fields fit their
    types and whose banked amount is not negative, the time left after a
    toggle, read at the same or any later instant, is at most the time
    left before it. *)
Theorem X9_toggle_adds_no_time (now later : Z) (t : timetracker) :
  tt_typed t -> in_time now ->
  (is_running t = false ->
   0 <= remaining_seconds t /\ now + remaining_seconds t <= TIME_MAX) ->
  now <= later ->
  effective_remaining later (toggle now t) <= effective_remaining now t.
Proof.
  intros (_ & Hrem & Hfin) Hnow Hstopped Hle.
  destruct (is_running t) eqn:Hrun.
  - rewrite (toggle_running now t Hrun).
    unfold effective_remaining.
    rewrite timetracker_off_stopped, Hrun.
    unfold timetracker_off. rewrite Hrun. cbn [negb].
    destruct (Z.leb_spec (finish_time t) now) as [H|H];
      cbn [remaining_seconds]; [lia|].
    pose proof (wrap_time_le (finish_time t - now) ltac:(lia)). lia.
  - destruct (Hstopped eq_refl) as [Hpos Hfit].
    rewrite (toggle_stopped now t Hrun).
    unfold effective_remaining.
    rewrite timetracker_on_running, Hrun.
    unfold timetracker_on. rewrite Hrun. cbn [finish_time].
    rewrite wrap_time_id by (unfold in_time in *; lia).
    lia.
Qed.

Lemma X9_toggle_adds_no_time_witness :
  effective_remaining 1010 (toggle 1000 stopped_300) <=
  effective_remaining 1000 stopped_300.
Proof.
  apply (X9_toggle_adds_no_time 1000 1010 stopped_300);
    [vm_compute; intuition discriminate | vm_compute; intuition discriminate
    | intros _; vm_compute; intuition discriminate | lia].
Defined.

(** X10.  The minutes and seconds of a row are the amount split at 60:
    for an amount between 0 and the largest [int], [min] is the
    quotient, [sec] lies between 0 and 59, and [min * 60 + sec] is the
    amount. *)
Theorem X10_row_min_sec (rem : Z) :
  0 <= rem <= INT_MAX ->
  fst (row_min_sec rem) = rem / 60 /\
  0 <= snd (row_min_sec rem) < 60 /\
  fst (row_min_sec rem) * 60 + snd (row_min_sec rem) = rem.
Proof.
  intros [H0 Hmax]. unfold row_min_sec. cbn [fst snd].
  rewrite Z.quot_div_nonneg by lia.
  pose proof (Z.div_mod rem 60 ltac:(lia)) as Hdm.
  pose proof (Z.mod_pos_bound rem 60 ltac:(lia)) as Hm.
  assert (Hq : 0 <= rem / 60 <= rem) by (split; [apply Z.div_pos; lia | lia]).
  unfold INT_MAX in Hmax.
  rewrite (wrap_int_id (rem / 60)) by (unfold in_int, INT_MIN, INT_MAX; lia).
  rewrite (wrap_int_id (rem / 60 * 60))
    by (unfold in_int, INT_MIN, INT_MAX; lia).
  rewrite (wrap_time_id (rem - rem / 60 * 60))
    by (unfold in_time, TIME_MIN, TIME_MAX; lia).
  rewrite (wrap_int_id (rem - rem / 60 * 60))
    by (unfold in_int, INT_MIN, INT_MAX; lia).
  lia.
Qed.

Lemma X10_row_min_sec_witness :
  row_min_sec 225 = (3, 45) /\
  fst (row_min_sec 225) * 60 + snd (row_min_sec 225) = 225.
Proof.
  split; [reflexivity|].
  apply (X10_row_min_sec 225). vm_compute. intuition discriminate.
Defined.

(** ** Drawing and keys *)

Lemma observe_name cur_time off_time t :
  name (snd (observe cur_time off_time t)) = name t.
Proof.
  unfold observe. destruct (is_running t) eqn:E; cbn [negb]; [|reflexivity].
  destruct (finish_time t <? cur_time); cbn [snd]; [|reflexivity].
  unfold timetracker_off. rewrite E. cbn [negb].
  destruct (finish_time t <=? off_time); reflexivity.
Qed.




Lemma draw_loop_named cur_time off_time ts : forall idx s rest,
  Forall (fun t => name t <> []) ts -> name s = [] ->
  2 + 2 * Z.of_nat (idx + length ts) <= INT_MAX ->
  draw_loop cur_time off_time idx (1 + Z.of_nat idx) (2 + 2 * Z.of_nat idx)
    (ts ++ s :: rest) =
  (drawn_rows cur_time off_time idx ts,
   drawn_timers cur_time off_time idx ts ++ s :: rest).
Proof.
  induction ts as [|t ts IH]; intros idx s rest Hnamed Hs Hmax.
  - cbn [app draw_loop drawn_rows drawn_timers]. rewrite Hs. reflexivity.
  - apply Forall_cons_1 in Hnamed as [Ht Hts].
    cbn [app draw_loop drawn_rows drawn_timers].
    destruct (name t) as [|c nm] eqn:E; [congruence|].
    simpl length in Hmax. unfold INT_MAX in Hmax.
    rewrite (wrap_int_id (1 + Z.of_nat idx + 1))
      by (unfold in_int, INT_MIN, INT_MAX; lia).
    rewrite (wrap_int_id (2 + 2 * Z.of_nat idx + 2))
      by (unfold in_int, INT_MIN, INT_MAX; lia).
    replace (1 + Z.of_nat idx + 1) with (1 + Z.of_nat (S idx)) by lia.
    replace (2 + 2 * Z.of_nat idx + 2) with (2 + 2 * Z.of_nat (S idx)) by lia.
    rewrite (IH (S idx) s rest Hts Hs) by (unfold INT_MAX; lia).
    reflexivity.
Qed.


Lemma drawn_timers_length cur_time off_time ts : forall idx,
  length (drawn_timers cur_time off_time idx ts) = length ts.
Proof. induction ts as [|t ts IH]; intros idx; simpl; [|rewrite IH]; reflexivity. Qed.



Lemma shows_split n arr :
  shows n arr ->
  exists s, name s = [] /\ arr = take n arr ++ s :: drop (S n) arr /\
            drop n arr = s :: drop (S n) arr /\
            length (take n arr) = n.
Proof.
  intros (_ & s & Hs & Hname). exists s. split; [exact Hname|].
  split; [symmetry; apply take_drop_middle; exact Hs|].
  split; [apply drop_S; exact Hs|].
  apply length_take_le. apply lookup_lt_Some in Hs. lia.
Qed.

Lemma draw_timetrackers_shows cur_time off_time n arr :
  shows n arr -> 2 + 2 * Z.of_nat n <= INT_MAX ->
  draw_timetrackers cur_time off_time arr =
  (drawn_rows cur_time off_time 0 (take n arr),
   drawn_timers cur_time off_time 0 (take n arr) ++ drop n arr).
Proof.
  intros Hshows Hmax.
  destruct (shows_split n arr Hshows) as (s & Hs & Harr & Hdrop & Hlen).
  destruct Hshows as [Hnamed _].
  unfold draw_timetrackers. rewrite Harr at 1. rewrite Hdrop.
  change 1 with (1 + Z.of_nat 0) at 1. change 2 with (2 + 2 * Z.of_nat 0) at 1.
  apply (draw_loop_named cur_time off_time (take n arr) 0%nat s
           (drop (S n) arr) Hnamed Hs).
  rewrite Hlen. simpl. lia.
Qed.



Lemma loaded_shows cap f ret n :
  get_timetrackers_cap cap f = inr (ret, n) -> shows (Z.to_nat n) ret.
Proof.
  intros H. destruct (loaded_array_shape cap f ret n H)
    as (_ & _ & Hall & Hs).
  split; [|exact Hs].
  eapply Forall_impl; [exact Hall|]. cbn beta. intros t Ht. apply Ht.
Qed.

Lemma drawn_rows_names cur_time off_time ts : forall idx,
  map row_name (drawn_rows cur_time off_time idx ts) = map name ts.
Proof.
  induction ts as [|t ts IH]; intros idx; [reflexivity|].
  cbn [drawn_rows map]. rewrite IH. f_equal.
  unfold drawn_row, drawn_timer. cbn [row_name]. apply observe_name.
Qed.

(** X12.  From the file to the screen: after a successful load the rows
    that [draw_timetrackers] draws carry the names of the lines that
    created a timer, one row for each, in the order of the file. *)
Theorem X12_loaded_then_drawn (cap : nat) (f : list ascii)
    (ret : list timetracker) (n : Z) (cur_time : Z) (off_time : nat -> Z) :
  get_timetrackers_cap cap f = inr (ret, n) ->
  2 + 2 * Z.of_nat cap <= INT_MAX ->
  map row_name (fst (draw_timetrackers cur_time off_time ret)) =
  map name (omap created_timer (file_lines f)).
Proof.
  intros Hload Hcap.
  pose proof (loaded_shows cap f ret n Hload) as Hshows.
  destruct (loaded_array_shape cap f ret n Hload) as (Hn & _).
  rewrite (draw_timetrackers_shows cur_time off_time (Z.to_nat n) ret Hshows)
    by lia.
  cbn [fst]. rewrite drawn_rows_names.
  unfold get_timetrackers_cap in Hload.
  apply (read_lines_ok cap (file_lines f) 0%nat) in Hload;
    [|rewrite length_replicate; reflexivity | lia].
  destruct Hload as (_ & _ & _ & Ht). rewrite Ht. reflexivity.
Qed.

Lemma X12_loaded_then_drawn_witness :
  exists ret,
    get_timetrackers sample_config = inr (ret, 2) /\
    map row_name (fst (draw_timetrackers 0 (fun _ => 0) ret)) =
    [txt "A"; txt "B"].
Proof.
  destruct (get_timetrackers sample_config) as [e|[ret n]] eqn:E;
    [vm_compute in E; discriminate|].
  assert (n = 2) as -> by (vm_compute in E; congruence).
  exists ret. split; [reflexivity|].
  rewrite (X12_loaded_then_drawn MAX_TIMETRACKERS sample_config ret 2 0
             (fun _ => 0) E); [reflexivity | vm_compute; discriminate].
Defined.

(** *** What the program never does to the array *)




Lemma handle_key_cases k now arr num :
  handle_key k now arr num = KeyExit \/
  handle_key k now arr num = KeyContinue arr \/
  exists i, (0 <= k - 49 < 9) /\ k - 49 < num /\ i = Z.to_nat (k - 49) /\
    handle_key k now arr num =
    KeyContinue (<[i := toggle now (nth i arr zeroed_timetracker)]> arr).
Proof.
  unfold handle_key. destruct (k =? 113); [left; reflexivity|]. right.
  destruct (Z.leb_spec 49 k); cbn [andb]; [|left; reflexivity].
  destruct (Z.leb_spec k 57); [|left; reflexivity].
  destruct (Z.ltb_spec (k - 49) num); [|left; reflexivity].
  right. exists (Z.to_nat (k - 49)). repeat split; try lia.
Qed.




(** X14.  Every loaded timer has its key: with [num] timers, [num] at
    most 9, the key of the digit [i + 1] toggles timer [i] (counted from
    0) for every [i] below [num], and leaves the rest of the array as
    it is. *)
Theorem X14_digit_key (i : nat) (now : Z) (arr : list timetracker)
    (num : Z) (t : timetracker) :
  Z.of_nat i < num -> num <= 9 -> arr !! i = Some t ->
  handle_key (49 + Z.of_nat i) now arr num =
    KeyContinue (<[i := toggle now t]> arr) /\
  (<[i := toggle now t]> arr) !! i = Some (toggle now t) /\
  (forall j, j <> i -> (<[i := toggle now t]> arr) !! j = arr !! j).
Proof.
  intros Hi Hnum Ht. split; [|split].
  - unfold handle_key.
    destruct (Z.eqb_spec (49 + Z.of_nat i) 113) as [|_]; [lia|].
    destruct (Z.leb_spec 49 (49 + Z.of_nat i)) as [_|]; [|lia].
    destruct (Z.leb_spec (49 + Z.of_nat i) 57) as [_|]; [|lia].
    cbn [andb].
    replace (49 + Z.of_nat i - 49) with (Z.of_nat i) by lia.
    destruct (Z.ltb_spec (Z.of_nat i) num) as [_|]; [|lia].
    rewrite Nat2Z.id, nth_lookup, Ht. reflexivity.
  - apply list_lookup_insert_eq. apply lookup_lt_Some in Ht. exact Ht.
  - intros j Hj. apply list_lookup_insert_ne. congruence.
Qed.

Lemma X14_digit_key_witness :
  handle_key 50 7 [stopped_300; stopped_one; zeroed_timetracker] 2 =
  KeyContinue [stopped_300; toggle 7 stopped_one; zeroed_timetracker].
Proof.
  exact (proj1 (X14_digit_key 1 7 [stopped_300; stopped_one;
                                    zeroed_timetracker] 2 stopped_one
                  ltac:(lia) ltac:(lia) eq_refl)).
Defined.

(** X15.  A key press reaches at most the one timer its digit names:
    whatever the key, an element stays as it is unless the key is the
    digit of its position and the position is below the number of
    timers.  The digits end at 9, so an element at position 9 or later
    (the older variant loads up to 20 timers) is out of reach of every
    key. *)
Theorem X15_key_reach (k now : Z) (arr arr' : list timetracker) (num : Z)
    (j : nat) :
  handle_key k now arr num = KeyContinue arr' ->
  (9 <= j)%nat \/ num <= Z.of_nat j \/ k <> 49 + Z.of_nat j ->
  arr' !! j = arr !! j.
Proof.
  intros Hkey Hj.
  destruct (handle_key_cases k now arr num)
    as [H|[H|(i & Hk & Hnum & -> & H)]]; rewrite H in Hkey; inversion Hkey.
  - reflexivity.
  - apply list_lookup_insert_ne. lia.
Qed.

Lemma X15_key_reach_witness :
  exists arr',
    handle_key 57 7 (replicate 12 stopped_300 ++ [zeroed_timetracker]) 12
      = KeyContinue arr' /\
    arr' !! 10%nat = Some stopped_300.
Proof.
  destruct (handle_key 57 7
              (replicate 12 stopped_300 ++ [zeroed_timetracker]) 12)
    as [|arr'] eqn:H; [vm_compute in H; discriminate|].
  exists arr'. split; [reflexivity|].
  rewrite (X15_key_reach 57 7 _ arr' 12 10 H); [reflexivity | left; lia].
Defined.

Lemma observe_not_expired cur_time off_time t :
  is_running (snd (observe cur_time off_time t)) = true ->
  cur_time <= finish_time (snd (observe cur_time off_time t)).
Proof.
  unfold observe.
  destruct (is_running t) eqn:E; cbn [negb snd]; [|congruence].
  destruct (Z.ltb_spec (finish_time t) cur_time) as [Hlt|Hge]; cbn [snd].
  - rewrite timetracker_off_stopped. discriminate.
  - intros _. exact Hge.
Qed.

(** X16.  After a redraw no drawn timer is running past its finish time:
    whatever the clock reads at the top of [draw_timetrackers] and in
    the calls of [timetracker_off] in it, every timer before the empty
    name is afterwards either stopped or has its finish time at or after
    the instant read at the top. *)
Theorem X16_redraw_heals (cur_time : Z) (off_time : nat -> Z) (n : nat)
    (arr : list timetracker) :
  shows n arr -> 2 + 2 * Z.of_nat n <= INT_MAX ->
  Forall (fun t => is_running t = true -> cur_time <= finish_time t)
         (take n (snd (draw_timetrackers cur_time off_time arr))).
Proof.
  intros Hshows Hmax.
  rewrite (draw_timetrackers_shows cur_time off_time n arr Hshows Hmax).
  destruct (shows_split n arr Hshows) as (s & _ & _ & _ & Hlen).
  cbn [snd].
  rewrite take_app_length' by (rewrite drawn_timers_length; symmetry; exact Hlen).
  generalize (take n arr) as ts. generalize 0%nat as idx.
  intros idx ts. revert idx.
  induction ts as [|t ts IH]; intros idx; [constructor|].
  cbn [drawn_timers]. constructor; [|apply IH].
  unfold drawn_timer. apply observe_not_expired.
Qed.

Lemma X16_redraw_heals_witness :
  Forall (fun t => is_running t = true -> 2000 <= finish_time t)
         (take 1 (snd (draw_timetrackers 2000 (fun _ => 2000)
                         [running_until_1000; zeroed_timetracker]))).
Proof.
  apply (X16_redraw_heals 2000 (fun _ => 2000) 1
           [running_until_1000; zeroed_timetracker]).
  - split; [repeat constructor; discriminate|].
    exists zeroed_timetracker. split; reflexivity.
  - vm_compute. discriminate.
Defined.

(** ** The Ruby script: saving, loading, keys *)

Module RubyRunFacts.
Import Ruby RubyRun RubyFacts.

(** *** Saving whatever the timers do *)

Lemma CreateTaskTime_at now tt :
  CreateTaskTime (Some (TaskTime_to_s now tt)) = inr (minutes_at now tt).
Proof.
  unfold CreateTaskTime, TaskTime_to_s.
  set (s := get_seconds now tt).
  set (h := s / 3600). set (m := (s - h * 3600) / 60).
  destruct (sprintf_02d_chars h) as [Hh _].
  destruct (sprintf_02d_chars m) as (Hm & body & d & Em & _).
  unfold split. rewrite split_fields_app
    by (apply forallb_sign_or_digit_not; [exact Hh | reflexivity]).
  rewrite split_fields_one
    by (apply forallb_sign_or_digit_not; [exact Hm | reflexivity]).
  change [sprintf_02d h; sprintf_02d m]
    with ([sprintf_02d h] ++ [sprintf_02d m]).
  rewrite (drop_trailing_empty_last [sprintf_02d h] (sprintf_02d m)).
  - cbn [app]. rewrite !to_i_sprintf_02d.
    unfold TaskTime_new, minutes_at. fold s. do 2 f_equal.
    apply whole_minutes_seconds.
  - rewrite Em. intros E. apply app_eq_nil in E as [_ E]. discriminate.
Qed.

Lemma load_line_at now t st :
  field_ok (key t) = true -> field_ok (taskname t) = true ->
  load_line (Task_to_s now t) st =
  add_task (key t) (taskname t) (minutes_at now (goaltime t))
    (minutes_at now (curtime t)) st.
Proof.
  intros Hk Hn. unfold load_line.
  rewrite chomp_task_line, split_task_body by assumption.
  cbn [lookup list_lookup].
  rewrite !CreateTaskTime_at. reflexivity.
Qed.

Lemma load_lines_at now rest : forall acc (os : observers),
  Forall entry_ok rest ->
  NoDup (heads rest) ->
  (forall h, In h (heads rest) -> os !! h = None) ->
  (forall h, In h (heads acc) -> is_Some (os !! h)) ->
  exists os',
    load_lines (map (fun kt => Task_to_s now (snd kt)) rest) (acc, os) =
    inr (acc ++ map (entry_minutes_at now) rest, os').
Proof.
  induction rest as [|[k t] rest IH]; intros acc os Hok Hnd Hfree Hacc.
  - exists os. cbn [map load_lines]. rewrite app_nil_r. reflexivity.
  - apply Forall_cons_1 in Hok as [(Hkey & Hk & Hn) Hok].
    cbn [fst snd] in Hkey, Hk, Hn. subst k.
    cbn [heads map fst] in Hnd. apply NoDup_cons in Hnd as [Hnotin Hnd].
    cbn [map load_lines snd].
    rewrite (load_line_at now t (acc, os) Hk Hn).
    unfold add_task, add_obs. cbn [fst snd].
    assert (Hnone : os !! hd_error (key t) = None).
    { apply Hfree. left. reflexivity. }
    rewrite Hnone.
    assert (Hfresh : ~ In (key t) (map fst acc)).
    { intros Hin. apply in_map_iff in Hin as ([k' t'] & Hk' & Hin).
      cbn [fst] in Hk'. subst k'.
      destruct (Hacc (hd_error (key t))) as [o Ho]; [|congruence].
      unfold heads. apply in_map_iff. exists (key t, t').
      split; [reflexivity|exact Hin]. }
    rewrite (hash_store_fresh _ _ _ Hfresh).
    set (t' := {| key := key t; taskname := taskname t;
                  goaltime := minutes_at now (goaltime t);
                  curtime := minutes_at now (curtime t) |}).
    destruct (IH (acc ++ [(key t, t')])
                 (<[hd_error (key t) := ObsTask t']> os) Hok Hnd)
      as [os' Hos'].
    + intros h Hin. rewrite lookup_insert_ne.
      * apply Hfree. right. exact Hin.
      * intros E. subst h. apply Hnotin. apply list_elem_of_In. exact Hin.
    + intros h Hin. unfold heads in Hin. rewrite map_app in Hin.
      apply in_app_or in Hin as [Hin|Hin].
      * destruct (decide (hd_error (key t) = h)) as [->|Hne].
        -- rewrite lookup_insert_eq. eauto.
        -- rewrite lookup_insert_ne by exact Hne. apply Hacc. exact Hin.
      * cbn [map In fst] in Hin. destruct Hin as [<-|[]].
        rewrite lookup_insert_eq. eauto.
    + exists os'. rewrite Hos'. rewrite <- app_assoc. reflexivity.
Qed.

Lemma save_then_load_at (now : Z) (s : TaskSet) :
  task_set_ok s ->
  exists os,
    load (save now s) =
    inr ({| description := chomp (description s ++ [newline]);
            tasks := map (entry_minutes_at now) (tasks s) |}, os).
Proof.
  intros (Hd & Hok & Hnd & Hq).
  unfold load, save, TaskSet_new.
  rewrite puts_to_s. unfold TaskSet_to_s.
  rewrite gets_all_line by exact Hd.
  rewrite gets_all_task_lines by exact Hok.
  destruct (load_lines_at now (tasks s) [] observers_at_load Hok Hnd)
    as [os Hos].
  - intros h Hin. unfold observers_at_load.
    apply lookup_singleton_ne. intros E. subst h. exact (Hq Hin).
  - intros h [].
  - exists os. rewrite Hos. reflexivity.
Qed.

(** X17.  A save does not need the timers stopped: whatever runs at the
    instant [now] of the save is written with the time on its clock at
    [now], and loading the file gives the same keys and names in the
    same order, every timer stopped at that time cut to whole minutes. *)
Theorem X17_save_while_running (now : Z) (s : TaskSet) :
  task_set_ok s ->
  exists os,
    load (save now s) =
    inr ({| description := chomp (description s ++ [newline]);
            tasks := map (entry_minutes_at now) (tasks s) |}, os).
Proof. exact (save_then_load_at now s). Qed.

Lemma X17_save_while_running_witness :
  exists os,
    load (save 700 sample_running_set) =
    inr ({| description := chomp (description sample_running_set ++ [newline]);
            tasks := map (entry_minutes_at 700) (tasks sample_running_set) |},
         os).
Proof.
  apply (X17_save_while_running 700 sample_running_set).
  split; [reflexivity|]. split.
  - repeat constructor.
  - split; [apply (bool_decide_unpack _); vm_compute; exact I|].
    cbn. intros [H|[H|[]]]; discriminate.
Defined.

(** *** Files that do not load *)




Lemma load_lines_app pre : forall post st,
  load_lines (pre ++ post) st =
  match load_lines pre st with
  | inl e => inl e
  | inr st' => load_lines post st'
  end.
Proof.
  induction pre as [|l pre IH]; intros post st; [reflexivity|].
  cbn [app load_lines]. destruct (load_line l st); [reflexivity|]. apply IH.
Qed.

Lemma load_line_no_bar line st :
  forallb (fun c => negb (c =? "|")%char) line = true ->
  load_line line st = inl NoMethodError.
Proof.
  intros Hbar. unfold load_line.
  assert (Hc : forallb (fun c => negb (c =? "|")%char) (chomp line) = true).
  { apply forallb_forall. intros x Hx.
    rewrite forallb_forall in Hbar. apply Hbar.
    exact (chomp_incl line x Hx). }
  unfold split. rewrite (split_fields_one _ _ Hc).
  destruct (chomp line) as [|c r]; reflexivity.
Qed.

(** X19.  A line of the task file without a [|] (so an empty line too)
    ends the load with a [NoMethodError], when the lines before it were
    read. *)
Theorem X19_line_without_bar (file first line : list ascii)
    (pre post : list (list ascii)) st :
  gets_all file = first :: pre ++ line :: post ->
  load_lines pre ([], observers_at_load) = inr st ->
  forallb (fun c => negb (c =? "|")%char) line = true ->
  load file = inl NoMethodError.
Proof.
  intros Hfile Hpre Hbar. unfold load, TaskSet_new.
  rewrite Hfile, load_lines_app, Hpre. cbn [load_lines].
  rewrite (load_line_no_bar line st Hbar). reflexivity.
Qed.

Lemma X19_line_without_bar_witness :
  load gap_task_file = inl NoMethodError.
Proof.
  eapply (X19_line_without_bar gap_task_file (txt "My tasks" ++ [newline])
            [newline] [txt "a|write|00:05|01:00" ++ [newline]]
            [txt "b|read|01:30|02:00" ++ [newline]]).
  - vm_compute. reflexivity.
  - vm_compute. reflexivity.
  - reflexivity.
Defined.

(** *** The start of a run *)

Lemma add_task_binding k tname goal cur st st' :
  loading_inv st -> binding_inv st ->
  add_task k tname goal cur st = inr st' ->
  binding_inv st'.
Proof.
  intros (_ & _ & _ & Hbound & _ & _) (Hq & Htasks & Honly).
  destruct st as [ts os]. cbn [fst snd] in *.
  unfold add_task, add_obs. cbn [fst snd].
  destruct (os !! hd_error k) as [o|] eqn:Hfree; [discriminate|].
  intros H. inversion H; subst st'. clear H.
  set (t := {| key := k; taskname := tname; goaltime := goal;
               curtime := cur |}).
  assert (Hhead : ~ In (hd_error k) (heads ts)).
  { intros Hin. destruct (Hbound _ Hin) as [o Ho]. congruence. }
  assert (Hfresh : ~ In k (map fst ts)).
  { intros Hin. apply Hhead. apply in_map_iff in Hin as ([k' t'] & E & Hin).
    cbn [fst] in E. subst k'. unfold heads. apply in_map_iff.
    exists (k, t'). split; [reflexivity | exact Hin]. }
  rewrite (hash_store_fresh _ _ _ Hfresh).
  unfold binding_inv. cbn [fst snd].
  split.
  { rewrite lookup_insert_ne; [exact Hq|]. intros E. rewrite E in Hfree.
    congruence. }
  split.
  { intros kt Hin. apply in_app_or in Hin as [Hin|[<-|[]]].
    - destruct (Htasks kt Hin) as (u & Hu & Hkey).
      exists u. split; [|exact Hkey].
      rewrite lookup_insert_ne; [exact Hu|]. intros E. rewrite E in Hfree.
      congruence.
    - exists t. cbn [fst]. rewrite lookup_insert_eq. split; reflexivity. }
  intros h Hsome. rewrite heads_app. cbn [heads map fst].
  destruct (decide (hd_error k = h)) as [<-|Hne].
  - right. apply in_or_app. right. left. reflexivity.
  - rewrite lookup_insert_ne in Hsome by exact Hne.
    destruct (Honly h Hsome) as [E|Hin]; [left; exact E|].
    right. apply in_or_app. left. exact Hin.
Qed.

Lemma load_line_binding line st st' :
  loading_inv st -> binding_inv st ->
  load_line line st = inr st' -> binding_inv st'.
Proof.
  intros Hinv Hb. unfold load_line.
  destruct (CreateTaskTime (split "|" (chomp line) !! 2%nat))
    as [e|cur]; [discriminate|].
  destruct (CreateTaskTime (split "|" (chomp line) !! 3%nat))
    as [e|goal]; [discriminate|].
  destruct (split "|" (chomp line) !! 0%nat) as [k|]; [|discriminate].
  destruct (split "|" (chomp line) !! 1%nat) as [tn|]; [|discriminate].
  apply add_task_binding; assumption.
Qed.

Lemma load_lines_binding lines : forall st st',
  Forall (fun l => no_newline (chomp l)) lines ->
  loading_inv st -> binding_inv st ->
  load_lines lines st = inr st' -> binding_inv st'.
Proof.
  induction lines as [|line rest IH]; intros st st' Hnl Hinv Hb H.
  - inversion H. subst. exact Hb.
  - apply Forall_cons_1 in Hnl as [Hline Hrest]. cbn [load_lines] in H.
    destruct (load_line line st) as [e|st1] eqn:E; [discriminate|].
    apply (IH st1 st' Hrest); [| |exact H].
    + exact (load_line_inv line st st1 Hline Hinv E).
    + exact (load_line_binding line st st1 Hinv Hb E).
Qed.

Lemma binding_inv_start : binding_inv ([], observers_at_load).
Proof.
  unfold binding_inv, observers_at_load. cbn [fst snd].
  split; [apply lookup_singleton_eq|]. split; [intros kt []|].
  intros h [o Ho]. left.
  destruct (decide (Some "q"%char = h)) as [E|Hne]; [symmetry; exact E|].
  rewrite lookup_singleton_ne in Ho by exact Hne. discriminate.
Qed.

Lemma loaded_binding file s os :
  load file = inr (s, os) -> binding_inv (tasks s, os).
Proof.
  unfold load, TaskSet_new. pose proof (gets_all_shape file) as Hshape.
  destruct (gets_all file) as [|first rest]; [discriminate|].
  apply Forall_cons_1 in Hshape as [_ Hrest].
  destruct (load_lines rest ([], observers_at_load)) as [e|[ts os']] eqn:E;
    [discriminate|].
  intros H. inversion H; subst s os'. clear H. cbn [tasks].
  assert (Hlines : Forall (fun l => no_newline (chomp l)) rest).
  { eapply Forall_impl; [exact Hrest|]. intros l Hl.
    apply chomp_line_no_newline. exact Hl. }
  exact (load_lines_binding rest _ _ Hlines loading_inv_start
           binding_inv_start E).
Qed.

(** What [start] does with a file that loads. *)
Lemma start_of_load file ts os :
  load file = inr (ts, os) ->
  ~ In (Some "s"%char) (heads (tasks ts)) ->
  ~ In (Some "z"%char) (heads (tasks ts)) ->
  start file =
  inr {| task_set := ts;
         bound := <[Some "z"%char := ObsZeroer]>
                    (<[Some "s"%char := ObsSaver]> os);
         running_tasks := ∅ |}.
Proof.
  intros Hload Hs Hz. unfold start. rewrite Hload.
  destruct (loaded_binding file ts os Hload) as (_ & _ & Honly).
  cbn [fst snd] in Honly.
  assert (Es : os !! Some "s"%char = None).
  { destruct (os !! Some "s"%char) as [o|] eqn:E; [|reflexivity].
    destruct (Honly (Some "s"%char)) as [H|H]; [eauto|discriminate|].
    destruct (Hs H). }
  assert (Ez : os !! Some "z"%char = None).
  { destruct (os !! Some "z"%char) as [o|] eqn:E; [|reflexivity].
    destruct (Honly (Some "z"%char)) as [H|H]; [eauto|discriminate|].
    destruct (Hz H). }
  unfold add_obs. rewrite Es.
  rewrite lookup_insert_ne by discriminate. rewrite Ez. reflexivity.
Qed.

Lemma start_load file s :
  start file = inr s ->
  exists os,
    load file = inr (task_set s, os) /\
    os !! Some "s"%char = None /\ os !! Some "z"%char = None /\
    bound s = <[Some "z"%char := ObsZeroer]>
                (<[Some "s"%char := ObsSaver]> os) /\
    running_tasks s = ∅.
Proof.
  unfold start. destruct (load file) as [e|[ts os]] eqn:Hload; [discriminate|].
  unfold add_obs.
  destruct (os !! Some "s"%char) as [o|] eqn:Es; [discriminate|].
  rewrite lookup_insert_ne by discriminate.
  destruct (os !! Some "z"%char) as [o|] eqn:Ez; [discriminate|].
  intros H. inversion H. subst s. clear H. cbn [task_set bound running_tasks].
  exists os. repeat split; reflexivity || assumption.
Qed.

Lemma start_session_ok file s :
  start file = inr s ->
  session_ok s /\ all_stopped (task_set s) /\ running_tasks s = ∅.
Proof.
  intros Hstart.
  destruct (start_load file s Hstart) as (os & Hload & Es & Ez & Hb & Hr).
  destruct (loaded_task_set_ok file _ os Hload) as [Hok Hst].
  destruct (loaded_binding file _ os Hload) as (Hq & Htasks & Honly).
  pose proof Hload as Hinv. unfold load, TaskSet_new in Hinv.
  cbn [fst snd] in *.
  assert (Hbound : forall h, In h (heads (tasks (task_set s))) ->
                             exists u, os !! h = Some (ObsTask u)).
  { intros h Hin. unfold heads in Hin.
    apply in_map_iff in Hin as (kt & <- & Hin).
    destruct (Htasks kt Hin) as (u & Hu & _). eauto. }
  assert (Hs : ~ In (Some "s"%char) (heads (tasks (task_set s)))).
  { intros Hin. destruct (Hbound _ Hin) as [u Hu]. congruence. }
  assert (Hz : ~ In (Some "z"%char) (heads (tasks (task_set s)))).
  { intros Hin. destruct (Hbound _ Hin) as [u Hu]. congruence. }
  split; [|split; [exact Hst|exact Hr]].
  unfold session_ok. rewrite Hb, Hr.
  split; [exact Hok|]. split; [exact Hs|]. split; [exact Hz|].
  split. { rewrite !lookup_insert_ne by discriminate. exact Hq. }
  split. { rewrite lookup_insert_ne by discriminate. apply lookup_insert_eq. }
  split. { apply lookup_insert_eq. }
  split.
  { intros kt Hin. destruct (Htasks kt Hin) as (u & Hu & Hkey).
    exists u. split; [|exact Hkey].
    assert (Hin' : In (hd_error (fst kt)) (heads (tasks (task_set s)))).
    { unfold heads. apply in_map_iff. exists kt. split; [reflexivity|exact Hin]. }
    rewrite !lookup_insert_ne; [exact Hu| |].
    - intros E. rewrite <- E in Hin'. exact (Hs Hin').
    - intros E. rewrite <- E in Hin'. exact (Hz Hin'). }
  split.
  { intros h Hsome.
    destruct (decide (Some "z"%char = h)) as [<-|Hnz]; [auto|].
    rewrite lookup_insert_ne in Hsome by exact Hnz.
    destruct (decide (Some "s"%char = h)) as [<-|Hns]; [auto|].
    rewrite lookup_insert_ne in Hsome by exact Hns.
    destruct (Honly h Hsome); auto. }
  split.
  { eapply Forall_impl; [exact Hst|]. intros kt [_ Hg]. exact Hg. }
  eapply Forall_impl; [exact Hst|]. intros kt [Hc _] Hrun. congruence.
Qed.

(** X20.  A run that starts has an empty registry of running tasks and
    every timer stopped; [q], [s] and [z] are bound to quitting, saving
    and zeroing, the first character of each task key to that task, no
    other key to anything; and the first characters of the task keys
    differ from each other and from [q], [s] and [z]. *)
Theorem X20_start (file : list ascii) (s : session) :
  start file = inr s ->
  session_ok s /\ all_stopped (task_set s) /\ running_tasks s = ∅.
Proof. exact (start_session_ok file s). Qed.

Lemma X20_start_witness :
  exists s, start sample_task_file = inr s /\
    session_ok s /\ all_stopped (task_set s) /\ running_tasks s = ∅.
Proof.
  destruct (start sample_task_file) as [e|s] eqn:E;
    [vm_compute in E; discriminate|].
  exists s. split; [reflexivity|]. exact (X20_start sample_task_file s E).
Defined.

(** X21.  A task file that loads but lists a task whose key begins with
    [s] or [z] does not start: binding the key of [Saver] or [Zeroer]
    ends the program with [tried to bind the same key twice!]. *)
Theorem X21_reserved_keys (file : list ascii) (ts : TaskSet) (os : observers) :
  load file = inr (ts, os) ->
  In (Some "s"%char) (heads (tasks ts)) \/
  In (Some "z"%char) (heads (tasks ts)) ->
  start file = inl BoundTwice.
Proof.
  intros Hload Hin. unfold start. rewrite Hload.
  destruct (loaded_binding file ts os Hload) as (_ & Htasks & Honly).
  cbn [fst snd] in *.
  assert (Hbound : forall h, In h (heads (tasks ts)) -> is_Some (os !! h)).
  { intros h Hh. unfold heads in Hh.
    apply in_map_iff in Hh as (kt & <- & Hh).
    destruct (Htasks kt Hh) as (u & Hu & _). eauto. }
  unfold add_obs.
  destruct (os !! Some "s"%char) as [o|] eqn:Es; [reflexivity|].
  rewrite lookup_insert_ne by discriminate.
  destruct (os !! Some "z"%char) as [o|] eqn:Ez; [reflexivity|].
  destruct Hin as [Hin|Hin]; destruct (Hbound _ Hin) as [o Ho]; congruence.
Qed.

Lemma X21_reserved_keys_witness :
  start sleep_task_file = inl BoundTwice.
Proof.
  destruct (load sleep_task_file) as [e|[ts os]] eqn:E;
    [vm_compute in E; discriminate|].
  apply (X21_reserved_keys sleep_task_file ts os E).
  pose proof E as E'. vm_compute in E'. injection E' as Ets _. subst ts.
  left. cbn. right. left. reflexivity.
Defined.

(** *** Keystrokes *)

Lemma on_task_identity k f ts :
  (forall t, key (f t) = key t /\ taskname (f t) = taskname t /\
             goaltime (f t) = goaltime t) ->
  map identity (on_task k f ts) = map identity ts.
Proof.
  intros Hf. unfold on_task. rewrite map_map. apply map_ext.
  intros [k' t]. cbn [fst]. destruct (decide (k' = k)); [|reflexivity].
  unfold identity. cbn [fst snd].
  destruct (Hf t) as (-> & -> & ->). reflexivity.
Qed.

Lemma handle_keystroke_identity now k s :
  description (task_set (handle_keystroke now k s)) = description (task_set s) /\
  map identity (tasks (task_set (handle_keystroke now k s))) =
  map identity (tasks (task_set s)) /\
  bound (handle_keystroke now k s) = bound s.
Proof.
  unfold handle_keystroke.
  destruct (decide (k ∈ running_tasks s)); cbn [task_set description tasks bound];
    (split; [reflexivity|]); (split; [|reflexivity]);
    apply on_task_identity; intros t; repeat split; reflexivity.
Qed.

Lemma zero_all_identity now s :
  description (task_set (zero_all now s)) = description (task_set s) /\
  map identity (tasks (task_set (zero_all now s))) =
  map identity (tasks (task_set s)) /\
  bound (zero_all now s) = bound s.
Proof.
  unfold zero_all. cbn [task_set description tasks bound].
  split; [reflexivity|]. split; [|reflexivity].
  rewrite map_map. apply map_ext. intros [k t]. reflexivity.
Qed.

Lemma send_key_identity now ch s :
  description (task_set (after_key (send_key now ch s) s)) =
  description (task_set s) /\
  map identity (tasks (task_set (after_key (send_key now ch s) s))) =
  map identity (tasks (task_set s)) /\
  bound (after_key (send_key now ch s) s) = bound s.
Proof.
  unfold send_key. destruct (bound s !! ch) as [[| | |u]|]; cbn [after_key];
    try (repeat split; reflexivity).
  - apply zero_all_identity.
  - apply handle_keystroke_identity.
Qed.

Lemma run_step now ch rest s :
  run ((now, ch) :: rest) s =
  match send_key now ch s with
  | RunEnds => s
  | GoesOn s' _ => run rest s'
  end.
Proof. reflexivity. Qed.

Lemma run_identity keys : forall s,
  description (task_set (run keys s)) = description (task_set s) /\
  map identity (tasks (task_set (run keys s))) =
  map identity (tasks (task_set s)) /\
  bound (run keys s) = bound s.
Proof.
  induction keys as [|[now ch] rest IH]; intros s.
  - repeat split; reflexivity.
  - rewrite run_step. pose proof (send_key_identity now ch s) as Hstep.
    destruct (send_key now ch s) as [|s' w]; cbn [after_key] in Hstep.
    + repeat split; reflexivity.
    + destruct (IH s') as (Hd & Hi & Hb).
      destruct Hstep as (Hd' & Hi' & Hb').
      rewrite Hd, Hi, Hb. auto.
Qed.

(** X22.  Nothing the keys do during a run changes the description, the
    keys, the names, the goal times or the order of the tasks, or what a
    key is bound to: only the clocks of the tasks move. *)
Theorem X22_keys_move_clocks_only (keys : list (Z * option ascii))
    (s : session) :
  description (task_set (run keys s)) = description (task_set s) /\
  map identity (tasks (task_set (run keys s))) =
  map identity (tasks (task_set s)) /\
  bound (run keys s) = bound s.
Proof. exact (run_identity keys s). Qed.

(** *** What a run keeps *)

Lemma identity_heads ts ts' :
  map identity ts' = map identity ts -> heads ts' = heads ts.
Proof.
  intros H. unfold heads.
  assert (E : forall l, map (fun kt : list ascii * Task => hd_error (fst kt)) l =
                        map (fun i => hd_error (fst (fst (fst i))))
                            (map identity l)).
  { intros l. rewrite map_map. reflexivity. }
  rewrite !E, H. reflexivity.
Qed.

Lemma identity_Forall
    (P : list ascii * list ascii * list ascii * TaskTime -> Prop) ts ts' :
  map identity ts' = map identity ts ->
  Forall (fun kt => P (identity kt)) ts ->
  Forall (fun kt => P (identity kt)) ts'.
Proof.
  intros H Hall. apply List.Forall_map. rewrite H.
  apply List.Forall_map. exact Hall.
Qed.

Lemma identity_In ts ts' kt :
  map identity ts' = map identity ts -> In kt ts' ->
  exists kt0, In kt0 ts /\ identity kt0 = identity kt.
Proof.
  intros H Hin.
  assert (Hi : In (identity kt) (map identity ts)).
  { rewrite <- H. apply in_map. exact Hin. }
  apply in_map_iff in Hi as (kt0 & E & Hin0). eauto.
Qed.

Lemma session_ok_transfer s s' :
  description (task_set s') = description (task_set s) ->
  map identity (tasks (task_set s')) = map identity (tasks (task_set s)) ->
  bound s' = bound s ->
  Forall (fun kt => start_time (curtime (snd kt)) <> None ->
                    fst kt ∈ running_tasks s') (tasks (task_set s')) ->
  session_ok s -> session_ok s'.
Proof.
  intros Hd Hi Hb Hreg
    ((Hdesc & Hok & Hnd & Hq) & Hs & Hz & Bq & Bs & Bz & Htasks & Honly &
     Hgoal & _).
  pose proof (identity_heads _ _ Hi) as Hh.
  unfold session_ok, task_set_ok. rewrite Hd, Hh, Hb.
  split.
  { split; [exact Hdesc|]. split; [|split; assumption].
    apply (identity_Forall
             (fun i => fst (fst (fst i)) = snd (fst (fst i)) /\
                       field_ok (snd (fst (fst i))) = true /\
                       field_ok (snd (fst i)) = true) _ _ Hi).
    exact Hok. }
  do 5 (split; [assumption|]).
  split.
  { intros kt Hin. destruct (identity_In _ _ _ Hi Hin) as (kt0 & Hin0 & E).
    destruct (Htasks kt0 Hin0) as (u & Hu & Hkey).
    assert (Ef : fst kt0 = fst kt) by (unfold identity in E; congruence).
    exists u. rewrite <- Ef. auto. }
  split; [exact Honly|]. split; [|exact Hreg].
  apply (identity_Forall (fun i => start_time (snd i) = None) _ _ Hi).
  exact Hgoal.
Qed.

Lemma zero_all_session_ok now s : session_ok s -> session_ok (zero_all now s).
Proof.
  intros Hok. destruct (zero_all_identity now s) as (Hd & Hi & Hb).
  apply (session_ok_transfer s); try assumption.
  unfold zero_all. cbn [task_set tasks running_tasks].
  apply List.Forall_map. apply Forall_forall. intros kt _ Hrun.
  destruct Hrun. reflexivity.
Qed.

Lemma handle_keystroke_session_ok now k s :
  session_ok s -> session_ok (handle_keystroke now k s).
Proof.
  intros Hok. destruct (handle_keystroke_identity now k s) as (Hd & Hi & Hb).
  apply (session_ok_transfer s); try assumption.
  destruct Hok as (_ & _ & _ & _ & _ & _ & _ & _ & _ & Hreg).
  unfold handle_keystroke.
  destruct (decide (k ∈ running_tasks s)) as [Hin|Hout];
    cbn [task_set tasks running_tasks]; unfold on_task;
    apply List.Forall_map; eapply Forall_impl; try exact Hreg;
    intros [k' t] Hkt; cbn [fst snd] in *;
    destruct (decide (k' = k)) as [->|Hne]; cbn [fst snd].
  - intros Hrun. destruct Hrun. reflexivity.
  - intros Hrun. specialize (Hkt Hrun). set_solver.
  - intros _. set_solver.
  - intros Hrun. specialize (Hkt Hrun). set_solver.
Qed.

Lemma send_key_session_ok now ch s :
  session_ok s -> session_ok (after_key (send_key now ch s) s).
Proof.
  intros Hok. unfold send_key.
  destruct (bound s !! ch) as [[| | |u]|]; cbn [after_key]; try exact Hok.
  - apply zero_all_session_ok. exact Hok.
  - apply handle_keystroke_session_ok. exact Hok.
Qed.

Lemma run_session_ok keys : forall s, session_ok s -> session_ok (run keys s).
Proof.
  induction keys as [|[now ch] rest IH]; intros s Hok; [exact Hok|].
  rewrite run_step. pose proof (send_key_session_ok now ch s Hok) as Hstep.
  destruct (send_key now ch s) as [|s' w]; [exact Hok|].
  apply IH. exact Hstep.
Qed.

(** X23.  Every keystroke keeps what holds at the start of a run: the
    keys stay bound as they were; the descriptions, keys and names stay
    fit for the task file; no goal time is running; and a task whose
    clock is running is in the registry of running tasks. *)
Theorem X23_keystroke_keeps (now : Z) (ch : option ascii) (s : session) :
  session_ok s -> session_ok (after_key (send_key now ch s) s).
Proof. exact (send_key_session_ok now ch s). Qed.

Lemma sample_start :
  exists s, start sample_task_file = inr s /\
            task_set s = sample_task_set_reloaded /\
            running_tasks s = ∅ /\ session_ok s.
Proof.
  destruct (start sample_task_file) as [e|s] eqn:E;
    [vm_compute in E; discriminate|].
  exists s. split; [reflexivity|].
  destruct (start_load _ s E) as (os & Hload & _ & _ & _ & Hr).
  destruct (start_session_ok _ s E) as (Hok & _ & _).
  vm_compute in Hload. injection Hload as Hts _.
  split; [symmetry; exact Hts|]. split; [exact Hr|exact Hok].
Qed.

Lemma X23_keystroke_keeps_witness :
  exists s, start sample_task_file = inr s /\
            session_ok (after_key (send_key 100 (Some "a"%char) s) s).
Proof.
  destruct sample_start as (s & Hs & _ & _ & Hok).
  exists s. split; [exact Hs|].
  exact (X23_keystroke_keeps 100 (Some "a"%char) s Hok).
Defined.

(** *** From one run to the next *)

Lemma heads_minutes_at now ts : heads (map (entry_minutes_at now) ts) = heads ts.
Proof. unfold heads. rewrite map_map. reflexivity. Qed.

Lemma restart file s0 keys now :
  start file = inr s0 ->
  exists s',
    start (save now (task_set (run keys s0))) = inr s' /\
    description (task_set s') =
      chomp (description (task_set s0) ++ [newline]) /\
    tasks (task_set s') =
      map (entry_minutes_at now) (tasks (task_set (run keys s0))) /\
    running_tasks s' = ∅.
Proof.
  intros Hstart.
  destruct (start_session_ok file s0 Hstart) as (Hok0 & _ & _).
  pose proof (run_session_ok keys s0 Hok0) as Hok.
  destruct (run_identity keys s0) as (Hd & _ & _).
  destruct Hok as (Hts & Hs & Hz & _).
  destruct (save_then_load_at now _ Hts) as [os Hload].
  eexists. split.
  - apply (start_of_load _ _ os Hload); cbn [tasks];
      rewrite heads_minutes_at; assumption.
  - cbn [task_set description tasks running_tasks]. rewrite Hd.
    repeat split; reflexivity.
Qed.

(** X24.  Whatever keys were pressed since the start of a run, and at
    whatever moment [s] is pressed, the file that is written is one the
    script starts from: the next run has the same description, the same
    tasks in the same order, each clock and goal at what it showed at the
    save, cut to whole minutes, and nothing running. *)
Theorem X24_saved_file_starts (file : list ascii) (s0 : session)
    (keys : list (Z * option ascii)) (now : Z) :
  start file = inr s0 ->
  exists s',
    start (save now (task_set (run keys s0))) = inr s' /\
    description (task_set s') =
      chomp (description (task_set s0) ++ [newline]) /\
    tasks (task_set s') =
      map (entry_minutes_at now) (tasks (task_set (run keys s0))) /\
    running_tasks s' = ∅.
Proof. exact (restart file s0 keys now). Qed.

Lemma X24_saved_file_starts_witness :
  exists s0 s',
    start sample_task_file = inr s0 /\
    start (save 700 (task_set (run [(100, Some "a"%char)] s0))) = inr s' /\
    tasks (task_set s') =
      map (entry_minutes_at 700)
          (tasks (task_set (run [(100, Some "a"%char)] s0))).
Proof.
  destruct sample_start as (s0 & Hs & _).
  destruct (X24_saved_file_starts sample_task_file s0
              [(100, Some "a"%char)] 700 Hs) as (s' & H1 & _ & H2 & _).
  exists s0, s'. auto.
Defined.

(** *** What each key does *)

Lemma send_key_task now ch s u :
  bound s !! ch = Some (ObsTask u) ->
  send_key now ch s = GoesOn (handle_keystroke now (key u) s) None.
Proof. intros H. unfold send_key. rewrite H. reflexivity. Qed.

Lemma session_ok_keys now s :
  session_ok s ->
  send_key now (Some "q"%char) s = RunEnds /\
  send_key now (Some "s"%char) s = GoesOn s (Some (save now (task_set s))) /\
  send_key now (Some "z"%char) s = GoesOn (zero_all now s) None /\
  (forall kt, In kt (tasks (task_set s)) ->
     send_key now (hd_error (fst kt)) s =
     GoesOn (handle_keystroke now (fst kt) s) None) /\
  (forall ch, ch <> Some "q"%char -> ch <> Some "s"%char ->
     ch <> Some "z"%char -> ~ In ch (heads (tasks (task_set s))) ->
     send_key now ch s = GoesOn s None).
Proof.
  intros (_ & _ & _ & Bq & Bs & Bz & Htasks & Honly & _).
  unfold send_key. rewrite Bq, Bs, Bz.
  do 3 (split; [reflexivity|]). split.
  - intros kt Hin. destruct (Htasks kt Hin) as (u & -> & <-). reflexivity.
  - intros ch Hq Hs Hz Hh.
    destruct (bound s !! ch) as [o|] eqn:E; [|reflexivity].
    destruct (Honly ch) as [H|[H|[H|H]]]; [eauto|contradiction..].
Qed.

(** X25.  At every moment of a run that started, [q] ends it, [s]
    writes the task file and changes nothing, [z] zeroes every task, the
    first character of a task key goes to that task, and any other key
    does nothing. *)
Theorem X25_keys_of_a_run (file : list ascii) (s0 : session)
    (keys : list (Z * option ascii)) (now : Z) :
  start file = inr s0 ->
  let s := run keys s0 in
  send_key now (Some "q"%char) s = RunEnds /\
  send_key now (Some "s"%char) s = GoesOn s (Some (save now (task_set s))) /\
  send_key now (Some "z"%char) s = GoesOn (zero_all now s) None /\
  (forall kt, In kt (tasks (task_set s)) ->
     send_key now (hd_error (fst kt)) s =
     GoesOn (handle_keystroke now (fst kt) s) None) /\
  (forall ch, ch <> Some "q"%char -> ch <> Some "s"%char ->
     ch <> Some "z"%char -> ~ In ch (heads (tasks (task_set s))) ->
     send_key now ch s = GoesOn s None).
Proof.
  intros Hstart s. apply session_ok_keys. apply run_session_ok.
  exact (proj1 (start_session_ok file s0 Hstart)).
Qed.

Lemma X25_keys_of_a_run_witness :
  exists s0,
    start sample_task_file = inr s0 /\
    send_key 200 (Some "q"%char) (run [(100, Some "a"%char)] s0) = RunEnds.
Proof.
  destruct sample_start as (s0 & Hs & _).
  exists s0. split; [exact Hs|].
  exact (proj1 (X25_keys_of_a_run sample_task_file s0
                  [(100, Some "a"%char)] 200 Hs)).
Defined.

Lemma on_task_twice k f g ts :
  on_task k g (on_task k f ts) = on_task k (fun t => g (f t)) ts.
Proof.
  unfold on_task. rewrite map_map. apply map_ext. intros [k' t]. cbn [fst].
  destruct (decide (k' = k)) as [E|Hne]; cbn [fst snd].
  - destruct (decide (k' = k)); [reflexivity|contradiction].
  - destruct (decide (k' = k)); [contradiction|reflexivity].
Qed.

Lemma end_after_start t0 t1 t :
  task_end_timer t1 (task_start_timer t0 t) = add_seconds (t1 - t0) t.
Proof.
  unfold task_end_timer, task_start_timer, add_seconds, end_timer,
    start_timer, get_seconds. cbn [key taskname goaltime curtime seconds
    start_time].
  rewrite (Z.add_comm (t1 - t0)). reflexivity.
Qed.

Lemma two_presses t0 t1 s kt :
  session_ok s ->
  In kt (tasks (task_set s)) ->
  fst kt ∉ running_tasks s ->
  start_time (curtime (snd kt)) = None /\
  after_key (send_key t1 (hd_error (fst kt))
               (after_key (send_key t0 (hd_error (fst kt)) s) s)) s =
  {| task_set :=
       {| description := description (task_set s);
          tasks := on_task (fst kt) (add_seconds (t1 - t0))
                           (tasks (task_set s)) |};
     bound := bound s;
     running_tasks := running_tasks s |}.
Proof.
  intros Hok Hin Hout. split.
  { destruct Hok as (_ & _ & _ & _ & _ & _ & _ & _ & _ & Hreg).
    rewrite List.Forall_forall in Hreg. specialize (Hreg kt Hin).
    destruct (start_time (curtime (snd kt))) as [st|]; [|reflexivity].
    destruct Hout. apply Hreg. discriminate. }
  destruct Hok as (_ & _ & _ & _ & _ & _ & Htasks & _).
  destruct (Htasks kt Hin) as (u & Hu & Hkey).
  rewrite (send_key_task t0 _ s u Hu). cbn [after_key].
  rewrite Hkey.
  assert (Hb : bound (handle_keystroke t0 (fst kt) s) = bound s)
    by apply handle_keystroke_identity.
  rewrite (send_key_task t1 _ _ u) by (rewrite Hb; exact Hu).
  cbn [after_key]. rewrite Hkey.
  unfold handle_keystroke at 2.
  destruct (decide (fst kt ∈ running_tasks s)) as [Hyes|_]; [contradiction|].
  unfold handle_keystroke. cbn [running_tasks task_set description tasks bound].
  destruct (decide (fst kt ∈ {[fst kt]} ∪ running_tasks s)) as [_|Hno];
    [|set_solver].
  f_equal.
  - f_equal. rewrite on_task_twice. unfold on_task. apply map_ext.
    intros [k' t]. cbn [fst snd]. destruct (decide (k' = fst kt)); [|reflexivity].
    rewrite end_after_start. reflexivity.
  - apply set_eq. intros x.
    rewrite elem_of_difference, elem_of_union, elem_of_singleton.
    split.
    + intros [[E|H] Hn]; [contradiction|exact H].
    + intros H. split; [right; exact H|]. intros ->. contradiction.
Qed.

(** X26.  Pressing the key of a task that is not registered as running,
    at time [t0], and pressing it again at time [t1], adds [t1 - t0]
    seconds to the clock of the task, which was stopped and is stopped
    again; no other task changes, and the registry of running tasks is
    as before. *)
Theorem X26_two_presses (t0 t1 : Z) (s : session) (kt : list ascii * Task) :
  session_ok s ->
  In kt (tasks (task_set s)) ->
  fst kt ∉ running_tasks s ->
  start_time (curtime (snd kt)) = None /\
  after_key (send_key t1 (hd_error (fst kt))
               (after_key (send_key t0 (hd_error (fst kt)) s) s)) s =
  {| task_set :=
       {| description := description (task_set s);
          tasks := on_task (fst kt) (add_seconds (t1 - t0))
                           (tasks (task_set s)) |};
     bound := bound s;
     running_tasks := running_tasks s |}.
Proof. exact (two_presses t0 t1 s kt). Qed.

Lemma X26_two_presses_witness :
  exists s kt,
    start sample_task_file = inr s /\ In kt (tasks (task_set s)) /\
    after_key (send_key 160 (hd_error (fst kt))
                 (after_key (send_key 100 (hd_error (fst kt)) s) s)) s =
    {| task_set :=
         {| description := description (task_set s);
            tasks := on_task (fst kt) (add_seconds (160 - 100))
                             (tasks (task_set s)) |};
       bound := bound s;
       running_tasks := running_tasks s |}.
Proof.
  destruct sample_start as (s & Hs & Hts & Hr & Hok).
  exists s, (txt "a", {| key := txt "a"; taskname := txt "write";
                         goaltime := {| seconds := 3600; start_time := None |};
                         curtime := {| seconds := 300; start_time := None |} |}).
  assert (Hin : In (txt "a",
                    {| key := txt "a"; taskname := txt "write";
                       goaltime := {| seconds := 3600; start_time := None |};
                       curtime := {| seconds := 300; start_time := None |} |})
                   (tasks (task_set s))).
  { rewrite Hts. left. reflexivity. }
  split; [exact Hs|]. split; [exact Hin|].
  apply (X26_two_presses 100 160 s _ Hok Hin).
  rewrite Hr. apply not_elem_of_empty.
Defined.

Lemma zero_then_end t1 t2 k ts :
  on_task k (task_end_timer t2)
          (map (fun kt => (fst kt, zero_timer t1 (snd kt))) ts) =
  map (fun kt => (fst kt, zero_timer t1 (snd kt))) ts.
Proof.
  unfold on_task. rewrite map_map. apply map_ext. intros [k' t].
  cbn [fst snd]. destruct (decide (k' = k)); reflexivity.
Qed.

Lemma press_after_zero t1 t2 s kt :
  session_ok s ->
  In kt (tasks (task_set s)) ->
  fst kt ∈ running_tasks s ->
  after_key (send_key t2 (hd_error (fst kt))
               (after_key (send_key t1 (Some "z"%char) s) s)) s =
  {| task_set := task_set (zero_all t1 s);
     bound := bound s;
     running_tasks := running_tasks s ∖ {[ fst kt ]} |}.
Proof.
  intros Hok Hin Hreg.
  destruct Hok as (_ & _ & _ & _ & _ & Bz & Htasks & _).
  destruct (Htasks kt Hin) as (u & Hu & Hkey).
  unfold send_key at 2. rewrite Bz. cbn [after_key].
  rewrite (send_key_task t2 _ (zero_all t1 s) u) by exact Hu.
  cbn [after_key]. rewrite Hkey.
  unfold handle_keystroke, zero_all.
  cbn [task_set description tasks bound running_tasks].
  destruct (decide (fst kt ∈ running_tasks s)) as [_|Hno]; [|contradiction].
  rewrite zero_then_end. reflexivity.
Qed.

(** X27.  [z] zeroes the clocks but leaves the registry of running tasks
    as it is.  So the next press of the key of a task that was running
    when [z] was pressed does not start its clock: it only takes the
    task out of the registry, and every clock is still stopped at
    zero. *)
Theorem X27_press_after_zero (t1 t2 : Z) (s : session)
    (kt : list ascii * Task) :
  session_ok s ->
  In kt (tasks (task_set s)) ->
  fst kt ∈ running_tasks s ->
  after_key (send_key t2 (hd_error (fst kt))
               (after_key (send_key t1 (Some "z"%char) s) s)) s =
  {| task_set := task_set (zero_all t1 s);
     bound := bound s;
     running_tasks := running_tasks s ∖ {[ fst kt ]} |}.
Proof. exact (press_after_zero t1 t2 s kt). Qed.

Lemma sample_running_session :
  exists s kt, session_ok s /\ In kt (tasks (task_set s)) /\
               fst kt ∈ running_tasks s.
Proof.
  destruct sample_start as (s & _ & Hts & Hr & Hok).
  exists (handle_keystroke 100 (txt "a") s).
  exists (txt "a", task_start_timer 100
            {| key := txt "a"; taskname := txt "write";
               goaltime := {| seconds := 3600; start_time := None |};
               curtime := {| seconds := 300; start_time := None |} |}).
  split; [apply handle_keystroke_session_ok; exact Hok|].
  unfold handle_keystroke. rewrite Hr.
  destruct (decide (txt "a" ∈ (∅ : gset (list ascii)))) as [Hin|_].
  { destruct (not_elem_of_empty (C := gset (list ascii)) _ Hin). }
  cbn [task_set tasks running_tasks]. rewrite Hts. split.
  - left. reflexivity.
  - apply elem_of_union. left. apply elem_of_singleton. reflexivity.
Qed.

Lemma X27_press_after_zero_witness :
  exists (s : session) (kt : list ascii * Task),
    fst kt ∈ running_tasks s /\
    after_key (send_key 300 (hd_error (fst kt))
                 (after_key (send_key 200 (Some "z"%char) s) s)) s =
    {| task_set := task_set (zero_all 200 s);
       bound := bound s;
       running_tasks := running_tasks s ∖ {[ fst kt ]} |}.
Proof.
  destruct sample_running_session as (s & kt & Hok & Hin & Hreg).
  exists s, kt. split; [exact Hreg|].
  exact (X27_press_after_zero 200 300 s kt Hok Hin Hreg).
Defined.

(** *** Times that are not times *)

Lemma drop_trailing_empty_cons fld r :
  fld <> [] -> drop_trailing_empty (fld :: r) = fld :: drop_trailing_empty r.
Proof.
  intros Hne. cbn [drop_trailing_empty].
  destruct (drop_trailing_empty r); [|reflexivity].
  destruct fld; [congruence|reflexivity].
Qed.

Lemma drop_trailing_empty_keeps fld r :
  drop_trailing_empty r <> [] ->
  drop_trailing_empty (fld :: r) = fld :: drop_trailing_empty r.
Proof.
  intros Hne. cbn [drop_trailing_empty].
  destruct (drop_trailing_empty r); [congruence|reflexivity].
Qed.

Lemma third_token k n c g :
  forallb (fun x => negb (x =? "|")%char) k = true ->
  forallb (fun x => negb (x =? "|")%char) n = true ->
  forallb (fun x => negb (x =? "|")%char) c = true ->
  c <> [] ->
  split "|" (k ++ "|"%char :: n ++ "|"%char :: c ++ "|"%char :: g)
    !! 2%nat = Some c.
Proof.
  intros Hk Hn Hc Hne. unfold split.
  rewrite (split_fields_app _ _ _ Hk), (split_fields_app _ _ _ Hn),
    (split_fields_app _ _ _ Hc).
  assert (H3 : drop_trailing_empty (c :: split_fields "|" g) =
               c :: drop_trailing_empty (split_fields "|" g))
    by (apply drop_trailing_empty_cons; exact Hne).
  rewrite (drop_trailing_empty_keeps k), (drop_trailing_empty_keeps n), H3.
  - reflexivity.
  - rewrite H3. discriminate.
  - rewrite (drop_trailing_empty_keeps n); rewrite H3; discriminate.
Qed.

Lemma CreateTaskTime_malformed c :
  length (split ":" c) <> 2%nat ->
  CreateTaskTime (Some c) = inl (MalformedTimeString c).
Proof.
  intros Hlen. unfold CreateTaskTime.
  destruct (split ":" c) as [|a [|b [|d r]]]; try reflexivity.
  destruct Hlen. reflexivity.
Qed.

Lemma load_fails_at file first line pre post st e :
  gets_all file = first :: pre ++ line :: post ->
  load_lines pre ([], observers_at_load) = inr st ->
  load_line line st = inl e ->
  load file = inl e.
Proof.
  intros Hfile Hpre Hline. unfold load, TaskSet_new.
  rewrite Hfile, load_lines_app, Hpre. cbn [load_lines].
  rewrite Hline. reflexivity.
Qed.

(** X28.  A task line whose third field, the time on the clock, is not
    two parts around one colon ends the load with
    [Malformed time string] naming that field, whatever stands in the
    fourth field, when the lines before it were read. *)
Theorem X28_malformed_time (file first line : list ascii)
    (pre post : list (list ascii)) st (k n c g : list ascii) :
  gets_all file = first :: pre ++ line :: post ->
  load_lines pre ([], observers_at_load) = inr st ->
  chomp line = k ++ "|"%char :: n ++ "|"%char :: c ++ "|"%char :: g ->
  forallb (fun x => negb (x =? "|")%char) k = true ->
  forallb (fun x => negb (x =? "|")%char) n = true ->
  forallb (fun x => negb (x =? "|")%char) c = true ->
  c <> [] ->
  length (split ":" c) <> 2%nat ->
  load file = inl (MalformedTimeString c).
Proof.
  intros Hfile Hpre Hline Hk Hn Hc Hne Hlen.
  apply (load_fails_at file first line pre post st _ Hfile Hpre).
  unfold load_line. rewrite Hline, (third_token k n c g Hk Hn Hc Hne).
  rewrite (CreateTaskTime_malformed c Hlen). reflexivity.
Qed.

Lemma X28_malformed_time_witness :
  load (text_lines ["My tasks"; "a|write|5|1:00"; "b|read|01:30|02:00"]%string)
  = inl (MalformedTimeString (txt "5")).
Proof.
  eapply (X28_malformed_time _ (txt "My tasks" ++ [newline])
            (txt "a|write|5|1:00" ++ [newline]) []
            [txt "b|read|01:30|02:00" ++ [newline]] _
            (txt "a") (txt "write") (txt "5") (txt "1:00")).
  - vm_compute. reflexivity.
  - reflexivity.
  - reflexivity.
  - reflexivity.
  - reflexivity.
  - reflexivity.
  - discriminate.
  - vm_compute. discriminate.
Defined.

End RubyRunFacts.
